(** * TREVEE multi-chain supply API: a shallow embedding and its properties

    The development follows the three server variants of the repository:
    - [Enhanced]   : trevee-supply-api-enhanced.js (cache, retry, fallback),
    - [Serverless] : api/_lib/blockchain.js with its api/*.js functions,
    - [Basic]      : trevee-supply-api.js (no cache, no retry).

    BigInt values are [Z]; JavaScript numbers that the code only uses as
    integers (milliseconds, retry counts, decimals) are [Z] as well.
    Asynchronous code is written in a state-and-exception monad over an
    abstract world [W] (the network, the chains and the clock); awaiting a
    promise is running the computation on the current world. *)

From Stdlib Require Import ZArith Lia Ascii String DecimalString.
From stdpp Require Import gmap strings list.

Open Scope string_scope.
Open Scope Z_scope.

(** ** JavaScript values shared by all variants *)

Module Js.

(** An [Error] object: the code only reads [error.message]; [err_name] is
    the constructor name. Every thrown value is such an object, hence
    truthy. *)
Record JsError : Type := mkError { err_name : string; err_message : string }.

(** [new Error(message)] *)
Definition new_Error (message : string) : JsError :=
  {| err_name := "Error"; err_message := message |}.

(** How an awaited call ends: it returns, or it throws (rejects). *)
Inductive Completion (A : Type) : Type :=
| Return (a : A)
| Throw (e : JsError).
Arguments Return {A} a.
Arguments Throw {A} e.

(** A function result that may be [undefined] because the body fell off
    its end without a [return]. *)
Inductive JsRet (A : Type) : Type :=
| Value (a : A)
| Undefined.
Arguments Value {A} a.
Arguments Undefined {A}.

Definition is_Return {A} (c : Completion A) : bool :=
  match c with Return _ => true | Throw _ => false end.

End Js.
Export Js.

(** ** Asynchronous computations *)

(** An async function body: it reads and changes the world and either
    returns or throws. *)
Definition Op (W A : Type) : Type := W -> Completion A * W.

Definition ret {W A} (a : A) : Op W A := fun w => (Return a, w).
Definition throw {W A} (e : JsError) : Op W A := fun w => (Throw e, w).
Definition bind {W A B} (c : Op W A) (k : A -> Op W B) : Op W B :=
  fun w => match c w with
           | (Return a, w1) => k a w1
           | (Throw e, w1) => (Throw e, w1)
           end.
(** [try { c } catch (error) { h error }] *)
Definition try_catch {W A} (c : Op W A) (h : JsError -> Op W A) : Op W A :=
  fun w => match c w with
           | (Return a, w1) => (Return a, w1)
           | (Throw e, w1) => h e w1
           end.

Notation "'let*' x ':=' c 'in' k" := (bind c (fun x => k))
  (at level 10, x name, c at level 100, k at level 200).

(** ** The world outside the process

    What the code reaches outside itself: the clock, timers and the three
    read calls of [ERC20_ABI] on the contract at a token address behind an
    RPC url ([new ethers.Contract(tokenAddress, ERC20_ABI,
    new ethers.JsonRpcProvider(rpcUrl))]). A call may fail (network error,
    malformed response, revert) and may change the world. The clock moves
    with the calls and the timers: between two awaits it stands still. *)
Class Chain (W : Type) : Type := {
  now : W -> Z;                                              (* Date.now() *)
  toISOString : W -> string;                 (* new Date().toISOString() *)
  sleep : Z -> W -> W;          (* await new Promise(r => setTimeout(r, ms)) *)
  contract_totalSupply : string -> string -> Op W Z;
  contract_balanceOf : string -> string -> string -> Op W Z;
  contract_decimals : string -> string -> Op W Z
}.

(** How the promises of an array have settled: all fulfilled, with their
    values in array order, or one at least rejected, with the rejection
    that came first and the time it took to come. *)
Inductive Joined (A : Type) : Type :=
| AllFulfilled (values : list A)
| FirstRejected (e : JsError) (after : Z).
Arguments AllFulfilled {A} values.
Arguments FirstRejected {A} e after.

(** The promises of an array handed to [Promise.all] have all been
    started, so each one acts on the world whatever the others do. The
    world is threaded through them in array order, and each one takes the
    time the clock moves while it runs. Of two rejections the one that
    took less time comes first; when they took the same time, the one
    earlier in the array. *)
Fixpoint join_all {W A} `{Chain W} (ps : list (Op W A)) (w : W) : Joined A * W :=
  match ps with
  | [] => (AllFulfilled [], w)
  | p :: rest =>
      let '(r, w1) := p w in
      let '(rs, w2) := join_all rest w1 in
      (match r, rs with
       | Return a, AllFulfilled l => AllFulfilled (a :: l)
       | Return _, FirstRejected e after => FirstRejected e after
       | Throw e, AllFulfilled _ => FirstRejected e (now w1 - now w)
       | Throw e, FirstRejected e' after =>
           if after <? now w1 - now w
           then FirstRejected e' after
           else FirstRejected e (now w1 - now w)
       end, w2)
  end.

(** [await Promise.all(ps)]: the array of the values when every promise
    fulfils, and otherwise the rejection that comes first in time. *)
Definition promise_all {W A} `{Chain W} (ps : list (Op W A)) : Op W (list A) :=
  fun w =>
    match join_all ps w with
    | (AllFulfilled l, w') => (Return l, w')
    | (FirstRejected e _, w') => (Throw e, w')
    end.

(** ** Retry and endpoint fallback

    [retryWithBackoff] and [tryRPCEndpoints] have the same body in
    trevee-supply-api-enhanced.js and api/_lib/blockchain.js (the former also
    logs); the variants differ in the constants [RETRY_DELAY] and
    [MAX_RETRIES] only. *)

(** What a run of [retryWithBackoff] did, in order. *)
Inductive RetryEvent (A : Type) : Type :=
| Attempted (i : Z) (r : Completion A)   (* [await fn()] in iteration [i] *)
| Slept (ms : Z).                        (* [await sleep(ms)] *)
Arguments Attempted {A} i r.
Arguments Slept {A} ms.

Definition is_attempt {A} (ev : RetryEvent A) : bool :=
  match ev with Attempted _ _ => true | Slept _ => false end.

(** Number of times [fn] was invoked in a run. *)
Definition invocations {A} (tr : list (RetryEvent A)) : nat :=
  length (filter (fun ev => is_attempt ev = true) tr).

(** Milliseconds a run spent in [sleep]. *)
Definition total_slept {A} (tr : list (RetryEvent A)) : Z :=
  fold_right (fun ev acc => match ev with Slept ms => ms + acc | Attempted _ _ => acc end)
    0 tr.

Section Utility.

Context {W : Type}.
(** [sleep(ms)]: the world after the timer of [ms] milliseconds fired. *)
Variable sleep : Z -> W -> W.
Variable RETRY_DELAY : Z.

(** The loop [for (let i = 0; i < retries; i++)] from index [i] on, with
    [n] iterations left ([n] is [retries - i] when that is positive). *)
Fixpoint retry_loop {A} (fn : Op W A) (retries : Z) (n : nat) (i : Z) (w : W)
  : Completion (JsRet A) * W * list (RetryEvent A) :=
  match n with
  | O => (Return Undefined, w, [])
  | S n' =>
      match fn w with
      | (Return a, w1) => (Return (Value a), w1, [Attempted i (Return a)])
      | (Throw error, w1) =>
          if i =? retries - 1 then (Throw error, w1, [Attempted i (Throw error)])
          else
            let delay := RETRY_DELAY * 2 ^ i in
            let '(r, w2, tr) := retry_loop fn retries n' (i + 1) (sleep delay w1) in
            (r, w2, Attempted i (Throw error) :: Slept delay :: tr)
      end
  end.

(** [retryWithBackoff(fn, retries)] with the events of the run. *)
Definition retryWithBackoff_trace {A} (fn : Op W A) (retries : Z) (w : W)
  : Completion (JsRet A) * W * list (RetryEvent A) :=
  retry_loop fn retries (Z.to_nat retries) 0 w.

Definition retryWithBackoff {A} (fn : Op W A) (retries : Z) : Op W (JsRet A) :=
  fun w => fst (retryWithBackoff_trace fn retries w).

(** The loop [for (const rpcUrl of rpcUrls)] with the variable
    [lastError] ([None] is [undefined]); the third component lists the
    endpoints that were called, in order, each with what it answered. *)
Fixpoint tryRPC_loop {A} (fn : string -> Op W A) (rpcUrls : list string)
    (lastError : option JsError) (w : W)
  : Completion A * W * list (string * Completion A) :=
  match rpcUrls with
  | [] =>
      (Throw (match lastError with
              | Some e => e
              | None => new_Error "All RPC endpoints failed"
              end), w, [])
  | rpcUrl :: rest =>
      match fn rpcUrl w with
      | (Return a, w1) => (Return a, w1, [(rpcUrl, Return a)])
      | (Throw error, w1) =>
          let '(r, w2, tr) := tryRPC_loop fn rest (Some error) w1 in
          (r, w2, (rpcUrl, Throw error) :: tr)
      end
  end.

Definition tryRPCEndpoints_trace {A} (rpcUrls : list string) (fn : string -> Op W A)
    (w : W) : Completion A * W * list (string * Completion A) :=
  tryRPC_loop fn rpcUrls None w.

Definition tryRPCEndpoints {A} (rpcUrls : list string) (fn : string -> Op W A)
  : Op W A :=
  fun w => fst (tryRPCEndpoints_trace rpcUrls fn w).

(** The run the retry contract describes: the attempts [0 .. length fails]
    with the wait [RETRY_DELAY * 2^i] after the failed attempt [i], ending
    with the attempt that answered [last]. *)
Fixpoint backoff_schedule {A} (i : Z) (fails : list JsError) (last : Completion A)
  : list (RetryEvent A) :=
  match fails with
  | [] => [Attempted i last]
  | e :: fs =>
      Attempted i (Throw e) :: Slept (RETRY_DELAY * 2 ^ i)
        :: backoff_schedule (i + 1) fs last
  end.

(** The world in which endpoint number [k] of the list is called when no
    earlier endpoint returned. *)
Fixpoint pass_world {A} (fn : string -> Op W A) (rpcUrls : list string) (k : nat)
    (w : W) : W :=
  match k, rpcUrls with
  | S k', rpcUrl :: rest => pass_world fn rest k' (snd (fn rpcUrl w))
  | _, _ => w
  end.

(** The world in which attempt number [k] of a run starts when the run
    began at index [i] in [w] and no earlier attempt returned: each earlier
    attempt acted on the world and was followed by its wait. *)
Fixpoint attempt_world {A} (fn : Op W A) (i : Z) (k : nat) (w : W) : W :=
  match k with
  | O => w
  | S k' => attempt_world fn (i + 1) k' (sleep (RETRY_DELAY * 2 ^ i) (snd (fn w)))
  end.

End Utility.

(** What the caller of [retryWithBackoff] gets when the last attempt of the
    run answered [last]. *)
Definition retry_result {A} (last : Completion A) : Completion (JsRet A) :=
  match last with
  | Return a => Return (Value a)
  | Throw e => Throw e
  end.

(** The calls of an endpoint pass that threw, as entries of its trace. *)
Definition failures {A} (failed : list (string * JsError))
  : list (string * Completion A) :=
  map (fun '(rpcUrl, e) => (rpcUrl, Throw e)) failed.

(** ** ethers v6: [formatUnits]

    The servers format amounts with [ethers.formatUnits(value, decimals)], a
    function of the ethers library (version 6: the code uses
    [ethers.JsonRpcProvider] and bigint results). It builds a FixedNumber
    of the given decimals and width 512 and returns its string. *)

Module Ethers.

(** [val.toString()] of a non-negative bigint. *)
Definition bigint_digits (val : Z) : list ascii :=
  list_ascii_of_string (NilZero.string_of_uint (N.to_uint (Z.to_N val))).

Definition Zeros : list ascii := list_ascii_of_string "0000".

(** [while (str.length <= decimals) { str = Zeros + str; }] *)
Fixpoint pad_whole (fuel : nat) (decimals : Z) (str : list ascii) : list ascii :=
  match fuel with
  | O => str
  | S fuel' =>
      if Z.of_nat (length str) <=? decimals
      then pad_whole fuel' decimals (Zeros ++ str)%list
      else str
  end.

Definition starts_with_dot (str : list ascii) : bool :=
  match str with
  | c :: _ => Ascii.eqb c "."
  | [] => false
  end.

(** [while (str[0] === "0" && str[1] !== ".") { str = str.substring(1); }] *)
Fixpoint trim_whole (str : list ascii) : list ascii :=
  match str with
  | c :: rest =>
      if Ascii.eqb c "0" && negb (starts_with_dot rest) then trim_whole rest else str
  | [] => []
  end.

(** The same loop from the other end: it drops a final ["0"] as long as
    the character before it is not the decimal point. *)
Definition trim_decimal (str : list ascii) : list ascii :=
  rev (trim_whole (rev str)).

(** The string of a fixed-point value: the digits of [val] with the point
    [decimals] places from the right. *)
Definition fixed_toString (val decimals : Z) : string :=
  let negative := if val <? 0 then "-" else "" in
  let str := bigint_digits (Z.abs val) in
  if decimals =? 0 then negative +:+ string_of_list_ascii str
  else
    let str := pad_whole (Z.to_nat (decimals + 1)) decimals str in
    let index := Z.to_nat (Z.of_nat (length str) - decimals) in
    let str := (take index str ++ "."%char :: drop index str)%list in
    negative +:+ string_of_list_ascii (trim_decimal (trim_whole str)).

(** The errors of ethers are made by [makeError(message, code, info)]: an
    INVALID_ARGUMENT is a [TypeError] and a NUMERIC_FAULT is a [RangeError].
    [err_message] is the message the library passes; the [message] of the
    object goes on with the details in parentheses (the argument or the
    operation, the value, the code and the version of the library), which
    are left out here. *)
Definition invalid_decimals : JsError :=
  {| err_name := "TypeError";
     err_message := "invalid FixedNumber decimals (too large)" |}.

Definition numeric_overflow : JsError :=
  {| err_name := "RangeError"; err_message := "overflow" |}.

(** [formatUnits(value, unit)] for a numeric [unit]: formats of more than
    80 decimals and values outside the signed 512-bit range are refused. *)
Definition formatUnits (value unit : Z) : Completion string :=
  if 80 <? unit
  then Throw invalid_decimals
  else if (value <? - 2 ^ 511) || (2 ^ 511 <=? value)
  then Throw numeric_overflow
  else Return (fixed_toString value unit).

End Ethers.

(** ** test-api.js: the plain-number check

    The test script accepts a response body when
    [/^\d+(\.\d+)?$/.test(body)] holds: digits, then optionally a point
    and digits. *)

Module TestApi.

(** [\d] *)
Definition is_digit (c : ascii) : bool :=
  (48 <=? nat_of_ascii c)%nat && (nat_of_ascii c <=? 57)%nat.

(** The longest run of digits at the start of a text, and what follows. *)
Fixpoint digits_prefix (s : list ascii) : list ascii * list ascii :=
  match s with
  | c :: rest =>
      if is_digit c
      then let '(ds, tl) := digits_prefix rest in (c :: ds, tl)
      else ([], s)
  | [] => ([], [])
  end.

Definition nonempty (l : list ascii) : bool :=
  match l with [] => false | _ :: _ => true end.

(** [const isNumber = /^\d+(\.\d+)?$/.test(body)] *)
Definition isNumber (body : string) : bool :=
  let '(whole, rest) := digits_prefix (list_ascii_of_string body) in
  nonempty whole
  && match rest with
     | [] => true
     | c :: frac => Ascii.eqb c "." && nonempty frac && forallb is_digit frac
     end.

End TestApi.

(** ** The token and the chains *)

Definition TOKEN_ADDRESS : string := "0xe90FE2DE4A415aD48B6DcEc08bA6ae98231948Ac".

(** [process.env]: the variables the servers read ([None] is unset). *)
Record ProcessEnv : Type := {
  ETHEREUM_RPC_URL : option string;
  ALCHEMY_API_KEY : option string;
  SONIC_RPC_URL : option string;
  PLASMA_RPC_URL : option string
}.

(** Truthiness of a string that may be [undefined] or [null]. *)
Definition truthy_str (o : option string) : bool :=
  match o with
  | Some s => negb (String.eqb s "")
  | None => false
  end.

(** [a || b] on such strings. *)
Definition or_str (a b : option string) : option string :=
  if truthy_str a then a else b.

(** [[...].filter(Boolean)] *)
Definition filter_Boolean (l : list (option string)) : list string :=
  omap (fun o => if truthy_str o then o else None) l.

Record ChainSupply : Type := {
  chain : string;
  totalSupply : Z;
  excludedBalance : Z;
  circulatingSupply : Z
}.

Record Totals : Type := {
  totals_circulatingSupply : Z;
  totals_totalSupply : Z;
  totals_excludedBalance : Z;
  totals_decimals : Z
}.

Record Metadata : Type := {
  metadata_fetchDuration : Z;
  metadata_timestamp : string
}.

Record Chains : Type := {
  ethereum : ChainSupply;
  sonic : ChainSupply;
  plasma : ChainSupply
}.

(** The object [getAllChainsCirculatingSupply] returns; the basic server
    builds it without [metadata]. *)
Record SupplyData : Type := {
  chains : Chains;
  totals : Totals;
  metadata : option Metadata
}.

(** Reading a property of the result of [retryWithBackoff]: on [undefined]
    JavaScript throws a TypeError. *)
Definition property_of {W A} (o : JsRet A) : Op W A :=
  match o with
  | Value a => ret a
  | Undefined =>
      throw {| err_name := "TypeError";
               err_message := "Cannot read properties of undefined" |}
  end.

(** [const [ethereum, sonic, plasma] = ...] on the array of [Promise.all]. *)
Definition destructure3 {A} (l : list (JsRet A)) : JsRet A * JsRet A * JsRet A :=
  (default Undefined (l !! 0%nat), default Undefined (l !! 1%nat),
   default Undefined (l !! 2%nat)).

(** [balances.reduce((sum, balance) => sum + balance, 0n)] *)
Definition sum_balances (balances : list Z) : Z :=
  fold_left (fun sum balance => sum + balance) balances 0.

(** A chain snapshot that is made of reads of one endpoint of the list: the
    total supply is a result of [totalSupply()], there is one [balanceOf]
    result per address of [excluded], in the order of the list, and the
    excluded balance is their sum; the circulating supply is the
    difference, an integer subtraction. *)
Definition snapshot_of_reads {W : Type} `{Chain W} (excluded rpcUrls : list string)
    (chainName : string) (snap : ChainSupply) : Prop :=
  chain snap = chainName
  /\ circulatingSupply snap = totalSupply snap - excludedBalance snap
  /\ exists (rpcUrl : string) (balances : list Z),
       rpcUrl ∈ rpcUrls
       /\ (exists w1 w2 : W,
             contract_totalSupply rpcUrl TOKEN_ADDRESS w1 = (Return (totalSupply snap), w2))
       /\ Forall2 (fun addr balance =>
                     exists w1 w2 : W,
                       contract_balanceOf rpcUrl TOKEN_ADDRESS addr w1
                       = (Return balance, w2))
            excluded balances
       /\ excludedBalance snap = fold_right Z.add 0 balances.

(** An endpoint that answers from a fixed chain state, total supply [total]
    and balances [balance], in every world of [healthy], and leaves the
    world in [healthy]. *)
Definition serves {W : Type} `{Chain W} (rpcUrl tokenAddress : string) (total : Z)
    (balance : string -> Z) (healthy : W -> Prop) : Prop :=
  (forall w : W, healthy w ->
     exists w' : W,
       contract_totalSupply rpcUrl tokenAddress w = (Return total, w') /\ healthy w')
  /\ (forall (addr : string) (w : W), healthy w ->
        exists w' : W,
          contract_balanceOf rpcUrl tokenAddress addr w = (Return (balance addr), w')
          /\ healthy w').

(** ** trevee-supply-api-enhanced.js *)

Module Enhanced.

Definition RPC_ENDPOINTS_ethereum (env : ProcessEnv) : list string :=
  filter_Boolean
    [ or_str (ETHEREUM_RPC_URL env)
        (match ALCHEMY_API_KEY env with
         | Some key =>
             if truthy_str (Some key)
             then Some ("https://eth-mainnet.g.alchemy.com/v2/" +:+ key)
             else None
         | None => None
         end);
      Some "https://eth.llamarpc.com";
      Some "https://rpc.ankr.com/eth";
      Some "https://ethereum.publicnode.com" ].

Definition RPC_ENDPOINTS_sonic (env : ProcessEnv) : list string :=
  filter_Boolean [ SONIC_RPC_URL env; Some "https://rpc.soniclabs.com" ].

Definition RPC_ENDPOINTS_plasma (env : ProcessEnv) : list string :=
  filter_Boolean
    [ PLASMA_RPC_URL env; Some "https://rpc.plasma.to"; Some "https://plasma.drpc.org" ].

Definition EXCLUDED_ADDRESSES : list string :=
  [ "0x0000000000000000000000000000000000000000";   (* Zero address *)
    "0x000000000000000000000000000000000000dEaD";   (* Dead address *)
    "0x1Ae6DCBc88d6f81A7BCFcCC7198397D776F3592E";   (* Ethereum DAO *)
    "0xE2a7De3C3190AFd79C49C8E8f2Fa30Ca78B97DFd";   (* Sonic DAO *)
    "0x7481b40c3453D0b5D9b8f82427c77C2eCAd397d1";   (* Plasma DAO *)
    "0x7481b40c3453D0b5D9b8f82427c77C2eCAd397d1" ]. (* Migration contract (Plasma) *)

Definition CACHE_TTL : Z := 60000.
Definition STALE_WHILE_REVALIDATE : Z := 300000.
Definition MAX_RETRIES : Z := 3.
Definition RETRY_DELAY : Z := 1000.

(** What a cache entry holds: [null], a formatted amount, or the data
    object of a fetch. *)
Inductive CacheValue : Type :=
| VNull
| VString (s : string)
| VData (d : SupplyData).

(** JavaScript truthiness, as in [!cached.value] and [if (cachedValue)]. *)
Definition truthy (v : CacheValue) : bool :=
  match v with
  | VNull => false
  | VString s => negb (String.eqb s "")
  | VData _ => true
  end.

Record CacheEntry : Type := {
  value : CacheValue;
  timestamp : Z;
  error : option JsError
}.

Inductive CacheStatus : Type := HIT | STALE | MISS.

Definition status_header (s : CacheStatus) : string :=
  match s with HIT => "HIT" | STALE => "STALE" | MISS => "MISS" end.

(** Freshness as a rank: a fresh entry is above a stale one, a stale one
    above a missing one. *)
Definition freshness (s : CacheStatus) : nat :=
  match s with HIT => 2 | STALE => 1 | MISS => 0 end.

(** A background refresh that was started and has not settled yet: the
    handler that started it, and the [startTime] its fetch read when the
    handler called it. *)
Record Refresh : Type := BackgroundRefresh {
  refresh_startedBy : string;
  refresh_startTime : Z
}.

(** The process: the module variable [cache] (an object used as a map
    from cache keys to entries), the outside world, and the background
    refreshes in flight, oldest first. *)
Record Server (W : Type) : Type := {
  cache : gmap string CacheEntry;
  world : W;
  inflight : list Refresh
}.
Arguments cache {W} _.
Arguments world {W} _.
Arguments inflight {W} _.

(** The entry [updateCache] writes for a value at a time. *)
Definition entry_at (v : CacheValue) (t : Z) : CacheEntry :=
  {| value := v; timestamp := t; error := None |}.

(** [let cache = { circulating: {...}, total: {...}, detailed: {...} }] *)
Definition empty_entry : CacheEntry :=
  {| value := VNull; timestamp := 0; error := None |}.
Definition initial_cache : gmap string CacheEntry :=
  <["circulating" := empty_entry]>
    (<["total" := empty_entry]> (<["detailed" := empty_entry]> ∅)).

Inductive FormattedChain : Type :=
  mkFormattedChain (totalSupply excludedBalance circulatingSupply : string).

Record DetailedResponse : Type := {
  dr_timestamp : string;
  dr_fetchDuration : option Z;
  dr_tokenAddress : string;
  dr_ethereum : FormattedChain;
  dr_sonic : FormattedChain;
  dr_plasma : FormattedChain;
  dr_totals : FormattedChain;
  dr_decimals : Z;
  dr_excludedAddresses : list string;
  (* seconds; [None] is the text 'none' *)
  dr_circulatingAge : option Z;
  dr_totalAge : option Z;
  dr_detailedAge : option Z
}.

Inductive Body : Type :=
| Send (v : CacheValue)                 (* res.send(...) *)
| JsonDetailed (r : DetailedResponse)   (* res.json(response) *)
| JsonError (message : string).         (* res.json({ error: error.message }) *)

Record Response : Type := {
  status : Z;
  content_type : string;
  x_cache : option string;
  x_cache_age : option Z;   (* the header is this number followed by "s" *)
  body : Body
}.

Section WithChain.

Context {W : Type} `{Chain W}.
Variable env : ProcessEnv.

(** *** Utility functions *)

Definition isCacheFresh (cacheKey : string) (st : Server W) : bool :=
  match cache st !! cacheKey with
  | None => false
  | Some cached =>
      if negb (truthy (value cached)) then false
      else
        let age := now (world st) - timestamp cached in
        age <? CACHE_TTL
  end.

Definition isCacheStale (cacheKey : string) (st : Server W) : bool :=
  match cache st !! cacheKey with
  | None => false
  | Some cached =>
      if negb (truthy (value cached)) then false
      else
        let age := now (world st) - timestamp cached in
        (CACHE_TTL <=? age) && (age <? STALE_WHILE_REVALIDATE)
  end.

Definition getCacheStatus (cacheKey : string) (st : Server W) : CacheStatus :=
  if isCacheFresh cacheKey st then HIT
  else if isCacheStale cacheKey st then STALE
  else MISS.

Definition updateCache (cacheKey : string) (v : CacheValue) : Op (Server W) unit :=
  fun st =>
    (Return tt,
     {| cache := <[cacheKey := {| value := v;
                                  timestamp := now (world st);
                                  error := None |}]> (cache st);
        world := world st;
        inflight := inflight st |}).

Definition getCachedValue (cacheKey : string) (st : Server W) : CacheValue :=
  match cache st !! cacheKey with
  | None => VNull
  | Some cached => if negb (truthy (value cached)) then VNull else value cached
  end.

(** *** Blockchain query functions *)

Definition getTotalSupply (rpcUrl tokenAddress : string) : Op W Z :=
  contract_totalSupply rpcUrl tokenAddress.

Definition getExcludedBalance (rpcUrl tokenAddress : string)
    (excludedAddresses : list string) : Op W Z :=
  let balancePromises :=
    map (fun addr => contract_balanceOf rpcUrl tokenAddress addr) excludedAddresses in
  let* balances := promise_all balancePromises in
  ret (sum_balances balances).

Definition getDecimals (rpcUrl tokenAddress : string) : Op W Z :=
  contract_decimals rpcUrl tokenAddress.

(** One endpoint attempt of [getCirculatingSupplyForChain]. *)
Definition chainAttempt (chainName rpcUrl : string) : Op W ChainSupply :=
  let* totalSupply := getTotalSupply rpcUrl TOKEN_ADDRESS in
  let* excludedBalance := getExcludedBalance rpcUrl TOKEN_ADDRESS EXCLUDED_ADDRESSES in
  let circulatingSupply := totalSupply - excludedBalance in
  ret {| chain := chainName;
         totalSupply := totalSupply;
         excludedBalance := excludedBalance;
         circulatingSupply := circulatingSupply |}.

Definition getCirculatingSupplyForChain (chainName : string) (rpcUrls : list string)
  : Op W (JsRet ChainSupply) :=
  retryWithBackoff sleep RETRY_DELAY
    (tryRPCEndpoints rpcUrls (chainAttempt chainName)) MAX_RETRIES.

(** The body of [getAllChainsCirculatingSupply] after its first statement,
    [const startTime = Date.now()]. The three chains are awaited with
    [Promise.all]. Were a result [undefined], the first property read
    would throw before [Number(decimals)] is reached, so the last
    [property_of] never sees [undefined]. *)
Definition getAllChainsCirculatingSupply_since (startTime : Z) : Op W SupplyData :=
  let* results :=
    promise_all
      [ getCirculatingSupplyForChain "Ethereum" (RPC_ENDPOINTS_ethereum env);
        getCirculatingSupplyForChain "Sonic" (RPC_ENDPOINTS_sonic env);
        getCirculatingSupplyForChain "Plasma" (RPC_ENDPOINTS_plasma env) ] in
  let '(ethereum, sonic, plasma) := destructure3 results in
  let* decimals :=
    retryWithBackoff sleep RETRY_DELAY
      (tryRPCEndpoints (RPC_ENDPOINTS_ethereum env)
         (fun rpcUrl => getDecimals rpcUrl TOKEN_ADDRESS)) MAX_RETRIES in
  let* ethereum := property_of ethereum in
  let* sonic := property_of sonic in
  let* plasma := property_of plasma in
  let* decimals := property_of decimals in
  let totalCirculating :=
    circulatingSupply ethereum + circulatingSupply sonic + circulatingSupply plasma in
  let totalSupply := totalSupply ethereum + totalSupply sonic + totalSupply plasma in
  let totalExcluded :=
    excludedBalance ethereum + excludedBalance sonic + excludedBalance plasma in
  fun w' =>
    let duration := now w' - startTime in
    (Return {| chains := {| ethereum := ethereum; sonic := sonic; plasma := plasma |};
               totals := {| totals_circulatingSupply := totalCirculating;
                            totals_totalSupply := totalSupply;
                            totals_excludedBalance := totalExcluded;
                            totals_decimals := decimals |};
               metadata := Some {| metadata_fetchDuration := duration;
                                   metadata_timestamp := toISOString w' |} |},
     w').

Definition getAllChainsCirculatingSupply : Op W SupplyData :=
  fun w =>
    let startTime := now w in
    getAllChainsCirculatingSupply_since startTime w.

Definition formatSupply {S} (supplyBigInt decimals : Z) : Op S string :=
  fun s => (Ethers.formatUnits supplyBigInt decimals, s).

(** *** API endpoints *)

(** Running an outside call from a request handler. *)
Definition in_world {A} (c : Op W A) : Op (Server W) A :=
  fun st =>
    let '(r, w') := c (world st) in
    (r, {| cache := cache st; world := w'; inflight := inflight st |}).

Definition timestamp_of (cacheKey : string) (st : Server W) : Z :=
  match cache st !! cacheKey with
  | Some cached => timestamp cached
  | None => 0
  end.

(** [Math.floor((Date.now() - cache[key].timestamp) / 1000)], in a handler
    that has awaited nothing since it read the status of the key: the clock
    of the world is the one of that reading. *)
Definition age_seconds (cacheKey : string) (st : Server W) : Z :=
  (now (world st) - timestamp_of cacheKey st) / 1000.

(** [cache[key].timestamp ? `${...}s` : 'none']; the three ages of a
    detailed answer are taken in one stretch without an await, on one
    clock. *)
Definition age_or_none (cacheKey : string) (st : Server W) : option Z :=
  if timestamp_of cacheKey st =? 0 then None else Some (age_seconds cacheKey st).

Definition text_response (code : Z) (xcache : option string) (age : option Z)
    (v : CacheValue) : Response :=
  {| status := code; content_type := "text/plain"; x_cache := xcache;
     x_cache_age := age; body := Send v |}.

(** The [.then] callback of a background refresh. Both handlers that
    start one run the same steps in the same order: format and store the
    circulating amount, format and store the total, store the data. *)
Definition refresh_then (data : SupplyData) : Op (Server W) unit :=
  let* circulatingSupply :=
    formatSupply (totals_circulatingSupply (totals data)) (totals_decimals (totals data)) in
  let* _ := updateCache "circulating" (VString circulatingSupply) in
  let* totalSupply :=
    formatSupply (totals_totalSupply (totals data)) (totals_decimals (totals data)) in
  let* _ := updateCache "total" (VString totalSupply) in
  updateCache "detailed" (VData data).

(** [getAllChainsCirculatingSupply().then(...).catch(...)] without
    [await]: the fetch is called in the handler, where it reads its
    [startTime], and the handler goes on at once with the refresh in
    flight. *)
Definition start_refresh (startedBy : string) (st : Server W) : Server W :=
  {| cache := cache st; world := world st;
     inflight := (inflight st ++ [BackgroundRefresh startedBy (now (world st))])%list |}.

(** The promise a handler leaves behind, from the world in which its
    calls are answered: the result of the fetch goes to the [.then]
    callback; a rejection of the fetch and an error thrown in the [.then]
    callback both go to the [.catch] callback, which only logs. *)
Definition refresh_promise (r : Refresh) : Op (Server W) unit :=
  try_catch
    (let* data :=
       in_world (getAllChainsCirculatingSupply_since (refresh_startTime r)) in
     refresh_then data)
    (fun error => ret tt).

(** The oldest refresh in flight settles. No response is involved. *)
Definition settle_refresh (st : Server W) : Server W :=
  match inflight st with
  | [] => st
  | r :: rest =>
      snd (refresh_promise r
             {| cache := cache st; world := world st; inflight := rest |})
  end.

(** The [try] block of the circulating-supply handler. *)
Definition circulating_try : Op (Server W) Response :=
  let* data := in_world getAllChainsCirculatingSupply in
  let* circulatingSupply :=
    formatSupply (totals_circulatingSupply (totals data))
      (totals_decimals (totals data)) in
  let* _ := updateCache "circulating" (VString circulatingSupply) in
  let* totalSupply :=
    formatSupply (totals_totalSupply (totals data))
      (totals_decimals (totals data)) in
  let* _ := updateCache "total" (VString totalSupply) in
  let* _ := updateCache "detailed" (VData data) in
  ret (text_response 200 (Some "MISS") None (VString circulatingSupply)).

(** The [catch] block of the two plain-text handlers, for the cache key of
    the handler. *)
Definition serve_fallback (cacheKey : string) (error : JsError)
  : Op (Server W) Response :=
  fun st =>
    let cachedValue := getCachedValue cacheKey st in
    if truthy cachedValue
    then (Return (text_response 200 (Some "ERROR-FALLBACK") None cachedValue), st)
    else (Return (text_response 500 None None (VString "0")), st).

(** [app.get('/api/circulating-supply', ...)] *)
Definition api_circulating_supply : Op (Server W) Response :=
  fun st =>
    match getCacheStatus "circulating" st with
    | HIT =>
        let cached := getCachedValue "circulating" st in
        (Return (text_response 200 (Some "HIT")
                   (Some (age_seconds "circulating" st)) cached), st)
    | STALE =>
        let cached := getCachedValue "circulating" st in
        (Return (text_response 200 (Some "STALE")
                   (Some (age_seconds "circulating" st)) cached),
         start_refresh "circulating" st)
    | MISS => try_catch circulating_try (serve_fallback "circulating") st
    end.

(** The [try] block of the total-supply handler. *)
Definition total_try : Op (Server W) Response :=
  let* data := in_world getAllChainsCirculatingSupply in
  let* totalSupply :=
    formatSupply (totals_totalSupply (totals data))
      (totals_decimals (totals data)) in
  let* circulatingSupply :=
    formatSupply (totals_circulatingSupply (totals data))
      (totals_decimals (totals data)) in
  let* _ := updateCache "circulating" (VString circulatingSupply) in
  let* _ := updateCache "total" (VString totalSupply) in
  let* _ := updateCache "detailed" (VData data) in
  ret (text_response 200 (Some "MISS") None (VString totalSupply)).

(** [app.get('/api/total-supply', ...)] *)
Definition api_total_supply : Op (Server W) Response :=
  fun st =>
    match getCacheStatus "total" st with
    | HIT =>
        let cached := getCachedValue "total" st in
        (Return (text_response 200 (Some "HIT") None cached), st)
    | STALE =>
        let cached := getCachedValue "total" st in
        (Return (text_response 200 (Some "STALE") None cached),
         start_refresh "total" st)
    | MISS => try_catch total_try (serve_fallback "total") st
    end.

Definition formatChain {S} (c : ChainSupply) (decimals : Z) : Op S FormattedChain :=
  let* t := formatSupply (totalSupply c) decimals in
  let* e := formatSupply (excludedBalance c) decimals in
  let* s := formatSupply (circulatingSupply c) decimals in
  ret (mkFormattedChain t e s).

Definition formatDetailedResponse (data : SupplyData) : Op (Server W) DetailedResponse :=
  fun st =>
    (let decimals := totals_decimals (totals data) in
     let* e := formatChain (ethereum (chains data)) decimals in
     let* s := formatChain (sonic (chains data)) decimals in
     let* p := formatChain (plasma (chains data)) decimals in
     let* tt_ := formatSupply (totals_totalSupply (totals data)) decimals in
     let* te := formatSupply (totals_excludedBalance (totals data)) decimals in
     let* tc := formatSupply (totals_circulatingSupply (totals data)) decimals in
     ret {| dr_timestamp :=
              default (toISOString (world st))
                (or_str (metadata_timestamp <$> metadata data) None);
            dr_fetchDuration := metadata_fetchDuration <$> metadata data;
            dr_tokenAddress := TOKEN_ADDRESS;
            dr_ethereum := e; dr_sonic := s; dr_plasma := p;
            dr_totals := mkFormattedChain tt_ te tc;
            dr_decimals := decimals;
            dr_excludedAddresses := EXCLUDED_ADDRESSES;
            dr_circulatingAge := age_or_none "circulating" st;
            dr_totalAge := age_or_none "total" st;
            dr_detailedAge := age_or_none "detailed" st |}) st.

Definition json_response (code : Z) (xcache : option string) (b : Body) : Response :=
  {| status := code; content_type := "application/json"; x_cache := xcache;
     x_cache_age := None; body := b |}.

(** The [try] block of the detailed handler. *)
Definition detailed_try : Op (Server W) Response :=
  let* data := in_world getAllChainsCirculatingSupply in
  let* _ := updateCache "detailed" (VData data) in
  let* response := formatDetailedResponse data in
  ret (json_response 200 (Some "MISS") (JsonDetailed response)).

(** The [try] block of the detailed handler with its [catch]. *)
Definition detailed_fetch : Op (Server W) Response :=
  try_catch detailed_try
    (fun error => ret (json_response 500 None (JsonError (err_message error)))).

(** [app.get('/api/circulating-supply/detailed', ...)]. A throw of
    [formatDetailedResponse(cached)] is outside the [try] block and
    leaves the handler. *)
Definition api_circulating_supply_detailed : Op (Server W) Response :=
  fun st =>
    let cacheStatus := getCacheStatus "detailed" st in
    match cacheStatus with
    | HIT | STALE =>
        match getCachedValue "detailed" st with
        | VData cached =>
            (let* response := formatDetailedResponse cached in
             ret (json_response 200 (Some (status_header cacheStatus))
                    (JsonDetailed response))) st
        | VString _ =>
            (* a string has no [chains] property to read *)
            (Throw {| err_name := "TypeError";
                      err_message := "Cannot read properties of undefined" |}, st)
        | VNull => detailed_fetch st
        end
    | MISS => detailed_fetch st
    end.

(** The same process observed when the world has moved on to [w]. *)
Definition at_time (w : W) (st : Server W) : Server W :=
  {| cache := cache st; world := w; inflight := inflight st |}.

(** [app.post('/api/cache/clear', ...)] *)
Definition api_cache_clear (st : Server W) : Server W :=
  {| cache := initial_cache; world := world st; inflight := inflight st |}.

End WithChain.

End Enhanced.

(** ** api/_lib/blockchain.js and api/circulating-supply.js *)

Module Serverless.

Definition RPC_ENDPOINTS_ethereum (env : ProcessEnv) : list string :=
  filter_Boolean
    [ or_str (ETHEREUM_RPC_URL env)
        (match ALCHEMY_API_KEY env with
         | Some key =>
             if truthy_str (Some key)
             then Some ("https://eth-mainnet.g.alchemy.com/v2/" +:+ key)
             else None
         | None => None
         end);
      Some "https://eth.llamarpc.com";
      Some "https://rpc.ankr.com/eth" ].

Definition RPC_ENDPOINTS_sonic (env : ProcessEnv) : list string :=
  filter_Boolean [ SONIC_RPC_URL env; Some "https://rpc.soniclabs.com" ].

Definition RPC_ENDPOINTS_plasma (env : ProcessEnv) : list string :=
  filter_Boolean
    [ PLASMA_RPC_URL env; Some "https://rpc.plasma.to"; Some "https://plasma.drpc.org" ].

Definition EXCLUDED_ADDRESSES : list string :=
  [ "0x0000000000000000000000000000000000000000";   (* Zero address *)
    "0x000000000000000000000000000000000000dEaD";   (* Dead address *)
    "0x1Ae6DCBc88d6f81A7BCFcCC7198397D776F3592E";   (* Ethereum DAO *)
    "0xE2a7De3C3190AFd79C49C8E8f2Fa30Ca78B97DFd";   (* Sonic DAO *)
    "0x7481b40c3453D0b5D9b8f82427c77C2eCAd397d1";   (* Plasma DAO *)
    "0x99fe40e501151e92f10ac13ea1c06083ee170363" ]. (* Migration contract (Sonic) *)

Definition MAX_RETRIES : Z := 2.
Definition RETRY_DELAY : Z := 500.

(** What a function of api/ sends: [res.status(code).send(text)]. *)
Record Response : Type := {
  status : Z;
  content_type : option string;
  body : string
}.

Section WithChain.

Context {W : Type} `{Chain W}.
Variable env : ProcessEnv.

(** One endpoint attempt of [getCirculatingSupplyForChain]. *)
Definition chainAttempt (chainName rpcUrl : string) : Op W ChainSupply :=
  let* totalSupply := contract_totalSupply rpcUrl TOKEN_ADDRESS in
  let balancePromises :=
    map (fun addr => contract_balanceOf rpcUrl TOKEN_ADDRESS addr) EXCLUDED_ADDRESSES in
  let* balances := promise_all balancePromises in
  let excludedBalance := sum_balances balances in
  let circulatingSupply := totalSupply - excludedBalance in
  ret {| chain := chainName;
         totalSupply := totalSupply;
         excludedBalance := excludedBalance;
         circulatingSupply := circulatingSupply |}.

Definition getCirculatingSupplyForChain (chainName : string) (rpcUrls : list string)
  : Op W (JsRet ChainSupply) :=
  retryWithBackoff sleep RETRY_DELAY
    (tryRPCEndpoints rpcUrls (chainAttempt chainName)) MAX_RETRIES.

(** As in the enhanced server, except that the total supply is the one
    of Sonic ("canonical source") and not a sum. *)
Definition getAllChainsCirculatingSupply : Op W SupplyData :=
  fun w =>
    let startTime := now w in
    (let* results :=
       promise_all
         [ getCirculatingSupplyForChain "Ethereum" (RPC_ENDPOINTS_ethereum env);
           getCirculatingSupplyForChain "Sonic" (RPC_ENDPOINTS_sonic env);
           getCirculatingSupplyForChain "Plasma" (RPC_ENDPOINTS_plasma env) ] in
     let '(ethereum, sonic, plasma) := destructure3 results in
     let* decimals :=
       retryWithBackoff sleep RETRY_DELAY
         (tryRPCEndpoints (RPC_ENDPOINTS_ethereum env)
            (fun rpcUrl => contract_decimals rpcUrl TOKEN_ADDRESS)) MAX_RETRIES in
     let* ethereum := property_of ethereum in
     let* sonic := property_of sonic in
     let* plasma := property_of plasma in
     let* decimals := property_of decimals in
     let totalCirculating :=
       circulatingSupply ethereum + circulatingSupply sonic + circulatingSupply plasma in
     let totalSupply := totalSupply sonic in
     let totalExcluded :=
       excludedBalance ethereum + excludedBalance sonic + excludedBalance plasma in
     fun w' =>
       (Return {| chains := {| ethereum := ethereum; sonic := sonic; plasma := plasma |};
                  totals := {| totals_circulatingSupply := totalCirculating;
                               totals_totalSupply := totalSupply;
                               totals_excludedBalance := totalExcluded;
                               totals_decimals := decimals |};
                  metadata := Some {| metadata_fetchDuration := now w' - startTime;
                                      metadata_timestamp := toISOString w' |} |},
        w')) w.

Definition formatSupply (supplyBigInt decimals : Z) : Op W string :=
  fun w => (Ethers.formatUnits supplyBigInt decimals, w).

(** The function exported by api/circulating-supply.js, on [req.method]. *)
Definition circulating_supply (method : string) : Op W Response :=
  if negb (String.eqb method "GET")
  then ret {| status := 405; content_type := None; body := "Method Not Allowed" |}
  else
    try_catch
      (let* data := getAllChainsCirculatingSupply in
       let* circulatingSupply :=
         formatSupply (totals_circulatingSupply (totals data))
           (totals_decimals (totals data)) in
       ret {| status := 200; content_type := Some "text/plain";
              body := circulatingSupply |})
      (fun error =>
         ret {| status := 500; content_type := Some "text/plain"; body := "0" |}).

(** The function exported by api/total-supply.js, on [req.method]. *)
Definition total_supply (method : string) : Op W Response :=
  if negb (String.eqb method "GET")
  then ret {| status := 405; content_type := None; body := "Method Not Allowed" |}
  else
    try_catch
      (let* data := getAllChainsCirculatingSupply in
       let* totalSupply :=
         formatSupply (totals_totalSupply (totals data))
           (totals_decimals (totals data)) in
       ret {| status := 200; content_type := Some "text/plain";
              body := totalSupply |})
      (fun error =>
         ret {| status := 500; content_type := Some "text/plain"; body := "0" |}).

End WithChain.

End Serverless.

(** ** trevee-supply-api.js *)

Module Basic.

Definition RPC_ENDPOINTS_ethereum (env : ProcessEnv) : string :=
  default "https://eth.llamarpc.com"
    (or_str (ETHEREUM_RPC_URL env)
       (match ALCHEMY_API_KEY env with
        | Some key =>
            if truthy_str (Some key)
            then Some ("https://eth-mainnet.g.alchemy.com/v2/" +:+ key)
            else None
        | None => None
        end)).

Definition RPC_ENDPOINTS_sonic (env : ProcessEnv) : string :=
  default "https://rpc.soniclabs.com" (or_str (SONIC_RPC_URL env) None).

Definition RPC_ENDPOINTS_plasma (env : ProcessEnv) : string :=
  default "https://rpc.plasma.to" (or_str (PLASMA_RPC_URL env) None).

Definition EXCLUDED_ADDRESSES : list string :=
  [ "0x0000000000000000000000000000000000000000";   (* Zero address *)
    "0x000000000000000000000000000000000000dEaD";   (* Dead address *)
    "0x1Ae6DCBc88d6f81A7BCFcCC7198397D776F3592E";   (* Ethereum DAO *)
    "0xE2a7De3C3190AFd79C49C8E8f2Fa30Ca78B97DFd";   (* Sonic DAO *)
    "0x7481b40c3453D0b5D9b8f82427c77C2eCAd397d1";   (* Plasma DAO *)
    "0x7481b40c3453D0b5D9b8f82427c77C2eCAd397d1" ]. (* Migration contract (Plasma) *)

Section WithChain.

Context {W : Type} `{Chain W}.
Variable env : ProcessEnv.

Definition getTotalSupply (rpcUrl tokenAddress : string) : Op W Z :=
  contract_totalSupply rpcUrl tokenAddress.

Definition getExcludedBalance (rpcUrl tokenAddress : string)
    (excludedAddresses : list string) : Op W Z :=
  let balancePromises :=
    map (fun addr => contract_balanceOf rpcUrl tokenAddress addr) excludedAddresses in
  let* balances := promise_all balancePromises in
  ret (sum_balances balances).

Definition getDecimals (rpcUrl tokenAddress : string) : Op W Z :=
  contract_decimals rpcUrl tokenAddress.

Definition getCirculatingSupplyForChain (chainName rpcUrl : string)
  : Op W ChainSupply :=
  let* totalSupply := getTotalSupply rpcUrl TOKEN_ADDRESS in
  let* excludedBalance := getExcludedBalance rpcUrl TOKEN_ADDRESS EXCLUDED_ADDRESSES in
  let circulatingSupply := totalSupply - excludedBalance in
  ret {| chain := chainName;
         totalSupply := totalSupply;
         excludedBalance := excludedBalance;
         circulatingSupply := circulatingSupply |}.

Definition getAllChainsCirculatingSupply : Op W SupplyData :=
  let* results :=
    promise_all
      [ getCirculatingSupplyForChain "Ethereum" (RPC_ENDPOINTS_ethereum env);
        getCirculatingSupplyForChain "Sonic" (RPC_ENDPOINTS_sonic env);
        getCirculatingSupplyForChain "Plasma" (RPC_ENDPOINTS_plasma env) ] in
  let '(ethereum, sonic, plasma) := destructure3 (Value <$> results) in
  let* decimals := getDecimals (RPC_ENDPOINTS_ethereum env) TOKEN_ADDRESS in
  let* ethereum := property_of ethereum in
  let* sonic := property_of sonic in
  let* plasma := property_of plasma in
  let totalCirculating :=
    circulatingSupply ethereum + circulatingSupply sonic + circulatingSupply plasma in
  let totalSupply := totalSupply ethereum + totalSupply sonic + totalSupply plasma in
  let totalExcluded :=
    excludedBalance ethereum + excludedBalance sonic + excludedBalance plasma in
  ret {| chains := {| ethereum := ethereum; sonic := sonic; plasma := plasma |};
         totals := {| totals_circulatingSupply := totalCirculating;
                      totals_totalSupply := totalSupply;
                      totals_excludedBalance := totalExcluded;
                      totals_decimals := decimals |};
         metadata := None |}.

Definition formatSupply (supplyBigInt decimals : Z) : Op W string :=
  fun w => (Ethers.formatUnits supplyBigInt decimals, w).

(** [app.get('/api/circulating-supply', ...)]: the status and the text sent. *)
Definition api_circulating_supply : Op W (Z * string) :=
  try_catch
    (let* data := getAllChainsCirculatingSupply in
     let* circulatingSupply :=
       formatSupply (totals_circulatingSupply (totals data))
         (totals_decimals (totals data)) in
     ret (200, circulatingSupply))
    (fun error => ret (500, "0")).

(** [app.get('/api/total-supply', ...)]: the status and the text sent. *)
Definition api_total_supply : Op W (Z * string) :=
  try_catch
    (let* data := getAllChainsCirculatingSupply in
     let* totalSupply :=
       formatSupply (totals_totalSupply (totals data))
         (totals_decimals (totals data)) in
     ret (200, totalSupply))
    (fun error => ret (500, "0")).

End WithChain.

End Basic.

(** ** A small simulated world, to run the servers on concrete inputs *)

Module Sim.

(** The token on one chain. *)
Record ChainState : Type := {
  chain_totalSupply : Z;
  chain_balanceOf : string -> Z;
  chain_decimals : Z
}.

(** The world: a clock in milliseconds, the chain each endpoint serves,
    the endpoints that are down, and a number of coming contract calls
    that fail whatever the endpoint (a passing outage). Every contract
    call takes [latency] milliseconds. *)
Record World : Type := {
  clock : Z;
  latency : Z;
  served_by : string -> ChainState;
  down : list string;
  outage : nat
}.

Definition tick (w : World) (n : nat) : World :=
  {| clock := clock w + latency w; latency := latency w;
     served_by := served_by w; down := down w; outage := n |}.

Definition call {A} (rpcUrl : string) (read : ChainState -> A) : Op World A :=
  fun w =>
    if bool_decide (rpcUrl ∈ down w)
    then (Throw (new_Error ("could not reach " +:+ rpcUrl)), tick w (outage w))
    else
      match outage w with
      | S n => (Throw (new_Error "request timed out"), tick w n)
      | O => (Return (read (served_by w rpcUrl)), tick w O)
      end.

#[global] Instance sim_chain : Chain World := {|
  now := clock;
  toISOString := fun w => "t=" +:+ string_of_list_ascii (Ethers.bigint_digits (clock w));
  sleep := fun ms w =>
    {| clock := clock w + ms; latency := latency w;
       served_by := served_by w; down := down w; outage := outage w |};
  contract_totalSupply := fun rpcUrl _ => call rpcUrl chain_totalSupply;
  contract_balanceOf := fun rpcUrl _ addr => call rpcUrl (fun c => chain_balanceOf c addr);
  contract_decimals := fun rpcUrl _ => call rpcUrl chain_decimals
|}.

(** No variable of [process.env] is set. *)
Definition no_env : ProcessEnv :=
  {| ETHEREUM_RPC_URL := None; ALCHEMY_API_KEY := None;
     SONIC_RPC_URL := None; PLASMA_RPC_URL := None |}.

(** A chain whose excluded balance sits in the Ethereum DAO treasury. *)
Definition chain_with (total excluded : Z) : ChainState :=
  {| chain_totalSupply := total;
     chain_balanceOf := fun addr =>
       if String.eqb addr "0x1Ae6DCBc88d6f81A7BCFcCC7198397D776F3592E"
       then excluded else 0;
     chain_decimals := 18 |}.

(** The end-to-end example: chain A (Ethereum) 500000000 / 50000000,
    chain B (Sonic) 300000000 / 30000000, chain C (Plasma) 200000000 /
    20000000, each amount taken [unit] times: [unit] is [10^18] when the
    figures are tokens of 18 decimals, and [1] when they are the raw
    integers the contracts return. *)
Definition example_chains (unit : Z) (rpcUrl : string) : ChainState :=
  if bool_decide (rpcUrl ∈ Enhanced.RPC_ENDPOINTS_ethereum no_env)
  then chain_with (500000000 * unit) (50000000 * unit)
  else if bool_decide (rpcUrl ∈ Enhanced.RPC_ENDPOINTS_sonic no_env)
  then chain_with (300000000 * unit) (30000000 * unit)
  else chain_with (200000000 * unit) (20000000 * unit).

Definition example_world (unit : Z) : World :=
  {| clock := 1700000000000; latency := 40;
     served_by := example_chains unit; down := []; outage := O |}.

(** The same world with every endpoint down. *)
Definition blackout (w : World) : World :=
  {| clock := clock w; latency := latency w; served_by := served_by w;
     down := (Enhanced.RPC_ENDPOINTS_ethereum no_env
                ++ Enhanced.RPC_ENDPOINTS_sonic no_env
                ++ Enhanced.RPC_ENDPOINTS_plasma no_env)%list;
     outage := outage w |}.

Definition later (ms : Z) (w : World) : World := sleep ms w.

(** The supplies of the example have doubled on every chain. *)
Definition supply_doubled (w : World) : World :=
  {| clock := clock w; latency := latency w;
     served_by := example_chains (2 * 10 ^ 18); down := down w; outage := outage w |}.

(** A process that has just started. *)
Definition fresh_server (w : World) : Enhanced.Server World :=
  {| Enhanced.cache := Enhanced.initial_cache; Enhanced.world := w;
     Enhanced.inflight := [] |}.

Definition at_world (f : World -> World) (st : Enhanced.Server World)
  : Enhanced.Server World :=
  {| Enhanced.cache := Enhanced.cache st; Enhanced.world := f (Enhanced.world st);
     Enhanced.inflight := Enhanced.inflight st |}.

(** The process after a first request on /api/circulating-supply in the
    example world (amounts of 18 decimals); the same one minute later. *)
Definition warm_server : Enhanced.Server World :=
  snd (Enhanced.api_circulating_supply no_env (fresh_server (example_world (10 ^ 18)))).

Definition stale_server : Enhanced.Server World := at_world (later 60000) warm_server.

(** The worlds in which every endpoint answers, from the chains [net]. *)
Definition healthy (net : string -> ChainState) (w : World) : Prop :=
  down w = [] /\ outage w = O /\ served_by w = net.

(** A chain of total supply 100 on which the Ethereum DAO treasury holds 5
    and the address listed twice holds 7, and a world that serves it. *)
Definition treasury_chain : ChainState :=
  {| chain_totalSupply := 100;
     chain_balanceOf := fun addr =>
       if String.eqb addr "0x1Ae6DCBc88d6f81A7BCFcCC7198397D776F3592E" then 5
       else if String.eqb addr "0x7481b40c3453D0b5D9b8f82427c77C2eCAd397d1" then 7
       else 0;
     chain_decimals := 18 |}.

Definition treasury_world : World :=
  {| clock := 1700000000000; latency := 40;
     served_by := fun _ => treasury_chain; down := []; outage := O |}.

(** The response of a handler, if it answered. *)
Definition answer {A} (r : Completion A) : option A :=
  match r with
  | Return a => Some a
  | Throw _ => None
  end.

(** The text a plain-text handler sent, if it sent one. *)
Definition sent_text (r : Completion Enhanced.Response) : option string :=
  match r with
  | Return resp =>
      match Enhanced.body resp with
      | Enhanced.Send (Enhanced.VString s) => Some s
      | _ => None
      end
  | Throw _ => None
  end.

(** A token that reports 81 decimals, more than [formatUnits] accepts, and
    a world that serves it. *)
Definition wide_chain : ChainState :=
  {| chain_totalSupply := 1000; chain_balanceOf := fun _ => 0; chain_decimals := 81 |}.

Definition wide_world : World :=
  {| clock := 1700000000000; latency := 40;
     served_by := fun _ => wide_chain; down := []; outage := O |}.

(** A chain on which the excluded addresses hold more than the supply. *)
Definition overdrawn_chain : ChainState :=
  {| chain_totalSupply := 10; chain_balanceOf := fun _ => 5; chain_decimals := 18 |}.

(** An operation that fails [outage] times and then answers [42]. *)
Definition flaky : Op World Z := call "https://rpc.soniclabs.com" (fun _ => 42).

End Sim.

(** * Properties *)

(** ** Retry wrapper *)

Section UtilityFacts.

Context {W A : Type}.
Variable sleep : Z -> W -> W.
Variable RETRY_DELAY : Z.

Lemma invocations_schedule (i : Z) (fails : list JsError) (last : Completion A) :
  invocations (backoff_schedule RETRY_DELAY i fails last) = S (length fails).
Proof.
  revert i. induction fails as [|e fs IH]; intros i; [reflexivity|].
  cbn [backoff_schedule]. unfold invocations in *.
  rewrite filter_cons_True by reflexivity.
  rewrite filter_cons_False by (cbn; discriminate).
  cbn [length]. now rewrite IH.
Qed.

Lemma retry_loop_zero (fn : Op W A) (retries i : Z) (w : W) :
  retry_loop sleep RETRY_DELAY fn retries 0 i w = (Return Undefined, w, []).
Proof. reflexivity. Qed.

Lemma retry_loop_step (fn : Op W A) (retries : Z) (n : nat) (i : Z) (w : W) :
  retry_loop sleep RETRY_DELAY fn retries (S n) i w
  = match fn w with
    | (Return a, w1) => (Return (Value a), w1, [Attempted i (Return a)])
    | (Throw error, w1) =>
        if i =? retries - 1 then (Throw error, w1, [Attempted i (Throw error)])
        else
          let '(r, w2, tr) :=
            retry_loop sleep RETRY_DELAY fn retries n (i + 1)
              (sleep (RETRY_DELAY * 2 ^ i) w1) in
          (r, w2, Attempted i (Throw error) :: Slept (RETRY_DELAY * 2 ^ i) :: tr)
    end.
Proof. reflexivity. Qed.

Lemma retry_loop_schedule (fn : Op W A) (retries : Z) (n : nat) :
  forall (i : Z) (w : W),
    Z.of_nat (S n) = retries - i ->
    exists (fails : list JsError) (last : Completion A) (w' : W),
      retry_loop sleep RETRY_DELAY fn retries (S n) i w
      = (retry_result last, w', backoff_schedule RETRY_DELAY i fails last)
      /\ (length fails <= n)%nat
      /\ (is_Return last = false -> length fails = n)
      /\ (forall (k : nat) (e : JsError),
            fails !! k = Some e ->
            fst (fn (attempt_world sleep RETRY_DELAY fn i k w)) = Throw e)
      /\ fn (attempt_world sleep RETRY_DELAY fn i (length fails) w) = (last, w').
Proof.
  induction n as [|n IH]; intros i w Hn; rewrite retry_loop_step.
  - destruct (fn w) as [[a|e] w1] eqn:Hfn.
    + exists nil, (Return a), w1. cbn.
      split; [reflexivity|]. split; [lia|]. split; [discriminate|].
      split; [intros k e Hk; now rewrite lookup_nil in Hk | exact Hfn].
    + assert ((i =? retries - 1) = true) as -> by (apply Z.eqb_eq; lia).
      exists nil, (Throw e), w1. cbn.
      split; [reflexivity|]. split; [lia|]. split; [reflexivity|].
      split; [intros k e0 Hk; now rewrite lookup_nil in Hk | exact Hfn].
  - destruct (fn w) as [[a|e] w1] eqn:Hfn.
    + exists nil, (Return a), w1. cbn.
      split; [reflexivity|]. split; [lia|]. split; [discriminate|].
      split; [intros k e Hk; now rewrite lookup_nil in Hk | exact Hfn].
    + assert ((i =? retries - 1) = false) as -> by (apply Z.eqb_neq; lia).
      destruct (IH (i + 1) (sleep (RETRY_DELAY * 2 ^ i) w1)) as
        (fails & last & w' & Hrun & Hlen & Hlast & Hfails & Hend); [lia|].
      rewrite Hrun.
      exists (e :: fails), last, w'. cbn [backoff_schedule length].
      split; [reflexivity|].
      split; [lia|]. split; [intros Hf; now rewrite (Hlast Hf)|].
      split.
      * intros [|k] e0 Hk; cbn [attempt_world].
        -- cbn in Hk. injection Hk as <-. now rewrite Hfn.
        -- rewrite Hfn. cbn [snd]. now apply Hfails.
      * cbn [attempt_world]. now rewrite Hfn.
Qed.

(** A value returned by the loop was returned by [fn] itself, and the
    world is the one [fn] left. *)
Lemma retry_loop_value (fn : Op W A) (retries : Z) (n : nat) :
  forall (i : Z) (w w' : W) (a : A) (tr : list (RetryEvent A)),
    retry_loop sleep RETRY_DELAY fn retries n i w = (Return (Value a), w', tr) ->
    exists w0 : W, fn w0 = (Return a, w').
Proof.
  induction n as [|n IH]; intros i w w' a tr Hrun; [discriminate|].
  rewrite retry_loop_step in Hrun.
  destruct (fn w) as [[a0|e] w1] eqn:Hfn.
  - inversion Hrun; subst. now exists w.
  - destruct (i =? retries - 1); [discriminate|].
    destruct (retry_loop sleep RETRY_DELAY fn retries n (i + 1)
                (sleep (RETRY_DELAY * 2 ^ i) w1)) as [[r w2] tr2] eqn:Hrest.
    inversion Hrun; subst. eapply IH. exact Hrest.
Qed.

Lemma schedule_length (i : Z) (fails : list JsError) (last : Completion A) :
  length (backoff_schedule RETRY_DELAY i fails last) = S (2 * length fails).
Proof.
  revert i. induction fails as [|e fs IH]; intros i; [reflexivity|].
  cbn [backoff_schedule length]. rewrite IH. lia.
Qed.

(** Position [2k] of a schedule is the attempt [k]; position [2k+1] is
    the wait after it. *)
Lemma schedule_lookup (fails : list JsError) (last : Completion A) :
  forall (i : Z) (k : nat),
    (forall e, fails !! k = Some e ->
       backoff_schedule RETRY_DELAY i fails last !! (2 * k)%nat
       = Some (Attempted (i + Z.of_nat k) (Throw e))
       /\ backoff_schedule RETRY_DELAY i fails last !! (2 * k + 1)%nat
          = Some (Slept (RETRY_DELAY * 2 ^ (i + Z.of_nat k))))
    /\ (k = length fails ->
        backoff_schedule RETRY_DELAY i fails last !! (2 * k)%nat
        = Some (Attempted (i + Z.of_nat k) last)).
Proof.
  induction fails as [|e0 fs IH]; intros i k.
  - split; [intros e He; discriminate|].
    intros ->. cbn. now rewrite Z.add_0_r.
  - destruct k as [|k].
    + split; [|discriminate].
      intros e He. cbn in He. inversion He; subst. cbn. now rewrite Z.add_0_r.
    + destruct (IH (i + 1) k) as [Hfail Hlast].
      replace (2 * S k)%nat with (S (S (2 * k))) by lia.
      replace (S (S (2 * k)) + 1)%nat with (S (S (2 * k + 1))) by lia.
      replace (i + Z.of_nat (S k)) with (i + 1 + Z.of_nat k) by lia.
      split.
      * intros e He. cbn in He. cbn [backoff_schedule lookup list_lookup].
        exact (Hfail e He).
      * intros Hk. cbn [backoff_schedule lookup list_lookup].
        apply Hlast. cbn in Hk. lia.
Qed.

Lemma tryRPC_loop_cases (fn : string -> Op W A) (rpcUrls : list string) :
  forall (lastError : option JsError) (w : W),
  exists (failed : list (string * JsError)) (w' : W),
    (forall (k : nat) (rpcUrl : string) (e : JsError),
        failed !! k = Some (rpcUrl, e) ->
        fst (fn rpcUrl (pass_world fn rpcUrls k w)) = Throw e)
    /\ ((exists (rpcUrl : string) (a : A) (rest : list string),
           tryRPC_loop fn rpcUrls lastError w
           = (Return a, w', (failures failed ++ [(rpcUrl, Return a)])%list)
           /\ rpcUrls = (map fst failed ++ rpcUrl :: rest)%list
           /\ fn rpcUrl (pass_world fn rpcUrls (length failed) w) = (Return a, w'))
        \/ (tryRPC_loop fn rpcUrls lastError w
            = (Throw (default (default (new_Error "All RPC endpoints failed") lastError)
                        (last (map snd failed))), w', failures failed)
            /\ rpcUrls = map fst failed
            /\ w' = pass_world fn rpcUrls (length rpcUrls) w)).
Proof.
  induction rpcUrls as [|rpcUrl rest IH]; intros lastError w.
  - exists nil, w. split; [intros k u e Hk; now rewrite lookup_nil in Hk|].
    right. now destruct lastError.
  - cbn [tryRPC_loop]. destruct (fn rpcUrl w) as [[a|e] w1] eqn:Hfn.
    + exists nil, w1. split; [intros k u e Hk; now rewrite lookup_nil in Hk|].
      left. now exists rpcUrl, a, rest.
    + destruct (IH (Some e) w1) as (failed & w' & Hcalls & [Hok | (Hrun & Hall & Hw')]).
      * destruct Hok as (u & a & rest' & Hrun & Hurls & Hlast).
        exists ((rpcUrl, e) :: failed), w'. split.
        -- intros [|k] u0 e0 Hk; cbn [pass_world].
           ++ cbn in Hk. injection Hk as <- <-. now rewrite Hfn.
           ++ rewrite Hfn. cbn [snd]. now apply Hcalls.
        -- left. exists u, a, rest'.
           rewrite Hrun. cbn [length pass_world]. rewrite Hfn. cbn [snd].
           split; [reflexivity|]. split; [|exact Hlast].
           rewrite Hurls at 1. reflexivity.
      * exists ((rpcUrl, e) :: failed), w'. split.
        -- intros [|k] u0 e0 Hk; cbn [pass_world].
           ++ cbn in Hk. injection Hk as <- <-. now rewrite Hfn.
           ++ rewrite Hfn. cbn [snd]. now apply Hcalls.
        -- right. rewrite Hrun. cbn [map fst snd failures length pass_world].
           rewrite Hfn. cbn [snd]. rewrite <- Hall, <- Hw'.
           split; [|split; reflexivity].
           rewrite last_cons. now destruct (last (map snd failed)).
Qed.

(** With at least one retry the wrapper does not return [undefined]. *)
Lemma retry_never_undefined (fn : Op W A) (retries : Z) (w : W) :
  (retries <= 0 ->
   retryWithBackoff sleep RETRY_DELAY fn retries w = (Return Undefined, w))
  /\ (1 <= retries ->
      fst (retryWithBackoff sleep RETRY_DELAY fn retries w) <> Return Undefined).
Proof.
  unfold retryWithBackoff, retryWithBackoff_trace. split; intros Hretries.
  - now replace (Z.to_nat retries) with O by lia.
  - destruct (Z.to_nat retries) as [|n] eqn:Hn; [lia|].
    destruct (retry_loop_schedule fn retries n 0 w) as (fails & last & w' & -> & _);
      [lia|].
    destruct last; cbn; discriminate.
Qed.

(** A value returned by the endpoint pass was returned by [fn] on one of
    the endpoints of the list. *)
Lemma tryRPC_loop_value (fn : string -> Op W A) (rpcUrls : list string) :
  forall (lastError : option JsError) (w w' : W) (a : A)
         (tr : list (string * Completion A)),
    tryRPC_loop fn rpcUrls lastError w = (Return a, w', tr) ->
    exists (rpcUrl : string) (w0 : W),
      rpcUrl ∈ rpcUrls /\ fn rpcUrl w0 = (Return a, w').
Proof.
  induction rpcUrls as [|rpcUrl rest IH]; intros lastError w w' a tr Hrun;
    [discriminate|].
  cbn [tryRPC_loop] in Hrun. destruct (fn rpcUrl w) as [[a0|e] w1] eqn:Hfn.
  - inversion Hrun; subst. exists rpcUrl, w. split; [left | exact Hfn].
  - destruct (tryRPC_loop fn rest (Some e) w1) as [[r w2] tr2] eqn:Hrest.
    inversion Hrun; subst.
    destruct (IH _ _ _ _ _ Hrest) as (u & w0 & Hin & Hcall).
    exists u, w0. split; [now right | exact Hcall].
Qed.

End UtilityFacts.

(** C5. For every operation [fn], every [maxAttempts >= 1] and every base
    delay, a run of the retry wrapper is a schedule of at most [maxAttempts]
    invocations of [fn]: the failed attempt [k] (counted from 0) is followed
    by a wait of exactly [RETRY_DELAY * 2^k] and then by attempt [k+1]; the
    run stops at the first attempt that returns and gives its value to the
    caller; an attempt that throws ends the run only when it is attempt
    [maxAttempts - 1], and then its error is thrown to the caller as it is.
    The attempts of the schedule are the invocations of [fn] on the world
    as the earlier attempts and waits left it. *)
Theorem retryWithBackoff_backoff_schedule {W A : Type} (sleep : Z -> W -> W)
    (RETRY_DELAY : Z) (fn : Op W A) (maxAttempts : Z) (w : W) :
  1 <= maxAttempts ->
  exists (fails : list JsError) (last : Completion A) (w' : W)
         (tr : list (RetryEvent A)),
    retryWithBackoff_trace sleep RETRY_DELAY fn maxAttempts w
    = (retry_result last, w', tr)
    /\ retryWithBackoff sleep RETRY_DELAY fn maxAttempts w = (retry_result last, w')
    /\ tr = backoff_schedule RETRY_DELAY 0 fails last
    /\ invocations tr = S (length fails)
    /\ Z.of_nat (invocations tr) <= maxAttempts
    /\ (forall (k : nat) (e : JsError),
          fails !! k = Some e ->
          tr !! (2 * k)%nat = Some (Attempted (Z.of_nat k) (Throw e))
          /\ tr !! (2 * k + 1)%nat = Some (Slept (RETRY_DELAY * 2 ^ Z.of_nat k)))
    /\ tr !! (2 * length fails)%nat = Some (Attempted (Z.of_nat (length fails)) last)
    /\ length tr = S (2 * length fails)
    /\ (forall a : A, last = Return a ->
          retryWithBackoff sleep RETRY_DELAY fn maxAttempts w = (Return (Value a), w'))
    /\ (forall e : JsError, last = Throw e ->
          Z.of_nat (invocations tr) = maxAttempts
          /\ retryWithBackoff sleep RETRY_DELAY fn maxAttempts w = (Throw e, w'))
    /\ (forall (k : nat) (e : JsError),
          fails !! k = Some e ->
          fst (fn (attempt_world sleep RETRY_DELAY fn 0 k w)) = Throw e)
    /\ fn (attempt_world sleep RETRY_DELAY fn 0 (length fails) w) = (last, w').
Proof.
  intros Hmax. unfold retryWithBackoff, retryWithBackoff_trace.
  destruct (Z.to_nat maxAttempts) as [|n] eqn:Hn; [lia|].
  destruct (retry_loop_schedule sleep RETRY_DELAY fn maxAttempts n 0 w)
    as (fails & last & w' & Hrun & Hlen & Hlast & Hfails & Hend); [lia|].
  exists fails, last, w', (backoff_schedule RETRY_DELAY 0 fails last).
  rewrite Hrun, invocations_schedule, schedule_length. cbn [fst].
  do 3 (split; [reflexivity|]).
  split; [reflexivity|]. split; [lia|].
  split.
  { intros k e Hk.
    pose proof (proj1 (schedule_lookup RETRY_DELAY fails last 0 k) e Hk) as H0.
    now rewrite Z.add_0_l in H0. }
  split.
  { pose proof (proj2 (schedule_lookup RETRY_DELAY fails last 0 (length fails)) eq_refl)
      as H0.
    now rewrite Z.add_0_l in H0. }
  split; [reflexivity|].
  split; [intros a ->; reflexivity|].
  split; [intros e ->; rewrite (Hlast eq_refl); split; [lia | reflexivity]|].
  split; [exact Hfails | exact Hend].
Qed.

(** The schedule of C5 on a run: an operation that fails twice and then
    answers is tried three times, with waits of 1000 and 2000 ms. *)
Lemma retryWithBackoff_backoff_schedule_witness :
  exists (fails : list JsError) (last : Completion Z) (w' : Sim.World)
         (tr : list (RetryEvent Z)),
    retryWithBackoff_trace sleep Enhanced.RETRY_DELAY Sim.flaky Enhanced.MAX_RETRIES
      (Sim.tick (Sim.example_world 1) 2)
    = (retry_result last, w', tr)
    /\ retryWithBackoff sleep Enhanced.RETRY_DELAY Sim.flaky Enhanced.MAX_RETRIES
         (Sim.tick (Sim.example_world 1) 2) = (retry_result last, w')
    /\ tr = backoff_schedule Enhanced.RETRY_DELAY 0 fails last
    /\ invocations tr = S (length fails)
    /\ Z.of_nat (invocations tr) <= Enhanced.MAX_RETRIES
    /\ (forall (k : nat) (e : JsError),
          fails !! k = Some e ->
          tr !! (2 * k)%nat = Some (Attempted (Z.of_nat k) (Throw e))
          /\ tr !! (2 * k + 1)%nat
             = Some (Slept (Enhanced.RETRY_DELAY * 2 ^ Z.of_nat k)))
    /\ tr !! (2 * length fails)%nat = Some (Attempted (Z.of_nat (length fails)) last)
    /\ length tr = S (2 * length fails)
    /\ (forall a : Z, last = Return a ->
          retryWithBackoff sleep Enhanced.RETRY_DELAY Sim.flaky Enhanced.MAX_RETRIES
            (Sim.tick (Sim.example_world 1) 2) = (Return (Value a), w'))
    /\ (forall e : JsError, last = Throw e ->
          Z.of_nat (invocations tr) = Enhanced.MAX_RETRIES
          /\ retryWithBackoff sleep Enhanced.RETRY_DELAY Sim.flaky Enhanced.MAX_RETRIES
               (Sim.tick (Sim.example_world 1) 2) = (Throw e, w'))
    /\ (forall (k : nat) (e : JsError),
          fails !! k = Some e ->
          fst (Sim.flaky (attempt_world sleep Enhanced.RETRY_DELAY Sim.flaky 0 k
                            (Sim.tick (Sim.example_world 1) 2))) = Throw e)
    /\ Sim.flaky (attempt_world sleep Enhanced.RETRY_DELAY Sim.flaky 0 (length fails)
                    (Sim.tick (Sim.example_world 1) 2)) = (last, w').
Proof.
  apply (retryWithBackoff_backoff_schedule sleep Enhanced.RETRY_DELAY Sim.flaky
           Enhanced.MAX_RETRIES (Sim.tick (Sim.example_world 1) 2)).
  unfold Enhanced.MAX_RETRIES. lia.
Defined.

Example retryWithBackoff_run_flaky :
  snd (retryWithBackoff_trace sleep Enhanced.RETRY_DELAY Sim.flaky Enhanced.MAX_RETRIES
         (Sim.tick (Sim.example_world 1) 2))
  = [ Attempted 0 (Throw (new_Error "request timed out")); Slept 1000;
      Attempted 1 (Throw (new_Error "request timed out")); Slept 2000;
      Attempted 2 (Return 42) ].
Proof. reflexivity. Qed.

(** C10. With a retry count of 0 or less the wrapper returns [undefined]:
    [fn] is never invoked, nothing is awaited, the world is untouched and
    nothing is thrown. With a count of at least 1 it never returns
    [undefined]: what it returns is a value that [fn] returned. *)
Theorem retryWithBackoff_nonpositive_undefined {W A : Type} (sleep : Z -> W -> W)
    (RETRY_DELAY : Z) (fn : Op W A) (retries : Z) (w : W) :
  (retries <= 0 ->
     retryWithBackoff_trace sleep RETRY_DELAY fn retries w = (Return Undefined, w, [])
     /\ retryWithBackoff sleep RETRY_DELAY fn retries w = (Return Undefined, w))
  /\ (1 <= retries ->
      fst (retryWithBackoff sleep RETRY_DELAY fn retries w) <> Return Undefined
      /\ forall (r : JsRet A) (w' : W),
           retryWithBackoff sleep RETRY_DELAY fn retries w = (Return r, w') ->
           exists (a : A) (w0 : W), r = Value a /\ fn w0 = (Return a, w')).
Proof.
  split; intros Hretries.
  - unfold retryWithBackoff, retryWithBackoff_trace.
    replace (Z.to_nat retries) with O by lia. now rewrite retry_loop_zero.
  - pose proof (proj2 (retry_never_undefined sleep RETRY_DELAY fn retries w) Hretries)
      as Hdefined.
    split; [exact Hdefined|].
    intros r w' Hrun. rewrite Hrun in Hdefined. cbn [fst] in Hdefined.
    destruct r as [a|]; [|congruence].
    exists a. unfold retryWithBackoff, retryWithBackoff_trace in Hrun.
    destruct (retry_loop sleep RETRY_DELAY fn retries (Z.to_nat retries) 0 w)
      as [[r1 w1] tr] eqn:Hloop.
    cbn [fst] in Hrun. injection Hrun as -> ->.
    destruct (retry_loop_value sleep RETRY_DELAY fn retries _ _ _ _ _ _ Hloop)
      as [w0 Hcall].
    now exists w0.
Qed.

(** C10 on runs: with 0 retries a healthy operation is not called and the
    caller gets [undefined]; with 1 retry it is called. *)
Lemma retryWithBackoff_nonpositive_undefined_witness :
  retryWithBackoff sleep Enhanced.RETRY_DELAY Sim.flaky 0 (Sim.example_world 1)
  = (Return Undefined, Sim.example_world 1)
  /\ fst (retryWithBackoff sleep Enhanced.RETRY_DELAY Sim.flaky 1 (Sim.example_world 1))
     <> Return Undefined.
Proof.
  split.
  - apply (proj1 (retryWithBackoff_nonpositive_undefined sleep Enhanced.RETRY_DELAY
                    Sim.flaky 0 (Sim.example_world 1))). lia.
  - apply (proj2 (retryWithBackoff_nonpositive_undefined sleep Enhanced.RETRY_DELAY
                    Sim.flaky 1 (Sim.example_world 1))). lia.
Defined.

(** ** Endpoint fallback *)

(** C4, as the code has it. On a non-empty list the endpoint pass calls the
    endpoints in list order. Either some endpoint returns: every endpoint
    before it was called and threw, its value is the result, and no later
    endpoint is called. Or every endpoint of the list was called and
    threw: then the pass fails, and what it throws is the very error the
    last endpoint threw, not an error of its own that would carry it. *)
Theorem tryRPCEndpoints_first_success_or_last_error {W A : Type}
    (rpcUrls : list string) (fn : string -> Op W A) (w : W) :
  rpcUrls <> [] ->
  exists (failed : list (string * JsError)) (w' : W),
    (forall (k : nat) (rpcUrl : string) (e : JsError),
        failed !! k = Some (rpcUrl, e) ->
        fst (fn rpcUrl (pass_world fn rpcUrls k w)) = Throw e)
    /\ ((exists (rpcUrl : string) (a : A) (rest : list string),
           tryRPCEndpoints_trace rpcUrls fn w
           = (Return a, w', (failures failed ++ [(rpcUrl, Return a)])%list)
           /\ tryRPCEndpoints rpcUrls fn w = (Return a, w')
           /\ rpcUrls = (map fst failed ++ rpcUrl :: rest)%list
           /\ fn rpcUrl (pass_world fn rpcUrls (length failed) w) = (Return a, w'))
        \/ (exists (lastUrl : string) (lastError : JsError),
              tryRPCEndpoints_trace rpcUrls fn w = (Throw lastError, w', failures failed)
              /\ tryRPCEndpoints rpcUrls fn w = (Throw lastError, w')
              /\ rpcUrls = map fst failed
              /\ last failed = Some (lastUrl, lastError)
              /\ last rpcUrls = Some lastUrl)).
Proof.
  intros Hne. unfold tryRPCEndpoints, tryRPCEndpoints_trace.
  destruct (tryRPC_loop_cases fn rpcUrls None w)
    as (failed & w' & Hcalls & [Hok | (Hrun & Hall & _)]).
  - destruct Hok as (u & a & rest & Hrun & Hurls & Hlast).
    exists failed, w'. split; [exact Hcalls|].
    left. exists u, a, rest. now rewrite Hrun.
  - exists failed, w'. split; [exact Hcalls|]. right.
    destruct (last failed) as [[lastUrl lastError]|] eqn:Hlast.
    + exists lastUrl, lastError. rewrite Hrun, Hall.
      rewrite !fmap_last, Hlast. cbn. auto.
    + apply last_None in Hlast. subst failed. now subst rpcUrls.
Qed.

(** C4 as stated fails on the error of an exhausted pass. With the three
    Ethereum endpoints down, the pass throws the [Error] that the last
    endpoint threw: there is no AllEndpointsFailedError, and nothing is
    wrapped. *)
Lemma tryRPCEndpoints_wrapper_error_counterexample :
  let rpcUrls := Enhanced.RPC_ENDPOINTS_ethereum Sim.no_env in
  let fn := fun rpcUrl : string => @contract_decimals Sim.World _ rpcUrl TOKEN_ADDRESS in
  let w := Sim.blackout (Sim.example_world 1) in
  forallb (fun rpcUrl => negb (is_Return (fst (fn rpcUrl w)))) rpcUrls = true
  /\ fst (tryRPCEndpoints rpcUrls fn w)
     = Throw (new_Error "could not reach https://ethereum.publicnode.com")
  /\ fst (fn "https://ethereum.publicnode.com" w)
     = Throw (new_Error "could not reach https://ethereum.publicnode.com")
  /\ ~ (exists (e : JsError) (w' : Sim.World),
          tryRPCEndpoints rpcUrls fn w = (Throw e, w')
          /\ err_name e = "AllEndpointsFailedError").
Proof.
  intros rpcUrls fn w.
  assert (Hpass : fst (tryRPCEndpoints rpcUrls fn w)
                  = Throw (new_Error "could not reach https://ethereum.publicnode.com"))
    by (vm_compute; reflexivity).
  split; [vm_compute; reflexivity|]. split; [exact Hpass|].
  split; [vm_compute; reflexivity|].
  intros (e & w' & Hrun & Hname). rewrite Hrun in Hpass. cbn [fst] in Hpass.
  injection Hpass as ->. discriminate Hname.
Qed.

(** The amended C4 on two runs. With the first Ethereum endpoint down, the
    pass returns what a later endpoint returned and its trace ends there.
    With every endpoint down, the pass throws the error that the last
    endpoint of the list threw. *)
Lemma tryRPCEndpoints_first_success_or_last_error_witness :
  let rpcUrls := Enhanced.RPC_ENDPOINTS_ethereum Sim.no_env in
  let fn := fun rpcUrl : string => @contract_decimals Sim.World _ rpcUrl TOKEN_ADDRESS in
  let first_down :=
    {| Sim.clock := 1700000000000; Sim.latency := 40;
       Sim.served_by := Sim.example_chains 1;
       Sim.down := ["https://eth.llamarpc.com"]; Sim.outage := O |} in
  (exists (failed : list (string * JsError)) (rpcUrl : string) (a : Z)
          (rest : list string) (w' : Sim.World),
      tryRPCEndpoints_trace rpcUrls fn first_down
      = (Return a, w', (failures failed ++ [(rpcUrl, Return a)])%list)
      /\ rpcUrls = (map fst failed ++ rpcUrl :: rest)%list
      /\ failed <> [])
  /\ (exists (lastError : JsError) (w' w0 : Sim.World),
        tryRPCEndpoints rpcUrls fn (Sim.blackout (Sim.example_world 1))
        = (Throw lastError, w')
        /\ fst (fn "https://ethereum.publicnode.com" w0) = Throw lastError).
Proof.
  intros rpcUrls fn first_down.
  assert (Hne : rpcUrls <> []) by (vm_compute; discriminate).
  split.
  - destruct (tryRPCEndpoints_first_success_or_last_error rpcUrls fn first_down Hne)
      as (failed & w' & Hcalls & [Hok | Hfail]).
    + destruct Hok as (rpcUrl & a & rest & Htrace & _ & Hurls & _).
      exists failed, rpcUrl, a, rest, w'. split; [exact Htrace|]. split; [exact Hurls|].
      intros ->.
      assert (Hlen : length (snd (tryRPCEndpoints_trace rpcUrls fn first_down)) = 2%nat)
        by (vm_compute; reflexivity).
      rewrite Htrace in Hlen. discriminate Hlen.
    + destruct Hfail as (lastUrl & lastError & _ & Hrun & _).
      assert (Hret : is_Return (fst (tryRPCEndpoints rpcUrls fn first_down)) = true)
        by (vm_compute; reflexivity).
      rewrite Hrun in Hret. discriminate Hret.
  - set (w := Sim.blackout (Sim.example_world 1)).
    destruct (tryRPCEndpoints_first_success_or_last_error rpcUrls fn w Hne)
      as (failed & w' & Hcalls & [Hok | Hfail]).
    + destruct Hok as (rpcUrl & a & rest & _ & Hrun & _).
      assert (Hret : is_Return (fst (tryRPCEndpoints rpcUrls fn w)) = false)
        by (vm_compute; reflexivity).
      rewrite Hrun in Hret. discriminate Hret.
    + destruct Hfail as (lastUrl & lastError & _ & Hrun & _ & Hlast & Hurl).
      assert (Hpublic : last rpcUrls = Some "https://ethereum.publicnode.com")
        by (vm_compute; reflexivity).
      rewrite Hpublic in Hurl. injection Hurl as <-.
      exists lastError, w', (pass_world fn rpcUrls (pred (length failed)) w).
      split; [exact Hrun|].
      apply (Hcalls (pred (length failed))). now rewrite <- last_lookup.
Defined.

(** ** Chain snapshots *)

Section ChainFacts.

Context {W : Type} `{Chain W}.

(** How [join_all] goes through an array, one promise at a time. *)
Lemma join_all_cons {A} (p : Op W A) (rest : list (Op W A)) (w : W) :
  join_all (p :: rest) w
  = (match fst (p w), fst (join_all rest (snd (p w))) with
     | Return a, AllFulfilled l => AllFulfilled (a :: l)
     | Return _, FirstRejected e after => FirstRejected e after
     | Throw e, AllFulfilled _ => FirstRejected e (now (snd (p w)) - now w)
     | Throw e, FirstRejected e' after =>
         if after <? now (snd (p w)) - now w
         then FirstRejected e' after
         else FirstRejected e (now (snd (p w)) - now w)
     end, snd (join_all rest (snd (p w)))).
Proof.
  cbn [join_all]. destruct (p w) as [r w1]. cbn [fst snd].
  now destruct (join_all rest w1) as [rs w2].
Qed.

Lemma promise_all_nil {A} (w : W) : promise_all (@nil (Op W A)) w = (Return [], w).
Proof. reflexivity. Qed.

(** [Promise.all] fulfils exactly when every promise of the array does, and
    then with their values in array order. *)
Lemma promise_all_cons_inv {A} (p : Op W A) (rest : list (Op W A)) (w w' : W)
    (l : list A) :
  promise_all (p :: rest) w = (Return l, w') ->
  exists (a : A) (l0 : list A) (w1 : W),
    p w = (Return a, w1) /\ promise_all rest w1 = (Return l0, w') /\ l = a :: l0.
Proof.
  intros Hall. unfold promise_all in Hall. rewrite join_all_cons in Hall.
  destruct (p w) as [[a|e] w1]; cbn [fst snd] in Hall;
    destruct (join_all rest w1) as [[l0|e0 after] w2] eqn:Hrest; cbn [fst snd] in Hall;
    try discriminate.
  - injection Hall as <- <-. exists a, l0, w1.
    unfold promise_all. now rewrite Hrest.
  - destruct (after <? now w1 - now w); discriminate.
Qed.

Lemma promise_all_cons_return {A} (p : Op W A) (rest : list (Op W A)) (w w1 w2 : W)
    (a : A) (l : list A) :
  p w = (Return a, w1) ->
  promise_all rest w1 = (Return l, w2) ->
  promise_all (p :: rest) w = (Return (a :: l), w2).
Proof.
  intros Hp Hrest. unfold promise_all in *. rewrite join_all_cons, Hp. cbn [fst snd].
  destruct (join_all rest w1) as [[l0|e0 after] w']; [|discriminate].
  now injection Hrest as <- <-.
Qed.

Lemma promise_all_results {A} (ps : list (Op W A)) :
  forall (w w' : W) (l : list A),
    promise_all ps w = (Return l, w') ->
    Forall2 (fun p a => exists w1 w2 : W, p w1 = (Return a, w2)) ps l.
Proof.
  induction ps as [|p rest IH]; intros w w' l Hall.
  - rewrite promise_all_nil in Hall. injection Hall as <- _. constructor.
  - apply promise_all_cons_inv in Hall as (a & l0 & w1 & Hp & Hrest & ->).
    constructor; [now exists w, w1 | eapply IH; eauto].
Qed.

Lemma promise_all_three {A} (p1 p2 p3 : Op W A) (w w' : W) (l : list A) :
  promise_all [p1; p2; p3] w = (Return l, w') ->
  exists (a1 a2 a3 : A) (w1 w2 : W),
    p1 w = (Return a1, w1) /\ p2 w1 = (Return a2, w2) /\ p3 w2 = (Return a3, w')
    /\ l = [a1; a2; a3].
Proof.
  intros Hall.
  apply promise_all_cons_inv in Hall as (a1 & l1 & w1 & H1 & Hall & ->).
  apply promise_all_cons_inv in Hall as (a2 & l2 & w2 & H2 & Hall & ->).
  apply promise_all_cons_inv in Hall as (a3 & l3 & w3 & H3 & Hall & ->).
  rewrite promise_all_nil in Hall. injection Hall as <- <-.
  now exists a1, a2, a3, w1, w2.
Qed.

(** A rejection of [Promise.all] is the rejection of a promise of the
    array. *)
Lemma promise_all_rejection {A} (ps : list (Op W A)) :
  forall (w w' : W) (e : JsError),
    promise_all ps w = (Throw e, w') ->
    Exists (fun p => exists w1 w2 : W, p w1 = (Throw e, w2)) ps.
Proof.
  induction ps as [|p rest IH]; intros w w' e Hall.
  - discriminate.
  - unfold promise_all in Hall. rewrite join_all_cons in Hall.
    destruct (p w) as [[a|e0] w1] eqn:Hp; cbn [fst snd] in Hall;
      destruct (join_all rest w1) as [[l0|e1 after] w2] eqn:Hrest;
      cbn [fst snd] in Hall; try discriminate.
    + injection Hall as <- <-. right. apply (IH w1 w2).
      unfold promise_all. now rewrite Hrest.
    + injection Hall as <- <-. left. now exists w, w1.
    + destruct (after <? now w1 - now w); injection Hall as <- <-.
      * right. apply (IH w1 w2). unfold promise_all. now rewrite Hrest.
      * left. now exists w, w1.
Qed.

Lemma Forall2_map_l {A B C} (P : B -> C -> Prop) (f : A -> B) (l : list A) (k : list C) :
  Forall2 P (map f l) k -> Forall2 (fun a c => P (f a) c) l k.
Proof.
  revert k. induction l as [|a l IH]; intros k Hall; inversion Hall; subst;
    constructor; auto.
Qed.

Lemma sum_balances_sum (balances : list Z) :
  sum_balances balances = fold_right Z.add 0 balances.
Proof.
  unfold sum_balances.
  enough (Hacc : forall acc, fold_left (fun sum balance => sum + balance) balances acc
                             = acc + fold_right Z.add 0 balances) by apply Hacc.
  induction balances as [|b l IH]; intros acc; cbn; [lia|]. rewrite IH. lia.
Qed.

(** What a value returned by retry-over-fallback is: a value the wrapped
    endpoint function returned on an endpoint of the list. *)
Lemma retry_fallback_value {A} (RETRY_DELAY MAX_RETRIES : Z) (rpcUrls : list string)
    (fn : string -> Op W A) (w w' : W) (a : A) :
  retryWithBackoff sleep RETRY_DELAY (tryRPCEndpoints rpcUrls fn) MAX_RETRIES w
  = (Return (Value a), w') ->
  exists (rpcUrl : string) (w0 : W), rpcUrl ∈ rpcUrls /\ fn rpcUrl w0 = (Return a, w').
Proof.
  unfold retryWithBackoff, retryWithBackoff_trace. intros Hrun.
  destruct (retry_loop sleep RETRY_DELAY (tryRPCEndpoints rpcUrls fn) MAX_RETRIES
              (Z.to_nat MAX_RETRIES) 0 w) as [[r w1] tr] eqn:Hloop.
  cbn [fst] in Hrun. injection Hrun as -> ->.
  destruct (retry_loop_value _ _ _ _ _ _ _ _ _ _ Hloop) as [w0 Hpass].
  unfold tryRPCEndpoints, tryRPCEndpoints_trace in Hpass.
  destruct (tryRPC_loop fn rpcUrls None w0) as [[r w1] tr1] eqn:Hfall.
  cbn [fst] in Hpass. injection Hpass as -> ->.
  exact (tryRPC_loop_value _ _ _ _ _ _ _ Hfall).
Qed.

Lemma enhanced_chainAttempt_reads (chainName rpcUrl : string) (w w' : W)
    (snap : ChainSupply) :
  Enhanced.chainAttempt chainName rpcUrl w = (Return snap, w') ->
  snapshot_of_reads Enhanced.EXCLUDED_ADDRESSES [rpcUrl] chainName snap.
Proof.
  unfold Enhanced.chainAttempt, Enhanced.getTotalSupply, Enhanced.getExcludedBalance,
    bind, ret.
  destruct (contract_totalSupply rpcUrl TOKEN_ADDRESS w) as [[total|e] w1] eqn:Htotal;
    [|discriminate].
  destruct (promise_all _ w1) as [[balances|e] w2] eqn:Hall; [|discriminate].
  intros [= <- <-]. repeat split; cbn.
  exists rpcUrl, balances. split; [set_solver|].
  split; [now exists w, w1|].
  split; [|apply sum_balances_sum].
  apply promise_all_results in Hall. now apply Forall2_map_l in Hall.
Qed.

Lemma serverless_chainAttempt_reads (chainName rpcUrl : string) (w w' : W)
    (snap : ChainSupply) :
  Serverless.chainAttempt chainName rpcUrl w = (Return snap, w') ->
  snapshot_of_reads Serverless.EXCLUDED_ADDRESSES [rpcUrl] chainName snap.
Proof.
  unfold Serverless.chainAttempt, bind, ret.
  destruct (contract_totalSupply rpcUrl TOKEN_ADDRESS w) as [[total|e] w1] eqn:Htotal;
    [|discriminate].
  destruct (promise_all _ w1) as [[balances|e] w2] eqn:Hall; [|discriminate].
  intros [= <- <-]. repeat split; cbn.
  exists rpcUrl, balances. split; [set_solver|].
  split; [now exists w, w1|].
  split; [|apply sum_balances_sum].
  apply promise_all_results in Hall. now apply Forall2_map_l in Hall.
Qed.

Lemma snapshot_of_reads_in (excluded rpcUrls : list string) (rpcUrl chainName : string)
    (snap : ChainSupply) :
  rpcUrl ∈ rpcUrls ->
  snapshot_of_reads excluded [rpcUrl] chainName snap ->
  snapshot_of_reads excluded rpcUrls chainName snap.
Proof.
  intros Hin (Hname & Hcirc & u & balances & Hu & Hrest).
  repeat split; auto. exists u, balances. split; [|exact Hrest].
  apply list_elem_of_singleton in Hu. now subst.
Qed.

(** C6. A chain fetch that succeeds returns a snapshot, never
    [undefined], in which [circulatingSupply] is exactly
    [totalSupply - excludedBalance] over the integers, and
    [excludedBalance] is the sum of the [balanceOf] results, one per entry
    of the excluded-address list, that one endpoint of the chain returned.
    This holds in the enhanced server, in the serverless library and in
    the basic server. *)
Theorem chain_snapshot_exact (chainName : string) (rpcUrls : list string) (w w' : W) :
  (forall r : JsRet ChainSupply,
      Enhanced.getCirculatingSupplyForChain chainName rpcUrls w = (Return r, w') ->
      exists snap : ChainSupply,
        r = Value snap
        /\ snapshot_of_reads Enhanced.EXCLUDED_ADDRESSES rpcUrls chainName snap)
  /\ (forall r : JsRet ChainSupply,
        Serverless.getCirculatingSupplyForChain chainName rpcUrls w = (Return r, w') ->
        exists snap : ChainSupply,
          r = Value snap
          /\ snapshot_of_reads Serverless.EXCLUDED_ADDRESSES rpcUrls chainName snap)
  /\ (forall (rpcUrl : string) (snap : ChainSupply),
        Basic.getCirculatingSupplyForChain chainName rpcUrl w = (Return snap, w') ->
        snapshot_of_reads Basic.EXCLUDED_ADDRESSES [rpcUrl] chainName snap).
Proof.
  split; [|split].
  - intros r Hrun. unfold Enhanced.getCirculatingSupplyForChain in Hrun.
    destruct r as [snap|].
    + exists snap. split; [reflexivity|].
      destruct (retry_fallback_value _ _ _ _ _ _ _ Hrun) as (u & w0 & Hin & Hcall).
      eapply snapshot_of_reads_in; [exact Hin|].
      eapply enhanced_chainAttempt_reads; exact Hcall.
    + exfalso.
      pose proof (proj2 (retry_never_undefined sleep
                           Enhanced.RETRY_DELAY
                           (tryRPCEndpoints rpcUrls (Enhanced.chainAttempt chainName))
                           Enhanced.MAX_RETRIES w)) as Hdef.
      rewrite Hrun in Hdef. apply Hdef; [unfold Enhanced.MAX_RETRIES; lia | reflexivity].
  - intros r Hrun. unfold Serverless.getCirculatingSupplyForChain in Hrun.
    destruct r as [snap|].
    + exists snap. split; [reflexivity|].
      destruct (retry_fallback_value _ _ _ _ _ _ _ Hrun) as (u & w0 & Hin & Hcall).
      eapply snapshot_of_reads_in; [exact Hin|].
      eapply serverless_chainAttempt_reads; exact Hcall.
    + exfalso.
      pose proof (proj2 (retry_never_undefined sleep
                           Serverless.RETRY_DELAY
                           (tryRPCEndpoints rpcUrls (Serverless.chainAttempt chainName))
                           Serverless.MAX_RETRIES w)) as Hdef.
      rewrite Hrun in Hdef. apply Hdef; [unfold Serverless.MAX_RETRIES; lia | reflexivity].
  - intros rpcUrl snap Hrun.
    unfold Basic.getCirculatingSupplyForChain, Basic.getTotalSupply,
      Basic.getExcludedBalance, bind, ret in Hrun.
    destruct (contract_totalSupply rpcUrl TOKEN_ADDRESS w) as [[total|e] w1] eqn:Htotal;
      [|discriminate].
    destruct (promise_all _ w1) as [[balances|e] w2] eqn:Hall; [|discriminate].
    injection Hrun as <- <-. repeat split; cbn.
    exists rpcUrl, balances. split; [set_solver|].
    split; [now exists w, w1|].
    split; [|apply sum_balances_sum].
    apply promise_all_results in Hall. now apply Forall2_map_l in Hall.
Qed.

End ChainFacts.

(** C6 on a run: the Ethereum snapshot of the example. *)
Lemma chain_snapshot_exact_witness :
  snapshot_of_reads Enhanced.EXCLUDED_ADDRESSES
    (Enhanced.RPC_ENDPOINTS_ethereum Sim.no_env) "Ethereum"
    {| chain := "Ethereum";
       totalSupply := 500000000000000000000000000;
       excludedBalance := 50000000000000000000000000;
       circulatingSupply := 450000000000000000000000000 |}.
Proof.
  set (snap0 := {| chain := "Ethereum";
                   totalSupply := 500000000000000000000000000;
                   excludedBalance := 50000000000000000000000000;
                   circulatingSupply := 450000000000000000000000000 |}).
  set (run := Enhanced.getCirculatingSupplyForChain "Ethereum"
                (Enhanced.RPC_ENDPOINTS_ethereum Sim.no_env)
                (Sim.example_world (10 ^ 18))).
  assert (Hfst : fst run = Return (Value snap0)) by (vm_compute; reflexivity).
  assert (Hrun : run = (Return (Value snap0), snd run))
    by (rewrite <- Hfst; now destruct run).
  destruct (proj1 (chain_snapshot_exact "Ethereum"
                     (Enhanced.RPC_ENDPOINTS_ethereum Sim.no_env)
                     (Sim.example_world (10 ^ 18)) (snd run))
              (Value snap0) Hrun) as (snap & Heq & Hsnap).
  injection Heq as <-. exact Hsnap.
Defined.

(** ** Excluded addresses *)

Section ExcludedFacts.

Context {W : Type} `{Chain W}.

Lemma promise_all_serves (rpcUrl tokenAddress : string) (total : Z)
    (balance : string -> Z) (healthy : W -> Prop) (excludedAddresses : list string) :
  serves rpcUrl tokenAddress total balance healthy ->
  forall w : W, healthy w ->
    exists w' : W,
      promise_all (map (fun addr => contract_balanceOf rpcUrl tokenAddress addr)
                     excludedAddresses) w
      = (Return (map balance excludedAddresses), w')
      /\ healthy w'.
Proof.
  intros [_ Hbal]. induction excludedAddresses as [|addr rest IH]; intros w Hw.
  - exists w. now cbn.
  - destruct (Hbal addr w Hw) as (w1 & Hcall & Hw1).
    destruct (IH w1 Hw1) as (w2 & Hrest & Hw2).
    exists w2. cbn [map]. split; [|exact Hw2].
    exact (promise_all_cons_return _ _ _ _ _ _ _ Hcall Hrest).
Qed.

(** C9. The excluded-address list of the basic and of the enhanced server
    holds 0x7481b40c3453D0b5D9b8f82427c77C2eCAd397d1 twice. The excluded
    balance is the sum of [balanceOf] over the list as it is given, entry by
    entry: no entry is dropped and no address is rewritten. So on an
    endpoint that serves a chain state, the balance of that address counts
    twice in the excluded balance and is subtracted twice from the total
    supply in the circulating supply. *)
Theorem duplicate_excluded_address_counted_twice (rpcUrl chainName : string) (total : Z)
    (balance : string -> Z) (healthy : W -> Prop) (w : W) :
  serves rpcUrl TOKEN_ADDRESS total balance healthy ->
  healthy w ->
  let dup := "0x7481b40c3453D0b5D9b8f82427c77C2eCAd397d1" in
  let excluded :=
    balance "0x0000000000000000000000000000000000000000"
    + balance "0x000000000000000000000000000000000000dEaD"
    + balance "0x1Ae6DCBc88d6f81A7BCFcCC7198397D776F3592E"
    + balance "0xE2a7De3C3190AFd79C49C8E8f2Fa30Ca78B97DFd"
    + 2 * balance dup in
  count_occ string_dec Enhanced.EXCLUDED_ADDRESSES dup = 2%nat
  /\ count_occ string_dec Basic.EXCLUDED_ADDRESSES dup = 2%nat
  /\ (forall excludedAddresses : list string,
        fst (Enhanced.getExcludedBalance rpcUrl TOKEN_ADDRESS excludedAddresses w)
        = Return (fold_right Z.add 0 (map balance excludedAddresses))
        /\ fst (Basic.getExcludedBalance rpcUrl TOKEN_ADDRESS excludedAddresses w)
           = Return (fold_right Z.add 0 (map balance excludedAddresses)))
  /\ fst (Enhanced.getExcludedBalance rpcUrl TOKEN_ADDRESS Enhanced.EXCLUDED_ADDRESSES w)
     = Return excluded
  /\ fst (Basic.getExcludedBalance rpcUrl TOKEN_ADDRESS Basic.EXCLUDED_ADDRESSES w)
     = Return excluded
  /\ fst (Enhanced.chainAttempt chainName rpcUrl w)
     = Return {| chain := chainName; totalSupply := total;
                 excludedBalance := excluded;
                 circulatingSupply := total - excluded |}
  /\ fst (Basic.getCirculatingSupplyForChain chainName rpcUrl w)
     = Return {| chain := chainName; totalSupply := total;
                 excludedBalance := excluded;
                 circulatingSupply := total - excluded |}.
Proof.
  intros Hserves Hw dup excluded.
  assert (Hsum : forall (l : list string) (w0 : W), healthy w0 ->
             fst (Enhanced.getExcludedBalance rpcUrl TOKEN_ADDRESS l w0)
             = Return (fold_right Z.add 0 (map balance l))
             /\ fst (Basic.getExcludedBalance rpcUrl TOKEN_ADDRESS l w0)
                = Return (fold_right Z.add 0 (map balance l))).
  { intros l w0 Hw0.
    destruct (promise_all_serves _ _ _ _ _ l Hserves w0 Hw0) as (w' & Hall & _).
    unfold Enhanced.getExcludedBalance, Basic.getExcludedBalance, bind, ret.
    rewrite Hall. cbn [fst]. now rewrite sum_balances_sum. }
  assert (Hlist : fold_right Z.add 0 (map balance Enhanced.EXCLUDED_ADDRESSES) = excluded)
    by (cbn; subst excluded dup; lia).
  split; [reflexivity|]. split; [reflexivity|].
  split; [intros l; now apply Hsum|].
  split; [rewrite <- Hlist; now apply Hsum|].
  split; [rewrite <- Hlist; now apply (Hsum Basic.EXCLUDED_ADDRESSES)|].
  destruct Hserves as [Htotal Hbal].
  destruct (Htotal w Hw) as (w1 & Hcall & Hw1).
  destruct (promise_all_serves rpcUrl TOKEN_ADDRESS total balance healthy
              Enhanced.EXCLUDED_ADDRESSES (conj Htotal Hbal) w1 Hw1)
    as (w2 & Hall & _).
  split.
  - unfold Enhanced.chainAttempt, Enhanced.getTotalSupply, Enhanced.getExcludedBalance,
      bind, ret.
    rewrite Hcall, Hall. cbn [fst]. now rewrite sum_balances_sum, Hlist.
  - unfold Basic.getCirculatingSupplyForChain, Basic.getTotalSupply,
      Basic.getExcludedBalance, bind, ret.
    change Basic.EXCLUDED_ADDRESSES with Enhanced.EXCLUDED_ADDRESSES.
    rewrite Hcall, Hall. cbn [fst]. now rewrite sum_balances_sum, Hlist.
Qed.

End ExcludedFacts.

Lemma sim_serves (net : string -> Sim.ChainState) (rpcUrl tokenAddress : string) :
  serves rpcUrl tokenAddress (Sim.chain_totalSupply (net rpcUrl))
    (Sim.chain_balanceOf (net rpcUrl)) (Sim.healthy net).
Proof.
  split.
  - intros [c l s d o] (Hd & Ho & Hs). cbn in Hd, Ho, Hs. subst d o s.
    eexists. split; [reflexivity|]. now repeat split.
  - intros addr [c l s d o] (Hd & Ho & Hs). cbn in Hd, Ho, Hs. subst d o s.
    eexists. split; [reflexivity|]. now repeat split.
Qed.

(** C9 on a run: of a total of 100, with 5 in the Ethereum DAO treasury
    and 7 at the address listed twice, 19 is excluded and 81 circulates. *)
Lemma duplicate_excluded_address_counted_twice_witness :
  fst (Enhanced.chainAttempt "Plasma" "https://rpc.plasma.to" Sim.treasury_world)
  = Return {| chain := "Plasma"; totalSupply := 100;
              excludedBalance := 5 + 2 * 7;
              circulatingSupply := 100 - (5 + 2 * 7) |}.
Proof.
  assert (Hhealthy : Sim.healthy (fun _ => Sim.treasury_chain) Sim.treasury_world)
    by (repeat split).
  destruct (duplicate_excluded_address_counted_twice "https://rpc.plasma.to" "Plasma"
              100 (Sim.chain_balanceOf Sim.treasury_chain)
              (Sim.healthy (fun _ => Sim.treasury_chain)) Sim.treasury_world
              (sim_serves (fun _ => Sim.treasury_chain) "https://rpc.plasma.to"
                 TOKEN_ADDRESS)
              Hhealthy) as (_ & _ & _ & _ & _ & Hattempt & _).
  exact Hattempt.
Defined.

(** ** The end-to-end example *)

(** C7 at the failing input. On the example (chain A 500000000 / 50000000,
    chain B 300000000 / 30000000, chain C 200000000 / 20000000, in tokens
    of 18 decimals) the per-chain circulating supplies are 450000000,
    270000000 and 180000000 tokens and the global circulating supply is
    their sum, 900000000 tokens. The global total is the sum 1000000000 in
    the enhanced and the basic server, and the total of Sonic, 300000000,
    in the serverless library. The text, though, is not 900000000: the
    circulating-supply operation of each variant sends 900000000.0, and
    the detailed answer holds 1000000000.0, 100000000.0 and 900000000.0
    as its totals. Were the figures the raw integers of the contracts, the
    totals would be 900000000 and 1000000000 units and the text
    0.0000000009. *)
Theorem example_end_to_end :
  let unit := 10 ^ 18 in
  let w := Sim.example_world unit in
  (exists data : SupplyData,
      fst (Enhanced.getAllChainsCirculatingSupply Sim.no_env w) = Return data
      /\ circulatingSupply (ethereum (chains data)) = 450000000 * unit
      /\ circulatingSupply (sonic (chains data)) = 270000000 * unit
      /\ circulatingSupply (plasma (chains data)) = 180000000 * unit
      /\ totals data = {| totals_circulatingSupply := 900000000 * unit;
                          totals_totalSupply := 1000000000 * unit;
                          totals_excludedBalance := 100000000 * unit;
                          totals_decimals := 18 |})
  /\ (exists data : SupplyData,
        fst (Basic.getAllChainsCirculatingSupply Sim.no_env w) = Return data
        /\ totals data = {| totals_circulatingSupply := 900000000 * unit;
                            totals_totalSupply := 1000000000 * unit;
                            totals_excludedBalance := 100000000 * unit;
                            totals_decimals := 18 |})
  /\ (exists data : SupplyData,
        fst (Serverless.getAllChainsCirculatingSupply Sim.no_env w) = Return data
        /\ totals data = {| totals_circulatingSupply := 900000000 * unit;
                            totals_totalSupply := 300000000 * unit;
                            totals_excludedBalance := 100000000 * unit;
                            totals_decimals := 18 |})
  /\ fst (Enhanced.api_circulating_supply Sim.no_env (Sim.fresh_server w))
     = Return (Enhanced.text_response 200 (Some "MISS") None
                 (Enhanced.VString "900000000.0"))
  /\ fst (Basic.api_circulating_supply Sim.no_env w) = Return (200, "900000000.0")
  /\ fst (Serverless.circulating_supply Sim.no_env "GET" w)
     = Return {| Serverless.status := 200;
                 Serverless.content_type := Some "text/plain";
                 Serverless.body := "900000000.0" |}
  /\ Ethers.formatUnits (900000000 * unit) 18 = Return "900000000.0"
  /\ (exists data : SupplyData,
        fst (Enhanced.getAllChainsCirculatingSupply Sim.no_env (Sim.example_world 1))
        = Return data
        /\ totals data = {| totals_circulatingSupply := 900000000;
                            totals_totalSupply := 1000000000;
                            totals_excludedBalance := 100000000;
                            totals_decimals := 18 |})
  /\ Sim.sent_text
       (fst (Enhanced.api_circulating_supply Sim.no_env
               (Sim.fresh_server (Sim.example_world 1))))
     = Some "0.0000000009"
  /\ Sim.sent_text
       (fst (Enhanced.api_circulating_supply Sim.no_env (Sim.fresh_server w)))
     <> Some "900000000"
  /\ (exists response : Enhanced.DetailedResponse,
        Enhanced.body <$> Sim.answer
                            (fst (Enhanced.api_circulating_supply_detailed Sim.no_env
                                    (Sim.fresh_server w)))
        = Some (Enhanced.JsonDetailed response)
        /\ Enhanced.dr_totals response
           = Enhanced.mkFormattedChain "1000000000.0" "100000000.0" "900000000.0").
Proof.
  vm_compute.
  split; [eexists; repeat split|].
  split; [eexists; repeat split|].
  split; [eexists; repeat split|].
  do 4 (split; [reflexivity|]).
  split; [eexists; repeat split|].
  split; [reflexivity|].
  split; [discriminate|].
  eexists. split; reflexivity.
Qed.

(** ** The cache of the enhanced server *)

Section CacheFacts.

Context {W : Type} `{Chain W}.
Import Enhanced.

(** The status of a key, read off its entry and the clock. *)
Lemma getCacheStatus_entry (cacheKey : string) (st : Server W) :
  getCacheStatus cacheKey st
  = match cache st !! cacheKey with
    | None => MISS
    | Some cached =>
        if truthy (value cached)
        then if now (world st) - timestamp cached <? CACHE_TTL then HIT
             else if now (world st) - timestamp cached <? STALE_WHILE_REVALIDATE
                  then STALE else MISS
        else MISS
    end.
Proof.
  unfold getCacheStatus, isCacheFresh, isCacheStale.
  destruct (cache st !! cacheKey) as [cached|]; [|reflexivity].
  destruct (truthy (value cached)); cbn [negb]; [|reflexivity].
  unfold CACHE_TTL, STALE_WHILE_REVALIDATE.
  destruct (Z.ltb_spec (now (world st) - timestamp cached) 60000);
    destruct (Z.leb_spec 60000 (now (world st) - timestamp cached));
    destruct (Z.ltb_spec (now (world st) - timestamp cached) 300000);
    cbn; try reflexivity; lia.
Qed.

Lemma updateCache_lookup (cacheKey : string) (v : CacheValue) (st : Server W) :
  cache (snd (updateCache cacheKey v st)) !! cacheKey
  = Some {| value := v; timestamp := now (world st); error := None |}
  /\ world (snd (updateCache cacheKey v st)) = world st
  /\ inflight (snd (updateCache cacheKey v st)) = inflight st.
Proof. cbn. now rewrite lookup_insert_eq. Qed.

(** C1. The cache status of a key is a function of the age
    [now - timestamp] of its entry: an entry with a value is HIT (fresh)
    below [CACHE_TTL] = 60000 ms, STALE from there up to
    [STALE_WHILE_REVALIDATE] = 300000 ms, MISS from there on; an entry
    without a value, or no entry, is MISS at any age. Right after
    [updateCache] stored a value (age 0) the status is HIT, and as the clock
    advances over an unchanged cache the status never moves back up. *)
Theorem getCacheStatus_by_age (cacheKey : string) (st : Server W) :
  (forall cached : CacheEntry,
      cache st !! cacheKey = Some cached ->
      truthy (value cached) = true ->
      (now (world st) - timestamp cached < CACHE_TTL ->
       getCacheStatus cacheKey st = HIT)
      /\ (CACHE_TTL <= now (world st) - timestamp cached < STALE_WHILE_REVALIDATE ->
          getCacheStatus cacheKey st = STALE)
      /\ (STALE_WHILE_REVALIDATE <= now (world st) - timestamp cached ->
          getCacheStatus cacheKey st = MISS))
  /\ (forall cached : CacheEntry,
        cache st !! cacheKey = Some cached ->
        truthy (value cached) = false ->
        getCacheStatus cacheKey st = MISS)
  /\ (cache st !! cacheKey = None -> getCacheStatus cacheKey st = MISS)
  /\ (forall v : CacheValue,
        truthy v = true ->
        getCacheStatus cacheKey (snd (updateCache cacheKey v st)) = HIT)
  /\ (forall w' : W,
        now (world st) <= now w' ->
        (freshness (getCacheStatus cacheKey (at_time w' st))
         <= freshness (getCacheStatus cacheKey st))%nat)
  /\ CACHE_TTL = 60000 /\ STALE_WHILE_REVALIDATE = 300000.
Proof.
  repeat apply conj; try reflexivity.
  - intros cached Hlook Hval. rewrite getCacheStatus_entry, Hlook, Hval.
    unfold CACHE_TTL, STALE_WHILE_REVALIDATE.
    destruct (Z.ltb_spec (now (world st) - timestamp cached) 60000);
      destruct (Z.ltb_spec (now (world st) - timestamp cached) 300000);
      repeat apply conj; intros; try reflexivity; lia.
  - intros cached Hlook Hval. now rewrite getCacheStatus_entry, Hlook, Hval.
  - intros Hlook. now rewrite getCacheStatus_entry, Hlook.
  - intros v Hv. rewrite getCacheStatus_entry.
    destruct (updateCache_lookup cacheKey v st) as (-> & -> & _).
    cbn [value timestamp]. rewrite Hv, Z.sub_diag. reflexivity.
  - intros w' Hlater. rewrite !getCacheStatus_entry. cbn [at_time cache world].
    destruct (cache st !! cacheKey) as [cached|]; [|reflexivity].
    destruct (truthy (value cached)); [|reflexivity].
    unfold CACHE_TTL, STALE_WHILE_REVALIDATE.
    destruct (Z.ltb_spec (now (world st) - timestamp cached) 60000);
      destruct (Z.ltb_spec (now (world st) - timestamp cached) 300000);
      destruct (Z.ltb_spec (now w' - timestamp cached) 60000);
      destruct (Z.ltb_spec (now w' - timestamp cached) 300000);
      cbn [freshness]; lia.
Qed.

End CacheFacts.

(** C1 on a run: the first request fills the cache; at once the status is
    HIT, one minute later STALE, five minutes later MISS. *)
Lemma getCacheStatus_by_age_witness :
  let st := snd (Enhanced.api_circulating_supply Sim.no_env
                   (Sim.fresh_server (Sim.example_world (10 ^ 18)))) in
  Enhanced.getCacheStatus "circulating" st = Enhanced.HIT
  /\ Enhanced.getCacheStatus "circulating" (Sim.at_world (Sim.later 60000) st)
     = Enhanced.STALE
  /\ Enhanced.getCacheStatus "circulating" (Sim.at_world (Sim.later 300000) st)
     = Enhanced.MISS
  /\ Enhanced.getCacheStatus "circulating"
       (Sim.fresh_server (Sim.example_world (10 ^ 18))) = Enhanced.MISS
  /\ Enhanced.getCacheStatus "circulating"
       (snd (Enhanced.updateCache "circulating" (Enhanced.VString "1.5")
               (Sim.fresh_server (Sim.example_world (10 ^ 18))))) = Enhanced.HIT.
Proof.
  set (fresh := Sim.fresh_server (Sim.example_world (10 ^ 18))).
  set (entry := {| Enhanced.value := Enhanced.VString "900000000.0";
                   Enhanced.timestamp := 1700000000880;
                   Enhanced.error := None |}).
  intros st.
  assert (Hlook : forall f, Enhanced.cache (Sim.at_world f st) !! "circulating" = Some entry)
    by (intros f; vm_compute; reflexivity).
  assert (Hlook0 : Enhanced.cache st !! "circulating" = Some entry)
    by (vm_compute; reflexivity).
  assert (Hempty : Enhanced.cache fresh !! "circulating" = Some Enhanced.empty_entry)
    by (vm_compute; reflexivity).
  split; [|split; [|split; [|split]]].
  - apply (proj1 (getCacheStatus_by_age "circulating" st) entry Hlook0 eq_refl).
    vm_compute. reflexivity.
  - apply (proj1 (getCacheStatus_by_age "circulating" (Sim.at_world (Sim.later 60000) st))
             entry (Hlook _) eq_refl).
    vm_compute. split; [discriminate | reflexivity].
  - apply (proj1 (getCacheStatus_by_age "circulating" (Sim.at_world (Sim.later 300000) st))
             entry (Hlook _) eq_refl).
    vm_compute. discriminate.
  - apply (proj1 (proj2 (getCacheStatus_by_age "circulating" fresh))
             Enhanced.empty_entry Hempty eq_refl).
  - apply (proj1 (proj2 (proj2 (proj2 (getCacheStatus_by_age "circulating" fresh))))
             (Enhanced.VString "1.5") eq_refl).
Defined.

(** ** Formatted amounts are never the empty string *)

Lemma trim_whole_keeps_dot (str : list ascii) :
  In "."%char str -> In "."%char (Ethers.trim_whole str).
Proof.
  induction str as [|c rest IH]; intros Hin; [exact Hin|].
  cbn [Ethers.trim_whole].
  destruct (Ascii.eqb c "0" && negb (Ethers.starts_with_dot rest)) eqn:Hc;
    [|exact Hin].
  apply IH. destruct Hin as [-> | Hin]; [discriminate | exact Hin].
Qed.

Lemma bigint_digits_nonempty (val : Z) : Ethers.bigint_digits val <> [].
Proof.
  unfold Ethers.bigint_digits, NilZero.string_of_uint.
  destruct (N.to_uint (Z.to_N val)); cbn; discriminate.
Qed.

Lemma string_of_list_ascii_nonempty (l : list ascii) :
  l <> [] -> string_of_list_ascii l <> "".
Proof. destruct l; [congruence | cbn; discriminate]. Qed.

Lemma append_nonempty (s1 s2 : string) : s2 <> "" -> s1 +:+ s2 <> "".
Proof. destruct s1; [trivial | cbn; discriminate]. Qed.

Lemma formatUnits_truthy (value unit : Z) (s : string) :
  Ethers.formatUnits value unit = Return s -> Enhanced.truthy (Enhanced.VString s) = true.
Proof.
  unfold Ethers.formatUnits.
  destruct (80 <? unit); [discriminate|].
  destruct ((value <? - 2 ^ 511) || (2 ^ 511 <=? value)); [discriminate|].
  intros [= <-]. cbn [Enhanced.truthy].
  apply negb_true_iff, String.eqb_neq.
  unfold Ethers.fixed_toString.
  destruct (unit =? 0).
  - apply append_nonempty, string_of_list_ascii_nonempty, bigint_digits_nonempty.
  - apply append_nonempty, string_of_list_ascii_nonempty.
    unfold Ethers.trim_decimal.
    set (str := Ethers.pad_whole _ _ _). set (index := Z.to_nat _).
    assert (Hdot : In "."%char
                     (rev (Ethers.trim_whole
                             (rev (Ethers.trim_whole
                                     (take index str ++ "."%char :: drop index str)))))).
    { apply in_rev. rewrite rev_involutive.
      apply trim_whole_keeps_dot. apply -> in_rev.
      apply trim_whole_keeps_dot. apply in_elt. }
    intros Hnil. rewrite Hnil in Hdot. exact Hdot.
Qed.

(** ** Request handlers of the enhanced server *)

Section HandlerFacts.

Context {W : Type} `{Chain W}.
Variable env : ProcessEnv.
Import Enhanced.

Lemma in_world_state {A} (c : Op W A) (st : Server W) :
  in_world c st
  = (fst (c (world st)),
     {| cache := cache st; world := snd (c (world st)); inflight := inflight st |}).
Proof. unfold in_world. now destruct (c (world st)). Qed.

(** A successful [try] block of the circulating-supply handler stores the
    three entries from the one data object, with the time after the fetch. *)
Lemma circulating_try_success (st st' : Server W) (resp : Response) :
  circulating_try env st = (Return resp, st') ->
  exists (data : SupplyData) (w' : W) (c t : string),
    getAllChainsCirculatingSupply env (world st) = (Return data, w')
    /\ Ethers.formatUnits (totals_circulatingSupply (totals data))
         (totals_decimals (totals data)) = Return c
    /\ Ethers.formatUnits (totals_totalSupply (totals data))
         (totals_decimals (totals data)) = Return t
    /\ st' = {| cache := <["detailed" := entry_at (VData data) (now w')]>
                           (<["total" := entry_at (VString t) (now w')]>
                              (<["circulating" := entry_at (VString c) (now w')]>
                                 (cache st)));
                world := w'; inflight := inflight st |}
    /\ resp = text_response 200 (Some "MISS") None (VString c).
Proof.
  unfold circulating_try, bind. rewrite in_world_state.
  destruct (getAllChainsCirculatingSupply env (world st)) as [[data|e] w'] eqn:Hfetch;
    cbn [fst snd]; [|discriminate].
  unfold formatSupply at 1.
  destruct (Ethers.formatUnits (totals_circulatingSupply (totals data))
              (totals_decimals (totals data))) as [c|e] eqn:Hc; [|discriminate].
  cbn [updateCache]. unfold formatSupply at 1. cbn [cache world inflight].
  destruct (Ethers.formatUnits (totals_totalSupply (totals data))
              (totals_decimals (totals data))) as [t|e] eqn:Ht; [|discriminate].
  cbn. intros [= <- <-].
  exists data, w', c, t. auto.
Qed.

Lemma total_try_success (st st' : Server W) (resp : Response) :
  total_try env st = (Return resp, st') ->
  exists (data : SupplyData) (w' : W) (c t : string),
    getAllChainsCirculatingSupply env (world st) = (Return data, w')
    /\ Ethers.formatUnits (totals_circulatingSupply (totals data))
         (totals_decimals (totals data)) = Return c
    /\ Ethers.formatUnits (totals_totalSupply (totals data))
         (totals_decimals (totals data)) = Return t
    /\ st' = {| cache := <["detailed" := entry_at (VData data) (now w')]>
                           (<["total" := entry_at (VString t) (now w')]>
                              (<["circulating" := entry_at (VString c) (now w')]>
                                 (cache st)));
                world := w'; inflight := inflight st |}
    /\ resp = text_response 200 (Some "MISS") None (VString t).
Proof.
  unfold total_try, bind. rewrite in_world_state.
  destruct (getAllChainsCirculatingSupply env (world st)) as [[data|e] w'] eqn:Hfetch;
    cbn [fst snd]; [|discriminate].
  unfold formatSupply at 1.
  destruct (Ethers.formatUnits (totals_totalSupply (totals data))
              (totals_decimals (totals data))) as [t|e] eqn:Ht; [|discriminate].
  unfold formatSupply at 1.
  destruct (Ethers.formatUnits (totals_circulatingSupply (totals data))
              (totals_decimals (totals data))) as [c|e] eqn:Hc; [|discriminate].
  cbn. intros [= <- <-].
  exists data, w', c, t. auto.
Qed.

(** Whatever the [try] block of the detailed handler does, it leaves the
    entries of the other keys as they were. *)
Lemma detailed_try_other_keys (st st' : Server W) (r : Completion Response)
    (cacheKey : string) :
  detailed_try env st = (r, st') ->
  cacheKey <> "detailed" ->
  cache st' !! cacheKey = cache st !! cacheKey.
Proof.
  unfold detailed_try, bind. rewrite in_world_state.
  destruct (getAllChainsCirculatingSupply env (world st)) as [[data|e] w'];
    cbn [fst snd].
  - cbn [updateCache cache world inflight].
    match goal with
    | |- context [formatDetailedResponse data ?s] =>
        destruct (formatDetailedResponse data s) as [[response|e] st1] eqn:Hfmt
    end.
    + unfold formatDetailedResponse, formatChain, formatSupply, bind, ret in Hfmt.
      repeat match type of Hfmt with
             | context [Ethers.formatUnits ?v ?d] =>
                 destruct (Ethers.formatUnits v d); try discriminate
             end.
      injection Hfmt as _ <-. cbn. intros [= _ <-] Hne. cbn.
      now rewrite lookup_insert_ne.
    + unfold formatDetailedResponse, formatChain, formatSupply, bind, ret in Hfmt.
      repeat match type of Hfmt with
             | context [Ethers.formatUnits ?v ?d] =>
                 destruct (Ethers.formatUnits v d); try discriminate
             end;
      injection Hfmt as _ <-; intros [= _ <-] Hne; cbn;
      now rewrite lookup_insert_ne.
  - intros [= _ <-] _. reflexivity.
Qed.

(** When the synchronous fetch of a plain-text handler throws, the handler
    answers from the [catch] block: the cached value of its key with
    ERROR-FALLBACK if there is one, however old, and the text 0 with status
    500 otherwise. Nothing is thrown to the caller. *)
Lemma circulating_fetch_failure (st st1 : Server W) (e : JsError) :
  getCacheStatus "circulating" st = MISS ->
  in_world (getAllChainsCirculatingSupply env) st = (Throw e, st1) ->
  api_circulating_supply env st
  = (Return (if truthy (getCachedValue "circulating" st)
             then text_response 200 (Some "ERROR-FALLBACK") None
                    (getCachedValue "circulating" st)
             else text_response 500 None None (VString "0")), st1).
Proof.
  intros Hmiss Hfetch. unfold api_circulating_supply. rewrite Hmiss.
  unfold try_catch, circulating_try, bind. rewrite Hfetch.
  rewrite in_world_state in Hfetch. injection Hfetch as _ <-.
  unfold serve_fallback, getCachedValue. cbn [cache].
  now destruct (truthy _).
Qed.

Lemma total_fetch_failure (st st1 : Server W) (e : JsError) :
  getCacheStatus "total" st = MISS ->
  in_world (getAllChainsCirculatingSupply env) st = (Throw e, st1) ->
  api_total_supply env st
  = (Return (if truthy (getCachedValue "total" st)
             then text_response 200 (Some "ERROR-FALLBACK") None
                    (getCachedValue "total" st)
             else text_response 500 None None (VString "0")), st1).
Proof.
  intros Hmiss Hfetch. unfold api_total_supply. rewrite Hmiss.
  unfold try_catch, total_try, bind. rewrite Hfetch.
  rewrite in_world_state in Hfetch. injection Hfetch as _ <-.
  unfold serve_fallback, getCachedValue. cbn [cache].
  now destruct (truthy _).
Qed.

(** The plain-text handlers always answer. *)
Lemma plain_text_handlers_answer (st : Server W) :
  is_Return (fst (api_circulating_supply env st)) = true
  /\ is_Return (fst (api_total_supply env st)) = true.
Proof.
  unfold api_circulating_supply, api_total_supply, try_catch, serve_fallback.
  split.
  - destruct (getCacheStatus "circulating" st); try reflexivity.
    destruct (circulating_try env st) as [[r|e] st1]; [reflexivity|].
    now destruct (truthy _).
  - destruct (getCacheStatus "total" st); try reflexivity.
    destruct (total_try env st) as [[r|e] st1]; [reflexivity|].
    now destruct (truthy _).
Qed.

(** After a synchronous fetch that succeeded, the three keys are fresh. *)
Lemma circulating_miss_leaves_fresh (st st' : Server W) (resp : Response) :
  circulating_try env st = (Return resp, st') ->
  getCacheStatus "circulating" st' = HIT
  /\ getCacheStatus "total" st' = HIT
  /\ getCacheStatus "detailed" st' = HIT.
Proof.
  intros Htry.
  destruct (circulating_try_success st st' resp Htry)
    as (data & w' & c & t & _ & Hc & Ht & -> & _).
  apply formatUnits_truthy in Hc, Ht.
  repeat apply conj; rewrite getCacheStatus_entry; cbn [cache world].
  - do 2 rewrite lookup_insert_ne by discriminate. rewrite lookup_insert_eq.
    cbn [entry_at value timestamp]. now rewrite Hc, Z.sub_diag.
  - rewrite lookup_insert_ne by discriminate. rewrite lookup_insert_eq.
    cbn [entry_at value timestamp]. now rewrite Ht, Z.sub_diag.
  - rewrite lookup_insert_eq.
    cbn [entry_at value timestamp truthy]. now rewrite Z.sub_diag.
Qed.

Lemma formatDetailedResponse_state (data : SupplyData) (st : Server W) :
  snd (formatDetailedResponse data st) = st.
Proof.
  unfold formatDetailedResponse, formatChain, formatSupply, bind, ret.
  repeat match goal with
         | |- context [Ethers.formatUnits ?v ?d] =>
             destruct (Ethers.formatUnits v d); try reflexivity
         end.
Qed.

Lemma getCachedValue_entry (cacheKey : string) (st : Server W) :
  getCachedValue cacheKey st
  = match cache st !! cacheKey with
    | Some cached => if truthy (value cached) then value cached else VNull
    | None => VNull
    end.
Proof.
  unfold getCachedValue. destruct (cache st !! cacheKey) as [cached|]; [|reflexivity].
  now destruct (truthy (value cached)).
Qed.

(** A key that is not MISS has a cached value. *)
Lemma cached_value_truthy (cacheKey : string) (st : Server W) :
  getCacheStatus cacheKey st <> MISS ->
  truthy (getCachedValue cacheKey st) = true.
Proof.
  rewrite getCacheStatus_entry, getCachedValue_entry.
  destruct (cache st !! cacheKey) as [cached|]; [|congruence].
  destruct (truthy (value cached)) eqn:Hv; [auto | congruence].
Qed.

Lemma start_refresh_status (cacheKey startedBy : string) (st : Server W) :
  getCacheStatus cacheKey (start_refresh startedBy st) = getCacheStatus cacheKey st.
Proof. now rewrite !getCacheStatus_entry. Qed.

(** The calls of a refresh act on the world only: whatever the refresh
    does, the refreshes in flight stay as they are. *)
Lemma refresh_promise_inflight (r : Refresh) (s : Server W) :
  inflight (snd (refresh_promise env r s)) = inflight s.
Proof.
  unfold refresh_promise, try_catch, bind, refresh_then. rewrite in_world_state.
  destruct (getAllChainsCirculatingSupply_since env (refresh_startTime r) (world s))
    as [[data|e] w']; cbn [fst snd]; [|reflexivity].
  unfold formatSupply at 1.
  destruct (Ethers.formatUnits (totals_circulatingSupply (totals data))
              (totals_decimals (totals data))) as [c|e]; [|reflexivity].
  cbn [updateCache]. unfold formatSupply at 1.
  destruct (Ethers.formatUnits (totals_totalSupply (totals data))
              (totals_decimals (totals data))) as [t|e]; reflexivity.
Qed.

(** C8, as the code has it. There is no in-flight marker: a request on
    /api/circulating-supply or /api/total-supply that finds its key STALE
    is answered at once with the cached value and starts a background
    refresh of its own, so two such requests leave two refreshes in
    flight. The promise of a refresh always fulfils: a rejection of its
    fetch and an error thrown in its [.then] callback end in the [.catch]
    callback. So settling a refresh only changes the state of the
    process; when its fetch rejects, the cache is left as it was. *)
Theorem stale_request_starts_own_refresh (st : Server W) :
  (getCacheStatus "circulating" st = STALE ->
     (exists age : Z,
         api_circulating_supply env st
         = (Return (text_response 200 (Some "STALE") (Some age)
                      (getCachedValue "circulating" st)),
            start_refresh "circulating" st))
     /\ truthy (getCachedValue "circulating" st) = true
     /\ inflight (snd (api_circulating_supply env
                         (snd (api_circulating_supply env st))))
        = (inflight st ++ [BackgroundRefresh "circulating" (now (world st));
                           BackgroundRefresh "circulating" (now (world st))])%list)
  /\ (getCacheStatus "total" st = STALE ->
      api_total_supply env st
      = (Return (text_response 200 (Some "STALE") None (getCachedValue "total" st)),
         start_refresh "total" st)
      /\ truthy (getCachedValue "total" st) = true
      /\ inflight (snd (api_total_supply env (snd (api_total_supply env st))))
         = (inflight st ++ [BackgroundRefresh "total" (now (world st));
                            BackgroundRefresh "total" (now (world st))])%list)
  /\ (forall (r : Refresh) (rest : list Refresh),
        inflight st = r :: rest ->
        let quiet := {| cache := cache st; world := world st; inflight := rest |} in
        fst (refresh_promise env r quiet) = Return tt
        /\ settle_refresh env st = snd (refresh_promise env r quiet)
        /\ inflight (settle_refresh env st) = rest
        /\ forall (e : JsError) (st' : Server W),
             in_world (getAllChainsCirculatingSupply_since env (refresh_startTime r))
               quiet = (Throw e, st') ->
             settle_refresh env st = st' /\ cache st' = cache st).
Proof.
  split; [|split].
  - intros Hstale.
    assert (Hone : api_circulating_supply env st
                   = (Return (text_response 200 (Some "STALE")
                                (Some (age_seconds "circulating" st))
                                (getCachedValue "circulating" st)),
                      start_refresh "circulating" st))
      by (unfold api_circulating_supply; now rewrite Hstale).
    split; [now exists (age_seconds "circulating" st)|].
    split; [apply cached_value_truthy; now rewrite Hstale|].
    rewrite Hone. cbn [snd].
    unfold api_circulating_supply. rewrite start_refresh_status, Hstale.
    cbn. now rewrite <- app_assoc.
  - intros Hstale.
    assert (Hone : api_total_supply env st
                   = (Return (text_response 200 (Some "STALE") None
                                (getCachedValue "total" st)),
                      start_refresh "total" st))
      by (unfold api_total_supply; now rewrite Hstale).
    split; [exact Hone|].
    split; [apply cached_value_truthy; now rewrite Hstale|].
    rewrite Hone. cbn [snd].
    unfold api_total_supply. rewrite start_refresh_status, Hstale.
    cbn. now rewrite <- app_assoc.
  - intros r rest Hin quiet.
    assert (Hsettle : settle_refresh env st = snd (refresh_promise env r quiet))
      by (unfold settle_refresh; now rewrite Hin).
    split; [|split; [exact Hsettle|split]].
    + unfold refresh_promise, try_catch.
      match goal with
      | |- context [bind ?c ?k quiet] => destruct (bind c k quiet) as [[[]|e] s1]
      end; reflexivity.
    + rewrite Hsettle. apply refresh_promise_inflight.
    + intros e st' Hfetch. rewrite Hsettle.
      unfold refresh_promise, try_catch, bind. rewrite Hfetch. cbn [ret snd].
      rewrite in_world_state in Hfetch. injection Hfetch as _ <-. auto.
Qed.

(** C2. When the synchronous fetch of the detailed handler throws, the
    handler answers with status 500 and the message of the error, whatever
    the cache holds: it does not look for a cached value and sends no
    X-Cache header. On the same state the circulating-supply handler, whose
    fetch is the same call, serves its cached value with ERROR-FALLBACK. *)
Theorem detailed_fetch_failure_no_fallback (st st1 : Server W) (e : JsError) :
  getCacheStatus "detailed" st = MISS ->
  in_world (getAllChainsCirculatingSupply env) st = (Throw e, st1) ->
  api_circulating_supply_detailed env st
  = (Return (json_response 500 None (JsonError (err_message e))), st1)
  /\ (getCacheStatus "circulating" st = MISS ->
      truthy (getCachedValue "circulating" st) = true ->
      api_circulating_supply env st
      = (Return (text_response 200 (Some "ERROR-FALLBACK") None
                   (getCachedValue "circulating" st)), st1)).
Proof.
  intros Hmiss Hfetch. split.
  - unfold api_circulating_supply_detailed. rewrite Hmiss.
    unfold detailed_fetch, try_catch, detailed_try, bind. now rewrite Hfetch.
  - intros Hcirc Hvalue.
    rewrite (circulating_fetch_failure st st1 e Hcirc Hfetch). now rewrite Hvalue.
Qed.

End HandlerFacts.

(** C8 as stated fails: two requests on /api/circulating-supply that both
    find the entry STALE leave two background refreshes in flight. *)
Lemma stale_requests_deduplicated_counterexample :
  ~ (forall st : Enhanced.Server Sim.World,
       Enhanced.getCacheStatus "circulating" st = Enhanced.STALE ->
       Enhanced.getCacheStatus "circulating"
         (snd (Enhanced.api_circulating_supply Sim.no_env st)) = Enhanced.STALE ->
       (length (Enhanced.inflight
                  (snd (Enhanced.api_circulating_supply Sim.no_env
                          (snd (Enhanced.api_circulating_supply Sim.no_env st)))))
        <= length (Enhanced.inflight st) + 1)%nat).
Proof.
  intros Hdedup.
  assert (Hfirst : Enhanced.getCacheStatus "circulating" Sim.stale_server
                   = Enhanced.STALE) by (vm_compute; reflexivity).
  assert (Hsecond : Enhanced.getCacheStatus "circulating"
                      (snd (Enhanced.api_circulating_supply Sim.no_env Sim.stale_server))
                    = Enhanced.STALE) by (vm_compute; reflexivity).
  specialize (Hdedup Sim.stale_server Hfirst Hsecond).
  vm_compute in Hdedup. lia.
Qed.

(** The amended C8 on a run: the two stale requests start two refreshes;
    the refresh of the first one, taken up again during a blackout, ends
    in its [.catch] callback and leaves the cache as it was. *)
Lemma stale_request_starts_own_refresh_witness :
  length (Enhanced.inflight
            (snd (Enhanced.api_circulating_supply Sim.no_env
                    (snd (Enhanced.api_circulating_supply Sim.no_env
                            Sim.stale_server))))) = 2%nat
  /\ (let st := Sim.at_world Sim.blackout
                  (snd (Enhanced.api_circulating_supply Sim.no_env Sim.stale_server)) in
      Enhanced.inflight (Enhanced.settle_refresh Sim.no_env st) = []
      /\ Enhanced.cache (Enhanced.settle_refresh Sim.no_env st)
         = Enhanced.cache Sim.stale_server).
Proof.
  split.
  - destruct (proj1 (stale_request_starts_own_refresh Sim.no_env Sim.stale_server))
      as (_ & _ & Htwo); [vm_compute; reflexivity|].
    rewrite Htwo. reflexivity.
  - intros st.
    set (r := Enhanced.BackgroundRefresh "circulating" 1700000060880).
    assert (Hin : Enhanced.inflight st = [r]) by (vm_compute; reflexivity).
    destruct (proj2 (proj2 (stale_request_starts_own_refresh Sim.no_env st)) r [] Hin)
      as (_ & _ & Hrest & Hcatch).
    split; [exact Hrest|].
    set (quiet := {| Enhanced.cache := Enhanced.cache st;
                     Enhanced.world := Enhanced.world st;
                     Enhanced.inflight := [] |}) in *.
    set (run := Enhanced.in_world
                  (Enhanced.getAllChainsCirculatingSupply_since Sim.no_env
                     (Enhanced.refresh_startTime r)) quiet) in *.
    assert (Hthrow : exists e, fst run = Throw e)
      by (vm_compute; eexists; reflexivity).
    destruct Hthrow as [e Hthrow].
    assert (Hfetch : run = (Throw e, snd run)) by (rewrite <- Hthrow; now destruct run).
    destruct (Hcatch e (snd run) Hfetch) as [-> ->].
    vm_compute. reflexivity.
Defined.

(** C2 at the failing input. The three entries were filled five minutes
    ago and every endpoint is now down. The detailed handler still holds a
    cached value, yet it answers with status 500 and the message of the
    error the fetch threw; on the same state the circulating-supply
    handler serves its cached value with ERROR-FALLBACK. *)
Lemma detailed_fetch_failure_no_fallback_witness :
  let st := Sim.at_world (fun w => Sim.blackout (Sim.later 300000 w)) Sim.warm_server in
  Enhanced.getCacheStatus "detailed" st = Enhanced.MISS
  /\ Enhanced.truthy (Enhanced.getCachedValue "detailed" st) = true
  /\ exists e : JsError,
       fst (Enhanced.in_world (Enhanced.getAllChainsCirculatingSupply Sim.no_env) st)
       = Throw e
       /\ fst (Enhanced.api_circulating_supply_detailed Sim.no_env st)
          = Return (Enhanced.json_response 500 None (Enhanced.JsonError (err_message e)))
       /\ fst (Enhanced.api_circulating_supply Sim.no_env st)
          = Return (Enhanced.text_response 200 (Some "ERROR-FALLBACK") None
                      (Enhanced.VString "900000000.0")).
Proof.
  intros st.
  set (run := Enhanced.in_world (Enhanced.getAllChainsCirculatingSupply Sim.no_env) st).
  assert (Hmiss : Enhanced.getCacheStatus "detailed" st = Enhanced.MISS)
    by (vm_compute; reflexivity).
  assert (Hcirc : Enhanced.getCacheStatus "circulating" st = Enhanced.MISS)
    by (vm_compute; reflexivity).
  assert (Hvalue : Enhanced.getCachedValue "circulating" st
                   = Enhanced.VString "900000000.0")
    by (vm_compute; reflexivity).
  assert (Hthrow : exists e, fst run = Throw e)
    by (vm_compute; eexists; reflexivity).
  destruct Hthrow as [e Hthrow].
  assert (Hfetch : run = (Throw e, snd run)) by (rewrite <- Hthrow; now destruct run).
  destruct (detailed_fetch_failure_no_fallback Sim.no_env st (snd run) e Hmiss Hfetch)
    as [Hdetailed Hsibling].
  split; [exact Hmiss|]. split; [vm_compute; reflexivity|].
  exists e. split; [exact Hthrow|]. split.
  - now rewrite Hdetailed.
  - rewrite (Hsibling Hcirc); [now rewrite Hvalue | now rewrite Hvalue].
Defined.

(** Which rejection the handlers see: with every endpoint down the three
    chain fetches all give up, Sonic first, since its list is the shortest;
    the global fetch rejects with the error of Sonic's endpoint. *)
Example blackout_first_rejection :
  fst (Enhanced.getAllChainsCirculatingSupply Sim.no_env
         (Sim.blackout (Sim.example_world 1)))
  = Throw (new_Error "could not reach https://rpc.soniclabs.com").
Proof. vm_compute. reflexivity. Qed.

(** C3 at the failing input. The three entries were filled from one fetch;
    five minutes later the supplies have doubled and a request on the
    detailed endpoint fetches. It stores the new data under "detailed" only:
    "circulating" and "total" keep the amounts and the time of the old
    fetch. *)
Theorem detailed_fetch_updates_detailed_only :
  let st := Sim.at_world (fun w => Sim.supply_doubled (Sim.later 300000 w))
              Sim.warm_server in
  let st' := snd (Enhanced.api_circulating_supply_detailed Sim.no_env st) in
  Enhanced.getCacheStatus "detailed" st = Enhanced.MISS
  /\ (exists data : SupplyData,
        Enhanced.cache st' !! "detailed"
        = Some (Enhanced.entry_at (Enhanced.VData data) 1700000301760)
        /\ totals_circulatingSupply (totals data) = 1800000000 * 10 ^ 18
        /\ totals_totalSupply (totals data) = 2000000000 * 10 ^ 18)
  /\ Enhanced.cache st' !! "circulating"
     = Some (Enhanced.entry_at (Enhanced.VString "900000000.0") 1700000000880)
  /\ Enhanced.cache st' !! "total"
     = Some (Enhanced.entry_at (Enhanced.VString "1000000000.0") 1700000000880).
Proof.
  vm_compute. repeat split. eexists. repeat split.
Qed.

(** * Further properties of the code *)

(** ** Endpoint fallback and retry, continued *)

Section FallbackFacts.

Context {W A : Type}.
Variable sleep : Z -> W -> W.
Variable RETRY_DELAY : Z.

(** On a non-empty list the initial value of [lastError] does not matter. *)
Lemma tryRPC_loop_lastError (fn : string -> Op W A) (rpcUrls : list string)
    (e1 e2 : option JsError) (w : W) :
  rpcUrls <> [] ->
  fst (tryRPC_loop fn rpcUrls e1 w) = fst (tryRPC_loop fn rpcUrls e2 w).
Proof.
  destruct rpcUrls as [|rpcUrl rest]; [congruence|]. intros _.
  cbn [tryRPC_loop]. destruct (fn rpcUrl w) as [[a|e] w1]; reflexivity.
Qed.

Lemma tryRPC_loop_app (fn : string -> Op W A) (l1 l2 : list string) :
  forall (lastError : option JsError) (w : W),
    fst (tryRPC_loop fn (l1 ++ l2) lastError w)
    = match fst (tryRPC_loop fn l1 lastError w) with
      | (Return a, w1) => (Return a, w1)
      | (Throw e, w1) => fst (tryRPC_loop fn l2 (Some e) w1)
      end.
Proof.
  induction l1 as [|rpcUrl rest IH]; intros lastError w.
  - cbn [tryRPC_loop app fst]. destruct l2 as [|u l2]; [reflexivity|].
    destruct lastError as [e|]; [reflexivity|].
    apply tryRPC_loop_lastError. discriminate.
  - cbn [tryRPC_loop app]. destruct (fn rpcUrl w) as [[a|e] w1]; [reflexivity|].
    specialize (IH (Some e) w1).
    destruct (tryRPC_loop fn (rest ++ l2) (Some e) w1) as [[r w2] tr].
    destruct (tryRPC_loop fn rest (Some e) w1) as [[r' w2'] tr'].
    cbn [fst] in *. exact IH.
Qed.

(** X1. An endpoint pass over a list [l1 ++ l2] is the pass over [l1] and,
    if that one fails, the pass over [l2] from the world the failed calls
    left: a value returned by [l1] is the result and [l2] is not tried;
    when [l1] fails and [l2] is empty the error of [l1] is the result. In
    particular a failing first endpoint followed by more endpoints gives
    what the remaining endpoints alone give. *)
Theorem tryRPCEndpoints_app (fn : string -> Op W A) (l1 l2 : list string) (w : W) :
  tryRPCEndpoints (l1 ++ l2) fn w
  = match tryRPCEndpoints l1 fn w with
    | (Return a, w1) => (Return a, w1)
    | (Throw e, w1) =>
        match l2 with
        | [] => (Throw e, w1)
        | _ :: _ => tryRPCEndpoints l2 fn w1
        end
    end.
Proof.
  unfold tryRPCEndpoints, tryRPCEndpoints_trace. rewrite tryRPC_loop_app.
  destruct (fst (tryRPC_loop fn l1 None w)) as [[a|e] w1]; [reflexivity|].
  destruct l2 as [|u l2]; [reflexivity|].
  apply tryRPC_loop_lastError. discriminate.
Qed.

Lemma total_slept_schedule (fails : list JsError) (last : Completion A) :
  forall i : Z,
    0 <= i ->
    total_slept (backoff_schedule RETRY_DELAY i fails last)
    = RETRY_DELAY * 2 ^ i * (2 ^ Z.of_nat (length fails) - 1).
Proof.
  induction fails as [|e fs IH]; intros i Hi.
  - cbn. lia.
  - cbn [backoff_schedule total_slept fold_right length].
    change (fold_right _ 0 (backoff_schedule RETRY_DELAY (i + 1) fs last))
      with (total_slept (backoff_schedule RETRY_DELAY (i + 1) fs last)).
    rewrite IH by lia.
    rewrite Nat2Z.inj_succ, !Z.pow_succ_r, Z.pow_add_r by lia.
    change (2 ^ 1) with 2. lia.
Qed.

Lemma last_schedule (fails : list JsError) (last_r : Completion A) :
  forall i : Z,
    last (backoff_schedule RETRY_DELAY i fails last_r)
    = Some (Attempted (i + Z.of_nat (length fails)) last_r).
Proof.
  induction fails as [|e fs IH]; intros i.
  - cbn. now rewrite Z.add_0_r.
  - cbn [backoff_schedule length]. rewrite !last_cons, IH.
    f_equal. f_equal. lia.
Qed.

(** X2. A run of the retry wrapper with at least one retry waits
    [RETRY_DELAY * (2^(n-1) - 1)] milliseconds in all when it makes [n]
    attempts, so never more than [RETRY_DELAY * (2^(retries-1) - 1)]; the
    run ends with an attempt: there is no wait after the last one. *)
Theorem retryWithBackoff_total_wait (fn : Op W A) (retries : Z) (w : W) :
  1 <= retries ->
  let tr := snd (retryWithBackoff_trace sleep RETRY_DELAY fn retries w) in
  total_slept tr = RETRY_DELAY * (2 ^ Z.of_nat (invocations tr - 1) - 1)
  /\ (0 <= RETRY_DELAY ->
      0 <= total_slept tr <= RETRY_DELAY * (2 ^ (retries - 1) - 1))
  /\ exists (i : Z) (r : Completion A), last tr = Some (Attempted i r).
Proof.
  intros Hretries. unfold retryWithBackoff_trace.
  destruct (Z.to_nat retries) as [|n] eqn:Hn; [lia|].
  destruct (retry_loop_schedule sleep RETRY_DELAY fn retries n 0 w)
    as (fails & last_r & w' & Hrun & Hlen & _); [lia|].
  rewrite Hrun. cbn [snd].
  rewrite invocations_schedule, total_slept_schedule, last_schedule by lia.
  replace (S (length fails) - 1)%nat with (length fails) by lia.
  change (2 ^ 0) with 1. rewrite Z.mul_1_r.
  split; [reflexivity|]. split; [|eauto].
  intros Hdelay.
  assert (Hpow : 1 <= 2 ^ Z.of_nat (length fails) <= 2 ^ (retries - 1)).
  { split; [apply Z.pow_le_mono_r with (b := 0); lia|].
    apply Z.pow_le_mono_r; lia. }
  nia.
Qed.

(** When retry-over-fallback on a non-empty list throws, the error was
    thrown by the wrapped function on the last endpoint of the list. *)
Lemma retry_fallback_error (fn : string -> Op W A) (rpcUrls : list string)
    (retries : Z) (w w' : W) (e : JsError) :
  rpcUrls <> [] ->
  1 <= retries ->
  retryWithBackoff sleep RETRY_DELAY (tryRPCEndpoints rpcUrls fn) retries w
  = (Throw e, w') ->
  exists (lastUrl : string) (w0 : W),
    last rpcUrls = Some lastUrl /\ fst (fn lastUrl w0) = Throw e.
Proof.
  intros Hne Hretries. unfold retryWithBackoff, retryWithBackoff_trace.
  destruct (Z.to_nat retries) as [|n] eqn:Hn; [lia|].
  destruct (retry_loop_schedule sleep RETRY_DELAY (tryRPCEndpoints rpcUrls fn)
              retries n 0 w)
    as (fails & last_r & w1 & Hrun & _ & _ & _ & Hend); [lia|].
  rewrite Hrun. cbn [fst]. intros [= Hres <-].
  destruct last_r as [a|e0]; [discriminate|]. injection Hres as ->.
  set (w0 := attempt_world _ _ _ _ _ _) in Hend.
  unfold tryRPCEndpoints, tryRPCEndpoints_trace in Hend.
  destruct (tryRPC_loop_cases fn rpcUrls None w0)
    as (failed & w2 & Hcalls & [Hok | (Hpass & Hall & _)]).
  - destruct Hok as (u & a & rest & Hpass & _). rewrite Hpass in Hend. discriminate.
  - rewrite Hpass in Hend. cbn [fst] in Hend. injection Hend as He _.
    destruct (last failed) as [[lastUrl lastError]|] eqn:Hlast.
    + exists lastUrl, (pass_world fn rpcUrls (pred (length failed)) w0).
      rewrite Hall, !fmap_last, Hlast in *. cbn in He. subst lastError.
      split; [reflexivity|].
      apply (Hcalls (pred (length failed))). now rewrite <- last_lookup.
    + apply last_None in Hlast. subst failed. now subst rpcUrls.
Qed.

End FallbackFacts.

(** X2 on a run: two failures, then an answer; 1000 + 2000 ms were spent
    waiting, within the bound of 3000 ms for three retries. *)
Lemma retryWithBackoff_total_wait_witness :
  let tr := snd (retryWithBackoff_trace sleep Enhanced.RETRY_DELAY Sim.flaky
                   Enhanced.MAX_RETRIES (Sim.tick (Sim.example_world 1) 2)) in
  total_slept tr = Enhanced.RETRY_DELAY * (2 ^ Z.of_nat (invocations tr - 1) - 1)
  /\ (0 <= Enhanced.RETRY_DELAY ->
      0 <= total_slept tr
      <= Enhanced.RETRY_DELAY * (2 ^ (Enhanced.MAX_RETRIES - 1) - 1))
  /\ exists (i : Z) (r : Completion Z), last tr = Some (Attempted i r).
Proof.
  apply (retryWithBackoff_total_wait sleep Enhanced.RETRY_DELAY Sim.flaky
           Enhanced.MAX_RETRIES (Sim.tick (Sim.example_world 1) 2)).
  unfold Enhanced.MAX_RETRIES. lia.
Defined.

(** ** Configuration of the endpoints *)

Lemma filter_Boolean_cons (o : option string) (l : list (option string)) :
  filter_Boolean (o :: l)
  = ((if truthy_str o then [default "" o] else []) ++ filter_Boolean l)%list.
Proof.
  unfold filter_Boolean. cbn [omap]. destruct o as [s|]; cbn; [|reflexivity].
  now destruct (negb (String.eqb s "")).
Qed.

Lemma endpoint_lists_structure (env : ProcessEnv) :
  (exists custom : list string,
      (length custom <= 1)%nat
      /\ Enhanced.RPC_ENDPOINTS_ethereum env
         = (custom ++ [ "https://eth.llamarpc.com"; "https://rpc.ankr.com/eth";
                        "https://ethereum.publicnode.com" ])%list
      /\ Serverless.RPC_ENDPOINTS_ethereum env
         = (custom ++ [ "https://eth.llamarpc.com"; "https://rpc.ankr.com/eth" ])%list)
  /\ (exists custom : list string,
        (length custom <= 1)%nat
        /\ Enhanced.RPC_ENDPOINTS_sonic env
           = (custom ++ [ "https://rpc.soniclabs.com" ])%list
        /\ Serverless.RPC_ENDPOINTS_sonic env = Enhanced.RPC_ENDPOINTS_sonic env)
  /\ (exists custom : list string,
        (length custom <= 1)%nat
        /\ Enhanced.RPC_ENDPOINTS_plasma env
           = (custom ++ [ "https://rpc.plasma.to"; "https://plasma.drpc.org" ])%list
        /\ Serverless.RPC_ENDPOINTS_plasma env = Enhanced.RPC_ENDPOINTS_plasma env)
  /\ forallb (fun rpcUrl => negb (String.eqb rpcUrl ""))
       (Enhanced.RPC_ENDPOINTS_ethereum env ++ Enhanced.RPC_ENDPOINTS_sonic env
          ++ Enhanced.RPC_ENDPOINTS_plasma env)%list = true
  /\ head (Enhanced.RPC_ENDPOINTS_ethereum env) = Some (Basic.RPC_ENDPOINTS_ethereum env)
  /\ head (Enhanced.RPC_ENDPOINTS_sonic env) = Some (Basic.RPC_ENDPOINTS_sonic env)
  /\ head (Enhanced.RPC_ENDPOINTS_plasma env) = Some (Basic.RPC_ENDPOINTS_plasma env).
Proof.
  destruct env as [eth key son pla].
  unfold Enhanced.RPC_ENDPOINTS_ethereum, Enhanced.RPC_ENDPOINTS_sonic,
    Enhanced.RPC_ENDPOINTS_plasma, Serverless.RPC_ENDPOINTS_ethereum,
    Serverless.RPC_ENDPOINTS_sonic, Serverless.RPC_ENDPOINTS_plasma,
    Basic.RPC_ENDPOINTS_ethereum, Basic.RPC_ENDPOINTS_sonic, Basic.RPC_ENDPOINTS_plasma.
  cbn [ETHEREUM_RPC_URL ALCHEMY_API_KEY SONIC_RPC_URL PLASMA_RPC_URL].
  set (alchemy := match key with Some k => _ | None => None end).
  assert (Halchemy : truthy_str alchemy = true \/ alchemy = None).
  { subst alchemy. destruct key as [k|]; [|now right].
    destruct (truthy_str (Some k)) eqn:Hk; [left | now right].
    cbn. apply negb_true_iff, String.eqb_neq. discriminate. }
  assert (Hfirst : truthy_str (or_str eth alchemy) = true \/ or_str eth alchemy = None).
  { unfold or_str. destruct (truthy_str eth) eqn:Heth; [now left | exact Halchemy]. }
  assert (Hor : forall o, truthy_str (or_str o None) = true \/ or_str o None = None).
  { intros o. unfold or_str. destruct (truthy_str o) eqn:Ho; [now left | now right]. }
  assert (Hsonic : filter_Boolean [son; Some "https://rpc.soniclabs.com"]
                   = filter_Boolean [or_str son None; Some "https://rpc.soniclabs.com"]).
  { rewrite !filter_Boolean_cons. unfold or_str.
    now destruct (truthy_str son) eqn:Hs; rewrite ?Hs. }
  assert (Hplasma : filter_Boolean [pla; Some "https://rpc.plasma.to";
                                    Some "https://plasma.drpc.org"]
                    = filter_Boolean [or_str pla None; Some "https://rpc.plasma.to";
                                      Some "https://plasma.drpc.org"]).
  { rewrite !filter_Boolean_cons. unfold or_str.
    now destruct (truthy_str pla) eqn:Hp; rewrite ?Hp. }
  rewrite Hsonic, Hplasma. clear Hsonic Hplasma.
  pose proof (Hor son) as Hson. pose proof (Hor pla) as Hpla. clear Hor Halchemy.
  set (first := or_str eth alchemy) in *. clearbody first.
  set (second := or_str son None) in *. clearbody second.
  set (third := or_str pla None) in *. clearbody third.
  assert (Hshape : forall (o : option string) (publics : list (option string)),
             truthy_str o = true \/ o = None ->
             exists custom : list string,
               (length custom <= 1)%nat
               /\ (forall l, filter_Boolean (o :: l) = (custom ++ filter_Boolean l)%list)
               /\ forallb (fun rpcUrl => negb (String.eqb rpcUrl "")) custom = true
               /\ forall p ps, head (custom ++ p :: ps)%list = Some (default p o)).
  { intros o publics [Ho | ->].
    - destruct o as [u|]; [|discriminate]. exists [u].
      split; [cbn; lia|]. split; [intros l; rewrite filter_Boolean_cons; now rewrite Ho|].
      split; [cbn in *; now rewrite Ho | reflexivity].
    - exists []. repeat split. cbn; lia. }
  destruct (Hshape first [] Hfirst) as (c1 & Hl1 & He1 & Hn1 & Hh1).
  destruct (Hshape second [] Hson) as (c2 & Hl2 & He2 & Hn2 & Hh2).
  destruct (Hshape third [] Hpla) as (c3 & Hl3 & He3 & Hn3 & Hh3).
  rewrite !He1, !He2, !He3.
  change (filter_Boolean [Some "https://eth.llamarpc.com"; Some "https://rpc.ankr.com/eth";
                          Some "https://ethereum.publicnode.com"])
    with ["https://eth.llamarpc.com"; "https://rpc.ankr.com/eth";
          "https://ethereum.publicnode.com"].
  change (filter_Boolean [Some "https://eth.llamarpc.com"; Some "https://rpc.ankr.com/eth"])
    with ["https://eth.llamarpc.com"; "https://rpc.ankr.com/eth"].
  change (filter_Boolean [Some "https://rpc.soniclabs.com"])
    with ["https://rpc.soniclabs.com"].
  change (filter_Boolean [Some "https://rpc.plasma.to"; Some "https://plasma.drpc.org"])
    with ["https://rpc.plasma.to"; "https://plasma.drpc.org"].
  split; [now exists c1|]. split; [now exists c2|]. split; [now exists c3|].
  split; [rewrite !forallb_app, Hn1, Hn2, Hn3; reflexivity|].
  rewrite Hh1, Hh2, Hh3. auto.
Qed.

(** X3. Whatever [process.env] holds, every endpoint list of the enhanced
    server and of the serverless library is the hard-coded public endpoints
    in their order, preceded by at most one configured URL; no list holds an
    empty URL, so no list is empty; and the single endpoint the basic
    server uses for a chain is the first endpoint of the enhanced server's
    list for that chain. *)
Theorem endpoint_lists_shape (env : ProcessEnv) :
  (exists custom : list string,
      (length custom <= 1)%nat
      /\ Enhanced.RPC_ENDPOINTS_ethereum env
         = (custom ++ [ "https://eth.llamarpc.com"; "https://rpc.ankr.com/eth";
                        "https://ethereum.publicnode.com" ])%list
      /\ Serverless.RPC_ENDPOINTS_ethereum env
         = (custom ++ [ "https://eth.llamarpc.com"; "https://rpc.ankr.com/eth" ])%list)
  /\ (exists custom : list string,
        (length custom <= 1)%nat
        /\ Enhanced.RPC_ENDPOINTS_sonic env
           = (custom ++ [ "https://rpc.soniclabs.com" ])%list
        /\ Serverless.RPC_ENDPOINTS_sonic env = Enhanced.RPC_ENDPOINTS_sonic env)
  /\ (exists custom : list string,
        (length custom <= 1)%nat
        /\ Enhanced.RPC_ENDPOINTS_plasma env
           = (custom ++ [ "https://rpc.plasma.to"; "https://plasma.drpc.org" ])%list
        /\ Serverless.RPC_ENDPOINTS_plasma env = Enhanced.RPC_ENDPOINTS_plasma env)
  /\ forallb (fun rpcUrl => negb (String.eqb rpcUrl ""))
       (Enhanced.RPC_ENDPOINTS_ethereum env ++ Enhanced.RPC_ENDPOINTS_sonic env
          ++ Enhanced.RPC_ENDPOINTS_plasma env)%list = true
  /\ head (Enhanced.RPC_ENDPOINTS_ethereum env) = Some (Basic.RPC_ENDPOINTS_ethereum env)
  /\ head (Enhanced.RPC_ENDPOINTS_sonic env) = Some (Basic.RPC_ENDPOINTS_sonic env)
  /\ head (Enhanced.RPC_ENDPOINTS_plasma env) = Some (Basic.RPC_ENDPOINTS_plasma env).
Proof. exact (endpoint_lists_structure env). Qed.

Lemma last_app_publics (custom publics : list string) (p : string) :
  last (custom ++ publics ++ [p])%list = Some p.
Proof. now rewrite app_assoc, last_snoc. Qed.

Section FetchErrors.

Context {W : Type} `{Chain W}.

(** X4. When a chain fetch of the enhanced server or of the serverless
    library throws, on the Ethereum, the Sonic or the Plasma list and
    whatever the environment, the error is one that an endpoint attempt
    threw on the last public endpoint of that list: the lists are never
    empty, so the wrapper's own 'All RPC endpoints failed' error is not
    what a caller gets. *)
Theorem chain_fetch_error_origin (env : ProcessEnv) (chainName : string) (w w' : W)
    (e : JsError) :
  (Enhanced.getCirculatingSupplyForChain chainName (Enhanced.RPC_ENDPOINTS_ethereum env) w
   = (Throw e, w') ->
   exists w0 : W,
     fst (Enhanced.chainAttempt chainName "https://ethereum.publicnode.com" w0) = Throw e)
  /\ (Enhanced.getCirculatingSupplyForChain chainName (Enhanced.RPC_ENDPOINTS_sonic env) w
      = (Throw e, w') ->
      exists w0 : W,
        fst (Enhanced.chainAttempt chainName "https://rpc.soniclabs.com" w0) = Throw e)
  /\ (Enhanced.getCirculatingSupplyForChain chainName (Enhanced.RPC_ENDPOINTS_plasma env) w
      = (Throw e, w') ->
      exists w0 : W,
        fst (Enhanced.chainAttempt chainName "https://plasma.drpc.org" w0) = Throw e)
  /\ (Serverless.getCirculatingSupplyForChain chainName
        (Serverless.RPC_ENDPOINTS_ethereum env) w = (Throw e, w') ->
      exists w0 : W,
        fst (Serverless.chainAttempt chainName "https://rpc.ankr.com/eth" w0) = Throw e)
  /\ (Serverless.getCirculatingSupplyForChain chainName
        (Serverless.RPC_ENDPOINTS_sonic env) w = (Throw e, w') ->
      exists w0 : W,
        fst (Serverless.chainAttempt chainName "https://rpc.soniclabs.com" w0) = Throw e)
  /\ (Serverless.getCirculatingSupplyForChain chainName
        (Serverless.RPC_ENDPOINTS_plasma env) w = (Throw e, w') ->
      exists w0 : W,
        fst (Serverless.chainAttempt chainName "https://plasma.drpc.org" w0) = Throw e).
Proof.
  destruct (endpoint_lists_structure env)
    as ((c1 & _ & He & Hs) & (c2 & _ & Hso & Hss) & (c3 & _ & Hp & Hsp) & _).
  rewrite Hss, Hsp.
  assert (Hlast : forall (custom publics : list string) (p : string) (l : list string),
             l = (custom ++ publics ++ [p])%list -> l <> [] /\ last l = Some p).
  { intros custom publics p l ->. split; [|apply last_app_publics].
    destruct custom, publics; discriminate. }
  destruct (Hlast c1 ["https://eth.llamarpc.com"; "https://rpc.ankr.com/eth"]
              "https://ethereum.publicnode.com" _ He) as [Hne1 Hl1].
  destruct (Hlast c2 [] "https://rpc.soniclabs.com" _ Hso) as [Hne2 Hl2].
  destruct (Hlast c3 ["https://rpc.plasma.to"] "https://plasma.drpc.org" _ Hp)
    as [Hne3 Hl3].
  destruct (Hlast c1 ["https://eth.llamarpc.com"] "https://rpc.ankr.com/eth" _ Hs)
    as [Hne4 Hl4].
  unfold Enhanced.getCirculatingSupplyForChain, Serverless.getCirculatingSupplyForChain.
  repeat split; intros Hrun;
    (eapply retry_fallback_error in Hrun;
     [destruct Hrun as (u & w0 & Hu & Hcall); exists w0 | assumption | discriminate]).
  - rewrite Hl1 in Hu. now injection Hu as <-.
  - rewrite Hl2 in Hu. now injection Hu as <-.
  - rewrite Hl3 in Hu. now injection Hu as <-.
  - rewrite Hl4 in Hu. now injection Hu as <-.
  - rewrite Hl2 in Hu. now injection Hu as <-.
  - rewrite Hl3 in Hu. now injection Hu as <-.
Qed.

End FetchErrors.

(** X4 on a run: during a blackout the Ethereum fetch of the enhanced
    server and the Plasma fetch of the serverless library throw an error
    of their last endpoint. *)
Lemma chain_fetch_error_origin_witness :
  (exists (e : JsError) (w0 : Sim.World),
      fst (Enhanced.getCirculatingSupplyForChain "Ethereum"
             (Enhanced.RPC_ENDPOINTS_ethereum Sim.no_env)
             (Sim.blackout (Sim.example_world 1))) = Throw e
      /\ fst (Enhanced.chainAttempt "Ethereum" "https://ethereum.publicnode.com" w0)
         = Throw e)
  /\ (exists (e : JsError) (w0 : Sim.World),
        fst (Serverless.getCirculatingSupplyForChain "Plasma"
               (Serverless.RPC_ENDPOINTS_plasma Sim.no_env)
               (Sim.blackout (Sim.example_world 1))) = Throw e
        /\ fst (Serverless.chainAttempt "Plasma" "https://plasma.drpc.org" w0)
           = Throw e).
Proof.
  split.
  - set (run := Enhanced.getCirculatingSupplyForChain "Ethereum"
                  (Enhanced.RPC_ENDPOINTS_ethereum Sim.no_env)
                  (Sim.blackout (Sim.example_world 1))).
    assert (Hthrow : exists e, fst run = Throw e)
      by (vm_compute; eexists; reflexivity).
    destruct Hthrow as [e Hthrow].
    assert (Hrun : run = (Throw e, snd run)) by (rewrite <- Hthrow; now destruct run).
    destruct (proj1 (chain_fetch_error_origin Sim.no_env "Ethereum"
                       (Sim.blackout (Sim.example_world 1)) (snd run) e) Hrun)
      as [w0 Hcall].
    now exists e, w0.
  - set (run := Serverless.getCirculatingSupplyForChain "Plasma"
                  (Serverless.RPC_ENDPOINTS_plasma Sim.no_env)
                  (Sim.blackout (Sim.example_world 1))).
    assert (Hthrow : exists e, fst run = Throw e)
      by (vm_compute; eexists; reflexivity).
    destruct Hthrow as [e Hthrow].
    assert (Hrun : run = (Throw e, snd run)) by (rewrite <- Hthrow; now destruct run).
    destruct (proj2 (proj2 (proj2 (proj2 (proj2
                (chain_fetch_error_origin Sim.no_env "Plasma"
                   (Sim.blackout (Sim.example_world 1)) (snd run) e))))) Hrun)
      as [w0 Hcall].
    now exists e, w0.
Defined.

(** ** The cache and the handlers of the enhanced server, continued *)

Section MoreHandlerFacts.

Context {W : Type} `{Chain W}.
Variable env : ProcessEnv.
Import Enhanced.

(** X5. Storing and reading back: after [updateCache(key, value)] the key
    reads as that value and is HIT, unless the value is falsy ([null] or
    the empty string), in which case it reads as [null] and is MISS; every
    other key reads and is classified as before. *)
Theorem updateCache_roundtrip (cacheKey other : string) (v : CacheValue) (st : Server W) :
  getCachedValue cacheKey (snd (updateCache cacheKey v st))
  = (if truthy v then v else VNull)
  /\ getCacheStatus cacheKey (snd (updateCache cacheKey v st))
     = (if truthy v then HIT else MISS)
  /\ (other <> cacheKey ->
      getCachedValue other (snd (updateCache cacheKey v st)) = getCachedValue other st
      /\ getCacheStatus other (snd (updateCache cacheKey v st))
         = getCacheStatus other st).
Proof.
  rewrite !getCachedValue_entry, !getCacheStatus_entry.
  cbn [updateCache snd cache world].
  rewrite lookup_insert_eq. cbn [value timestamp]. rewrite Z.sub_diag.
  split; [reflexivity|]. split; [now destruct (truthy v)|].
  intros Hother. now rewrite lookup_insert_ne by congruence.
Qed.

Lemma initial_cache_lookup (cacheKey : string) :
  initial_cache !! cacheKey = None \/ initial_cache !! cacheKey = Some empty_entry.
Proof.
  unfold initial_cache.
  destruct (decide (cacheKey = "circulating")) as [->|H1];
    [right; now rewrite lookup_insert_eq|].
  rewrite lookup_insert_ne by congruence.
  destruct (decide (cacheKey = "total")) as [->|H2];
    [right; now rewrite lookup_insert_eq|].
  rewrite lookup_insert_ne by congruence.
  destruct (decide (cacheKey = "detailed")) as [->|H3];
    [right; now rewrite lookup_insert_eq|].
  rewrite lookup_insert_ne by congruence. now left.
Qed.

(** X6. After POST /api/cache/clear every key is MISS and reads as
    [null]; the background refreshes in flight are kept, not cancelled,
    and the world is untouched. So if the next synchronous fetch of a
    plain-text handler fails, the answer is the text 0 with status 500:
    the value served before the clear is gone. *)
Theorem api_cache_clear_forgets (cacheKey : string) (st : Server W) :
  getCacheStatus cacheKey (api_cache_clear st) = MISS
  /\ getCachedValue cacheKey (api_cache_clear st) = VNull
  /\ inflight (api_cache_clear st) = inflight st
  /\ world (api_cache_clear st) = world st
  /\ forall (st1 : Server W) (e : JsError),
       in_world (getAllChainsCirculatingSupply env) (api_cache_clear st)
       = (Throw e, st1) ->
       api_circulating_supply env (api_cache_clear st)
       = (Return (text_response 500 None None (VString "0")), st1)
       /\ api_total_supply env (api_cache_clear st)
          = (Return (text_response 500 None None (VString "0")), st1).
Proof.
  assert (Hall : forall k, getCacheStatus k (api_cache_clear st) = MISS
                           /\ getCachedValue k (api_cache_clear st) = VNull).
  { intros k. rewrite getCacheStatus_entry, getCachedValue_entry.
    cbn [api_cache_clear cache].
    now destruct (initial_cache_lookup k) as [-> | ->]. }
  split; [apply Hall|]. split; [apply Hall|]. do 2 (split; [reflexivity|]).
  intros st1 e Hfetch. split.
  - rewrite (circulating_fetch_failure env _ st1 e (proj1 (Hall _)) Hfetch).
    now rewrite (proj2 (Hall "circulating")).
  - rewrite (total_fetch_failure env _ st1 e (proj1 (Hall _)) Hfetch).
    now rewrite (proj2 (Hall "total")).
Qed.

(** A response tagged MISS comes out of the [try] block. *)
Lemma circulating_miss_inv (st st' : Server W) (resp : Response) :
  api_circulating_supply env st = (Return resp, st') ->
  x_cache resp = Some "MISS" ->
  circulating_try env st = (Return resp, st').
Proof.
  unfold api_circulating_supply.
  destruct (getCacheStatus "circulating" st).
  - intros [= <- _]. discriminate.
  - intros [= <- _]. discriminate.
  - unfold try_catch, serve_fallback.
    destruct (circulating_try env st) as [[r|e] s1]; [auto|].
    destruct (truthy _); intros [= <- _]; discriminate.
Qed.

Lemma total_miss_inv (st st' : Server W) (resp : Response) :
  api_total_supply env st = (Return resp, st') ->
  x_cache resp = Some "MISS" ->
  total_try env st = (Return resp, st').
Proof.
  unfold api_total_supply.
  destruct (getCacheStatus "total" st).
  - intros [= <- _]. discriminate.
  - intros [= <- _]. discriminate.
  - unfold try_catch, serve_fallback.
    destruct (total_try env st) as [[r|e] s1]; [auto|].
    destruct (truthy _); intros [= <- _]; discriminate.
Qed.

(** The state a successful plain-text fetch leaves, seen later: the two
    plain-text keys are served from the cache as long as the age is below
    [CACHE_TTL]. *)
Lemma served_after_fetch (cache0 : gmap string CacheEntry) (data : SupplyData)
    (c t : string) (w' w2 : W) (refreshes : list Refresh) :
  truthy (VString c) = true ->
  truthy (VString t) = true ->
  now w2 - now w' < CACHE_TTL ->
  let st2 := {| cache := <["detailed" := entry_at (VData data) (now w')]>
                           (<["total" := entry_at (VString t) (now w')]>
                              (<["circulating" := entry_at (VString c) (now w')]> cache0));
                world := w2; inflight := refreshes |} in
  api_circulating_supply env st2
  = (Return (text_response 200 (Some "HIT") (Some ((now w2 - now w') / 1000))
               (VString c)), st2)
  /\ api_total_supply env st2
     = (Return (text_response 200 (Some "HIT") None (VString t)), st2)
  /\ getCacheStatus "detailed" st2 = HIT
  /\ getCachedValue "detailed" st2 = VData data.
Proof.
  intros Hc Ht Hage st2.
  assert (Hlc : cache st2 !! "circulating" = Some (entry_at (VString c) (now w'))).
  { cbn [st2 cache]. do 2 rewrite lookup_insert_ne by discriminate.
    apply lookup_insert_eq. }
  assert (Hlt : cache st2 !! "total" = Some (entry_at (VString t) (now w'))).
  { cbn [st2 cache]. rewrite lookup_insert_ne by discriminate.
    apply lookup_insert_eq. }
  assert (Hld : cache st2 !! "detailed" = Some (entry_at (VData data) (now w')))
    by apply lookup_insert_eq.
  assert (Hfresh : (now (world st2) - now w' <? CACHE_TTL) = true)
    by (apply Z.ltb_lt; exact Hage).
  unfold api_circulating_supply, api_total_supply, age_seconds, timestamp_of.
  rewrite !getCacheStatus_entry, !getCachedValue_entry, Hlc, Hlt, Hld.
  cbn [entry_at value timestamp]. rewrite Hc, Ht, Hfresh.
  cbn [truthy]. auto.
Qed.

(** X7. What the cache check of the test script relies on: when a request
    on /api/circulating-supply was answered from a synchronous fetch (tag
    MISS), a second request made while the clock has advanced by less than
    [CACHE_TTL] is tagged HIT, sends the same text, and calls no chain:
    the world and the cache are left untouched. *)
Theorem circulating_miss_then_hit (st st' : Server W) (resp : Response) (w2 : W) :
  api_circulating_supply env st = (Return resp, st') ->
  x_cache resp = Some "MISS" ->
  now w2 - now (world st') < CACHE_TTL ->
  exists c : string,
    body resp = Send (VString c)
    /\ api_circulating_supply env (at_time w2 st')
       = (Return (text_response 200 (Some "HIT")
                    (Some ((now w2 - now (world st')) / 1000)) (VString c)),
          at_time w2 st').
Proof.
  intros Hreq Htag Hage. apply circulating_miss_inv in Hreq; [|exact Htag].
  destruct (circulating_try_success env st st' resp Hreq)
    as (data & w' & c & t & _ & Hc & Ht & -> & ->).
  exists c. split; [reflexivity|].
  apply formatUnits_truthy in Hc, Ht.
  exact (proj1 (served_after_fetch _ data c t w' w2 _ Hc Ht Hage)).
Qed.

(** X8. The two plain-text endpoints share one fetch: after either of
    them answered from a synchronous fetch, the other one, asked while the
    clock has advanced by less than [CACHE_TTL], is tagged HIT and sends
    the amount formatted from the same data object, the one stored under
    "detailed"; no chain is called. *)
Theorem plain_text_endpoints_share_fetch (st st' : Server W) (resp : Response) (w2 : W) :
  now w2 - now (world st') < CACHE_TTL ->
  (api_circulating_supply env st = (Return resp, st') ->
   x_cache resp = Some "MISS" ->
   exists (data : SupplyData) (t : string),
     getCachedValue "detailed" (at_time w2 st') = VData data
     /\ Ethers.formatUnits (totals_totalSupply (totals data))
          (totals_decimals (totals data)) = Return t
     /\ api_total_supply env (at_time w2 st')
        = (Return (text_response 200 (Some "HIT") None (VString t)), at_time w2 st'))
  /\ (api_total_supply env st = (Return resp, st') ->
      x_cache resp = Some "MISS" ->
      exists (data : SupplyData) (c : string),
        getCachedValue "detailed" (at_time w2 st') = VData data
        /\ Ethers.formatUnits (totals_circulatingSupply (totals data))
             (totals_decimals (totals data)) = Return c
        /\ api_circulating_supply env (at_time w2 st')
           = (Return (text_response 200 (Some "HIT")
                        (Some ((now w2 - now (world st')) / 1000)) (VString c)),
              at_time w2 st')).
Proof.
  intros Hage. split; intros Hreq Htag.
  - apply circulating_miss_inv in Hreq; [|exact Htag].
    destruct (circulating_try_success env st st' resp Hreq)
      as (data & w' & c & t & _ & Hc & Ht & -> & ->).
    exists data, t. pose proof Hc as Hc'. pose proof Ht as Ht'.
    apply formatUnits_truthy in Hc', Ht'.
    destruct (served_after_fetch (cache st) data c t w' w2 (inflight st) Hc' Ht' Hage)
      as (_ & Htotal & _ & Hdet).
    auto.
  - apply total_miss_inv in Hreq; [|exact Htag].
    destruct (total_try_success env st st' resp Hreq)
      as (data & w' & c & t & _ & Hc & Ht & -> & ->).
    exists data, c. pose proof Hc as Hc'. pose proof Ht as Ht'.
    apply formatUnits_truthy in Hc', Ht'.
    destruct (served_after_fetch (cache st) data c t w' w2 (inflight st) Hc' Ht' Hage)
      as (Hcirc & _ & _ & Hdet).
    auto.
Qed.

(** X9. The two plain-text handlers always answer, with content type
    text/plain, in one of two shapes: status 200 with a non-empty value
    and one of the tags HIT, STALE, MISS, ERROR-FALLBACK; or status 500 with
    the text 0 and no tag. No request makes them throw or send an empty
    body. *)
Theorem plain_text_response_shape (st : Server W) :
  let shaped (r : Completion Response * Server W) :=
    exists (resp : Response) (st' : Server W),
      r = (Return resp, st')
      /\ content_type resp = "text/plain"
      /\ ((status resp = 200
           /\ (exists v : CacheValue, body resp = Send v /\ truthy v = true)
           /\ exists tag : string,
                x_cache resp = Some tag
                /\ tag ∈ ["HIT"; "STALE"; "MISS"; "ERROR-FALLBACK"])
          \/ (status resp = 500
              /\ body resp = Send (VString "0") /\ x_cache resp = None)) in
  shaped (api_circulating_supply env st) /\ shaped (api_total_supply env st).
Proof.
  assert (Htag : forall tag : string,
             tag ∈ ["HIT"; "STALE"; "MISS"; "ERROR-FALLBACK"] ->
             forall v age, truthy v = true ->
               (status (text_response 200 (Some tag) age v) = 200
                /\ (exists v0, body (text_response 200 (Some tag) age v) = Send v0
                               /\ truthy v0 = true)
                /\ exists tag0, x_cache (text_response 200 (Some tag) age v) = Some tag0
                                /\ tag0 ∈ ["HIT"; "STALE"; "MISS"; "ERROR-FALLBACK"])
               \/ (status (text_response 200 (Some tag) age v) = 500
                   /\ body (text_response 200 (Some tag) age v) = Send (VString "0")
                   /\ x_cache (text_response 200 (Some tag) age v) = None)).
  { intros tag Hin v age Hv. left. cbn. eauto 8. }
  assert (Hfallback : forall (k : string) (e : JsError) (s : Server W),
             exists resp st',
               serve_fallback k e s = (Return resp, st')
               /\ content_type resp = "text/plain"
               /\ ((status resp = 200
                    /\ (exists v, body resp = Send v /\ truthy v = true)
                    /\ exists tag, x_cache resp = Some tag
                                   /\ tag ∈ ["HIT"; "STALE"; "MISS"; "ERROR-FALLBACK"])
                   \/ (status resp = 500
                       /\ body resp = Send (VString "0") /\ x_cache resp = None))).
  { intros k e s. unfold serve_fallback.
    destruct (truthy (getCachedValue k s)) eqn:Hv.
    - do 2 eexists. split; [reflexivity|]. split; [reflexivity|].
      apply Htag; [set_solver | exact Hv].
    - do 2 eexists. split; [reflexivity|]. split; [reflexivity|]. right. now cbn. }
  intros shaped. subst shaped. cbv beta.
  split.
  - unfold api_circulating_supply.
    destruct (getCacheStatus "circulating" st) eqn:Hstatus.
    + do 2 eexists. split; [reflexivity|]. split; [reflexivity|].
      apply Htag; [set_solver|]. apply cached_value_truthy. congruence.
    + do 2 eexists. split; [reflexivity|]. split; [reflexivity|].
      apply Htag; [set_solver|]. apply cached_value_truthy. congruence.
    + unfold try_catch.
      destruct (circulating_try env st) as [[resp|e] s1] eqn:Htry; [|apply Hfallback].
      destruct (circulating_try_success env st s1 resp Htry)
        as (data & w' & c & t & _ & Hc & _ & _ & ->).
      do 2 eexists. split; [reflexivity|]. split; [reflexivity|].
      apply Htag; [set_solver|]. eapply formatUnits_truthy, Hc.
  - unfold api_total_supply.
    destruct (getCacheStatus "total" st) eqn:Hstatus.
    + do 2 eexists. split; [reflexivity|]. split; [reflexivity|].
      apply Htag; [set_solver|]. apply cached_value_truthy. congruence.
    + do 2 eexists. split; [reflexivity|]. split; [reflexivity|].
      apply Htag; [set_solver|]. apply cached_value_truthy. congruence.
    + unfold try_catch.
      destruct (total_try env st) as [[resp|e] s1] eqn:Htry; [|apply Hfallback].
      destruct (total_try_success env st s1 resp Htry)
        as (data & w' & c & t & _ & _ & Ht & _ & ->).
      do 2 eexists. split; [reflexivity|]. split; [reflexivity|].
      apply Htag; [set_solver|]. eapply formatUnits_truthy, Ht.
Qed.

(** X10. /api/circulating-supply sends the X-Cache-Age header exactly
    with the answers it tags HIT or STALE, those it takes from the cache
    without a fetch; /api/total-supply never sends it. *)
Theorem x_cache_age_sent_from_cache (st st' : Server W) (resp : Response) :
  (api_circulating_supply env st = (Return resp, st') ->
   (is_Some (x_cache_age resp)
    <-> x_cache resp = Some "HIT" \/ x_cache resp = Some "STALE"))
  /\ (api_total_supply env st = (Return resp, st') -> x_cache_age resp = None).
Proof.
  split.
  - unfold api_circulating_supply.
    destruct (getCacheStatus "circulating" st) eqn:Hstatus.
    + intros [= <- _]. cbn. split; [now left | intros _; eexists; reflexivity].
    + intros [= <- _]. cbn. split; [now right | intros _; eexists; reflexivity].
    + unfold try_catch, serve_fallback. intros Hreq.
      destruct (circulating_try env st) as [[r|e] s1] eqn:Htry.
      * destruct (circulating_try_success env st s1 r Htry)
          as (_ & _ & c & _ & _ & _ & _ & _ & ->).
        injection Hreq as <- _. cbn.
        split; [intros [age Hage]; discriminate | intros [Htag|Htag]; discriminate].
      * destruct (truthy _); injection Hreq as <- _; cbn;
          (split; [intros [age Hage]; discriminate
                  | intros [Htag|Htag]; discriminate]).
  - unfold api_total_supply.
    destruct (getCacheStatus "total" st) eqn:Hstatus.
    + now intros [= <- _].
    + now intros [= <- _].
    + unfold try_catch, serve_fallback. intros Hreq.
      destruct (total_try env st) as [[r|e] s1] eqn:Htry.
      * destruct (total_try_success env st s1 r Htry)
          as (_ & _ & c & t & _ & _ & _ & _ & ->).
        now injection Hreq as <- _.
      * destruct (truthy _); now injection Hreq as <- _.
Qed.

(** X11. A failed synchronous fetch of a plain-text handler is answered
    from the [catch] block whatever the age of the entry: the cached value
    with the tag ERROR-FALLBACK when there is one, the text 0 with status
    500 when there is none; the cache is left as it was. *)
Theorem plain_text_fetch_failure (st st1 : Server W) (e : JsError) :
  in_world (getAllChainsCirculatingSupply env) st = (Throw e, st1) ->
  cache st1 = cache st
  /\ (getCacheStatus "circulating" st = MISS ->
      api_circulating_supply env st
      = (Return (if truthy (getCachedValue "circulating" st)
                 then text_response 200 (Some "ERROR-FALLBACK") None
                        (getCachedValue "circulating" st)
                 else text_response 500 None None (VString "0")), st1))
  /\ (getCacheStatus "total" st = MISS ->
      api_total_supply env st
      = (Return (if truthy (getCachedValue "total" st)
                 then text_response 200 (Some "ERROR-FALLBACK") None
                        (getCachedValue "total" st)
                 else text_response 500 None None (VString "0")), st1)).
Proof.
  intros Hfetch. split.
  - rewrite in_world_state in Hfetch. now injection Hfetch as _ <-.
  - split; intros Hmiss.
    + exact (circulating_fetch_failure env st st1 e Hmiss Hfetch).
    + exact (total_fetch_failure env st st1 e Hmiss Hfetch).
Qed.

(** X12. A background refresh whose fetch (called in the request, so with
    the start time of the request) and whose formatting succeed settles by
    storing the three entries from its data with the time of its
    completion, and leaves the other refreshes in flight; the three keys
    are then HIT. *)
Theorem settle_refresh_success (st st1 : Server W) (r : Refresh) (rest : list Refresh)
    (data : SupplyData) (c t : string) :
  inflight st = r :: rest ->
  in_world (getAllChainsCirculatingSupply_since env (refresh_startTime r))
    {| cache := cache st; world := world st; inflight := rest |} = (Return data, st1) ->
  Ethers.formatUnits (totals_circulatingSupply (totals data))
    (totals_decimals (totals data)) = Return c ->
  Ethers.formatUnits (totals_totalSupply (totals data))
    (totals_decimals (totals data)) = Return t ->
  settle_refresh env st
  = {| cache := <["detailed" := entry_at (VData data) (now (world st1))]>
                  (<["total" := entry_at (VString t) (now (world st1))]>
                     (<["circulating" := entry_at (VString c) (now (world st1))]>
                        (cache st)));
       world := world st1; inflight := rest |}
  /\ getCacheStatus "circulating" (settle_refresh env st) = HIT
  /\ getCacheStatus "total" (settle_refresh env st) = HIT
  /\ getCacheStatus "detailed" (settle_refresh env st) = HIT.
Proof.
  intros Hin Hfetch Hc Ht.
  assert (Hsettle : settle_refresh env st
                    = {| cache := <["detailed" := entry_at (VData data) (now (world st1))]>
                                    (<["total" := entry_at (VString t) (now (world st1))]>
                                       (<["circulating" :=
                                            entry_at (VString c) (now (world st1))]>
                                          (cache st)));
                         world := world st1; inflight := rest |}).
  { unfold settle_refresh. rewrite Hin.
    unfold refresh_promise, try_catch, bind at 1. rewrite Hfetch.
    rewrite in_world_state in Hfetch. injection Hfetch as _ <-.
    unfold refresh_then, bind, formatSupply, updateCache.
    cbn [cache world inflight]. rewrite Hc. cbn [cache world inflight]. rewrite Ht.
    reflexivity. }
  split; [exact Hsettle|]. rewrite Hsettle.
  apply formatUnits_truthy in Hc, Ht.
  repeat apply conj; rewrite getCacheStatus_entry; cbn [cache world].
  - do 2 rewrite lookup_insert_ne by discriminate. rewrite lookup_insert_eq.
    cbn [entry_at value timestamp]. now rewrite Hc, Z.sub_diag.
  - rewrite lookup_insert_ne by discriminate. rewrite lookup_insert_eq.
    cbn [entry_at value timestamp]. now rewrite Ht, Z.sub_diag.
  - rewrite lookup_insert_eq.
    cbn [entry_at value timestamp truthy]. now rewrite Z.sub_diag.
Qed.

Lemma formatDetailedResponse_inv (data : SupplyData) (st s : Server W)
    (response : DetailedResponse) :
  formatDetailedResponse data st = (Return response, s) ->
  exists t x c : string,
    Ethers.formatUnits (totals_totalSupply (totals data))
      (totals_decimals (totals data)) = Return t
    /\ Ethers.formatUnits (totals_circulatingSupply (totals data))
         (totals_decimals (totals data)) = Return c
    /\ dr_totals response = mkFormattedChain t x c
    /\ dr_decimals response = totals_decimals (totals data)
    /\ dr_circulatingAge response = age_or_none "circulating" st
    /\ dr_totalAge response = age_or_none "total" st
    /\ dr_detailedAge response = age_or_none "detailed" st.
Proof.
  unfold formatDetailedResponse, formatChain, formatSupply, bind, ret.
  repeat match goal with
         | |- context [match Ethers.formatUnits ?v ?d with _ => _ end] =>
             let E := fresh "E" in
             destruct (Ethers.formatUnits v d) eqn:E; try discriminate
         end.
  intros [= <- _]. cbn. eauto 10.
Qed.

(** X13. The detailed handler stores the fetched data before it formats
    it. When the data cannot be formatted, the request is answered with
    status 500 and the message of the formatting error, yet the data stays
    cached: every detailed request made while that entry is HIT or STALE
    formats it outside the [try] block and throws instead of answering. *)
Theorem detailed_caches_unformattable_data (st st1 : Server W) (data : SupplyData)
    (e : JsError) :
  getCacheStatus "detailed" st = MISS ->
  in_world (getAllChainsCirculatingSupply env) st = (Return data, st1) ->
  (forall s : Server W, fst (formatDetailedResponse data s) = Throw e) ->
  exists st2 : Server W,
    api_circulating_supply_detailed env st
    = (Return (json_response 500 None (JsonError (err_message e))), st2)
    /\ getCachedValue "detailed" st2 = VData data
    /\ getCacheStatus "detailed" st2 = HIT
    /\ forall w3 : W,
         now w3 - now (world st2) < STALE_WHILE_REVALIDATE ->
         fst (api_circulating_supply_detailed env (at_time w3 st2)) = Throw e.
Proof.
  intros Hmiss Hfetch Hformat.
  set (st2 := {| cache := <["detailed" := entry_at (VData data) (now (world st1))]>
                            (cache st1);
                 world := world st1; inflight := inflight st1 |}).
  exists st2.
  assert (Hlook : cache st2 !! "detailed"
                  = Some (entry_at (VData data) (now (world st1))))
    by apply lookup_insert_eq.
  split; [|split; [|split]].
  - unfold api_circulating_supply_detailed. rewrite Hmiss.
    unfold detailed_fetch, try_catch, detailed_try, bind at 1. rewrite Hfetch.
    unfold bind, updateCache.
    match goal with
    | |- context [formatDetailedResponse data ?s] => change s with st2
    end.
    pose proof (Hformat st2) as Hthrow.
    pose proof (formatDetailedResponse_state data st2) as Hstate.
    destruct (formatDetailedResponse data st2) as [r s]. cbn [fst snd] in *.
    now subst.
  - rewrite getCachedValue_entry. now rewrite Hlook.
  - rewrite getCacheStatus_entry. rewrite Hlook.
    cbn [entry_at value timestamp truthy st2 world]. now rewrite Z.sub_diag.
  - intros w3 Hage. unfold api_circulating_supply_detailed.
    rewrite getCacheStatus_entry, getCachedValue_entry.
    change (cache (at_time w3 st2)) with (cache st2). rewrite Hlook.
    cbn [entry_at value timestamp truthy at_time world st2] in *.
    assert (Hstale : (now w3 - now (world st1) <? STALE_WHILE_REVALIDATE) = true)
      by (apply Z.ltb_lt; exact Hage).
    rewrite Hstale. unfold bind.
    pose proof (Hformat {| cache := cache st2; world := w3; inflight := inflight st2 |})
      as Hthrow.
    destruct (now w3 - now (world st1) <? CACHE_TTL);
      destruct (formatDetailedResponse data _) as [r s]; cbn [fst] in *; now subst.
Qed.

(** X14. After the circulating-supply handler answered from a synchronous
    fetch, a detailed request that is answered while the clock has advanced
    by less than [CACHE_TTL] is a HIT built from the cache: no chain is
    called, and its totals are the texts of the plain-text endpoints: the
    circulating supply is the text that request sent, the total supply the
    text cached for /api/total-supply. *)
Theorem detailed_hit_after_circulating (st st' s2 : Server W) (resp r : Response)
    (w2 : W) :
  circulating_try env st = (Return resp, st') ->
  now w2 - now (world st') < CACHE_TTL ->
  api_circulating_supply_detailed env (at_time w2 st') = (Return r, s2) ->
  s2 = at_time w2 st'
  /\ exists (response : DetailedResponse) (t x c : string),
       r = json_response 200 (Some "HIT") (JsonDetailed response)
       /\ dr_totals response = mkFormattedChain t x c
       /\ body resp = Send (VString c)
       /\ getCachedValue "circulating" (at_time w2 st') = VString c
       /\ getCachedValue "total" (at_time w2 st') = VString t.
Proof.
  intros Htry Hage Hreq.
  destruct (circulating_try_success env st st' resp Htry)
    as (data & w' & c & t & _ & Hc & Ht & -> & ->).
  pose proof Hc as Hc'. pose proof Ht as Ht'.
  apply formatUnits_truthy in Hc', Ht'.
  destruct (served_after_fetch (cache st) data c t w' w2 (inflight st) Hc' Ht' Hage)
    as (_ & _ & Hhit & Hval).
  cbn [world] in Hage.
  unfold api_circulating_supply_detailed in Hreq.
  change (at_time w2 _) with
    {| cache := <["detailed" := entry_at (VData data) (now w')]>
                  (<["total" := entry_at (VString t) (now w')]>
                     (<["circulating" := entry_at (VString c) (now w')]> (cache st)));
       world := w2; inflight := inflight st |} in *.
  rewrite Hhit, Hval in Hreq. unfold bind, ret in Hreq.
  match type of Hreq with
  | context [formatDetailedResponse data ?s] =>
      pose proof (formatDetailedResponse_state data s) as Hstate;
      destruct (formatDetailedResponse data s) as [[response|e] s3] eqn:Hfmt;
      [|discriminate]
  end.
  cbn [snd] in Hstate. subst s3. injection Hreq as <- <-.
  split; [reflexivity|].
  destruct (formatDetailedResponse_inv _ _ _ _ Hfmt)
    as (t0 & x & c0 & Ht0 & Hc0 & Htot & _).
  rewrite Hc in Hc0. injection Hc0 as <-.
  rewrite Ht in Ht0. injection Ht0 as <-.
  exists response, t, x, c. split; [reflexivity|]. split; [exact Htot|].
  split; [reflexivity|].
  rewrite !getCachedValue_entry. cbn [cache].
  repeat (rewrite lookup_insert_eq || rewrite lookup_insert_ne by discriminate).
  cbn [entry_at value]. now rewrite Hc', Ht'.
Qed.

End MoreHandlerFacts.

(** ** Global snapshots *)

Section GlobalFacts.

Context {W : Type} `{Chain W}.
Variable env : ProcessEnv.

Lemma snapshot_of_reads_exact (excluded rpcUrls : list string) (chainName : string)
    (snap : ChainSupply) :
  snapshot_of_reads excluded rpcUrls chainName snap ->
  chain snap = chainName
  /\ circulatingSupply snap = totalSupply snap - excludedBalance snap.
Proof. intros (Hname & Hcirc & _). auto. Qed.

Lemma enhanced_chain_value (chainName : string) (rpcUrls : list string) (w w' : W)
    (snap : ChainSupply) :
  Enhanced.getCirculatingSupplyForChain chainName rpcUrls w = (Return (Value snap), w') ->
  chain snap = chainName
  /\ circulatingSupply snap = totalSupply snap - excludedBalance snap.
Proof.
  intros Hrun. unfold Enhanced.getCirculatingSupplyForChain in Hrun.
  destruct (retry_fallback_value _ _ _ _ _ _ _ Hrun) as (u & w0 & _ & Hcall).
  eapply snapshot_of_reads_exact, enhanced_chainAttempt_reads, Hcall.
Qed.

Lemma serverless_chain_value (chainName : string) (rpcUrls : list string) (w w' : W)
    (snap : ChainSupply) :
  Serverless.getCirculatingSupplyForChain chainName rpcUrls w
  = (Return (Value snap), w') ->
  chain snap = chainName
  /\ circulatingSupply snap = totalSupply snap - excludedBalance snap.
Proof.
  intros Hrun. unfold Serverless.getCirculatingSupplyForChain in Hrun.
  destruct (retry_fallback_value _ _ _ _ _ _ _ Hrun) as (u & w0 & _ & Hcall).
  eapply snapshot_of_reads_exact, serverless_chainAttempt_reads, Hcall.
Qed.

Lemma basic_chain_value (chainName rpcUrl : string) (w w' : W) (snap : ChainSupply) :
  Basic.getCirculatingSupplyForChain chainName rpcUrl w = (Return snap, w') ->
  chain snap = chainName
  /\ circulatingSupply snap = totalSupply snap - excludedBalance snap.
Proof.
  unfold Basic.getCirculatingSupplyForChain, Basic.getTotalSupply,
    Basic.getExcludedBalance, bind, ret.
  destruct (contract_totalSupply rpcUrl TOKEN_ADDRESS w) as [[total|e] w1];
    [|discriminate].
  destruct (promise_all _ w1) as [[balances|e] w2]; [|discriminate].
  intros [= <- _]. auto.
Qed.

(** X15. A data object returned by the global fetch of the enhanced or of
    the basic server holds the three chains under their names, each with
    circulating = total - excluded, and totals that are the sums over the
    three chains; so the global circulating supply is the global total
    minus the global excluded balance. In the enhanced server the fetch
    duration is the clock difference over the fetch. *)
Theorem global_totals_are_sums (w w' : W) (data : SupplyData) :
  let summed (d : SupplyData) :=
    let e := ethereum (chains d) in
    let s := sonic (chains d) in
    let p := plasma (chains d) in
    chain e = "Ethereum" /\ chain s = "Sonic" /\ chain p = "Plasma"
    /\ circulatingSupply e = totalSupply e - excludedBalance e
    /\ circulatingSupply s = totalSupply s - excludedBalance s
    /\ circulatingSupply p = totalSupply p - excludedBalance p
    /\ totals_circulatingSupply (totals d)
       = circulatingSupply e + circulatingSupply s + circulatingSupply p
    /\ totals_totalSupply (totals d) = totalSupply e + totalSupply s + totalSupply p
    /\ totals_excludedBalance (totals d)
       = excludedBalance e + excludedBalance s + excludedBalance p
    /\ totals_circulatingSupply (totals d)
       = totals_totalSupply (totals d) - totals_excludedBalance (totals d) in
  (Enhanced.getAllChainsCirculatingSupply env w = (Return data, w') ->
   summed data
   /\ (metadata_fetchDuration <$> metadata data) = Some (now w' - now w))
  /\ (Basic.getAllChainsCirculatingSupply env w = (Return data, w') ->
      summed data /\ metadata data = None).
Proof.
  intros summed. subst summed. cbv beta zeta. split.
  - unfold Enhanced.getAllChainsCirculatingSupply,
      Enhanced.getAllChainsCirculatingSupply_since, bind.
    destruct (promise_all _ w) as [[results|e] w3] eqn:Hall; [|discriminate].
    apply promise_all_three in Hall as (r1 & r2 & r3 & w1 & w2 & H1 & H2 & H3 & ->).
    destruct r1 as [s1|], r2 as [s2|], r3 as [s3|];
      cbn [destructure3 lookup list_lookup default from_option];
      destruct (retryWithBackoff _ _ _ _ w3) as [[[d|]|ed] w4];
      cbn [property_of ret throw]; try discriminate.
    intros [= <- <-]. cbn.
    apply enhanced_chain_value in H1, H2, H3.
    destruct H1 as [? ?], H2 as [? ?], H3 as [? ?].
    repeat split; try assumption; try reflexivity; lia.
  - unfold Basic.getAllChainsCirculatingSupply, bind.
    destruct (promise_all _ w) as [[results|e] w3] eqn:Hall; [|discriminate].
    apply promise_all_three in Hall as (s1 & s2 & s3 & w1 & w2 & H1 & H2 & H3 & ->).
    cbn [destructure3 fmap list_fmap lookup list_lookup default from_option].
    destruct (Basic.getDecimals _ _ w3) as [[d|ed] w4];
      cbn [property_of ret throw]; [|discriminate].
    intros [= <- <-]. cbn.
    apply basic_chain_value in H1, H2, H3.
    destruct H1 as [? ?], H2 as [? ?], H3 as [? ?].
    repeat split; try assumption; try reflexivity; lia.
Qed.

(** X16. In the serverless library the global circulating supply and the
    global excluded balance are sums over the three chains, but the global
    total supply is the total supply of Sonic alone. So the reported
    circulating supply plus the reported excluded balance equals the
    reported total plus the total supplies of Ethereum and Plasma. *)
Theorem serverless_total_is_sonic (w w' : W) (data : SupplyData) :
  Serverless.getAllChainsCirculatingSupply env w = (Return data, w') ->
  let e := ethereum (chains data) in
  let s := sonic (chains data) in
  let p := plasma (chains data) in
  chain e = "Ethereum" /\ chain s = "Sonic" /\ chain p = "Plasma"
  /\ totals_totalSupply (totals data) = totalSupply s
  /\ totals_circulatingSupply (totals data)
     = circulatingSupply e + circulatingSupply s + circulatingSupply p
  /\ totals_excludedBalance (totals data)
     = excludedBalance e + excludedBalance s + excludedBalance p
  /\ totals_circulatingSupply (totals data) + totals_excludedBalance (totals data)
     = totals_totalSupply (totals data) + totalSupply e + totalSupply p.
Proof.
  unfold Serverless.getAllChainsCirculatingSupply, bind.
  destruct (promise_all _ w) as [[results|e] w3] eqn:Hall; [|discriminate].
  apply promise_all_three in Hall as (r1 & r2 & r3 & w1 & w2 & H1 & H2 & H3 & ->).
  destruct r1 as [s1|], r2 as [s2|], r3 as [s3|];
    cbn [destructure3 lookup list_lookup default from_option];
    destruct (retryWithBackoff _ _ _ _ w3) as [[[d|]|ed] w4];
    cbn [property_of ret throw]; try discriminate.
  intros [= <- <-]. cbn.
  apply serverless_chain_value in H1, H2, H3.
  destruct H1 as [? ?], H2 as [? ?], H3 as [? ?].
  repeat split; try assumption; try reflexivity; lia.
Qed.

End GlobalFacts.

(** ** The text of a supply figure *)

Section NumberFacts.

Import Ethers TestApi.

Lemma string_of_uint_digits (d : Decimal.uint) :
  Forall (fun c => is_digit c = true)
    (list_ascii_of_string (NilEmpty.string_of_uint d)).
Proof. induction d; cbn; constructor; auto. Qed.

Lemma bigint_digits_digits (val : Z) :
  Forall (fun c => is_digit c = true) (bigint_digits val).
Proof.
  unfold bigint_digits, NilZero.string_of_uint.
  destruct (N.to_uint (Z.to_N val)) eqn:Hd;
    try (rewrite <- Hd; apply string_of_uint_digits).
  cbn. constructor; auto.
Qed.

Lemma digits_prefix_all (l : list ascii) :
  Forall (fun c => is_digit c = true) l -> digits_prefix l = (l, []).
Proof.
  induction 1 as [|c l Hc _ IH]; cbn; [reflexivity|].
  now rewrite Hc, IH.
Qed.

Lemma digits_prefix_dot (whole frac : list ascii) :
  Forall (fun c => is_digit c = true) whole ->
  digits_prefix (whole ++ "."%char :: frac)%list = (whole, "."%char :: frac).
Proof.
  induction 1 as [|c l Hc _ IH]; [reflexivity|].
  cbn [app digits_prefix]. now rewrite Hc, IH.
Qed.

Lemma isNumber_digits (l : list ascii) :
  Forall (fun c => is_digit c = true) l -> l <> [] ->
  isNumber (string_of_list_ascii l) = true.
Proof.
  intros Hl Hne. unfold isNumber.
  rewrite list_ascii_of_string_of_list_ascii, (digits_prefix_all _ Hl).
  destruct l; [contradiction|reflexivity].
Qed.

Lemma isNumber_decimal (whole frac : list ascii) :
  Forall (fun c => is_digit c = true) whole -> whole <> [] ->
  Forall (fun c => is_digit c = true) frac -> frac <> [] ->
  isNumber (string_of_list_ascii (whole ++ "."%char :: frac)%list) = true.
Proof.
  intros Hw Hwne Hf Hfne. unfold isNumber.
  rewrite list_ascii_of_string_of_list_ascii, (digits_prefix_dot _ _ Hw).
  destruct whole; [contradiction|]. destruct frac; [contradiction|].
  cbn [nonempty andb]. rewrite Ascii.eqb_refl. cbn [andb].
  apply forallb_forall. intros c Hin.
  rewrite Forall_forall in Hf. apply Hf. now apply list_elem_of_In.
Qed.

Lemma isNumber_minus (s : string) : isNumber ("-" +:+ s) = false.
Proof. reflexivity. Qed.

Lemma digit_not_dot (c : ascii) : is_digit c = true -> Ascii.eqb c "." = false.
Proof.
  intros Hc. destruct (Ascii.eqb_spec c "."%char) as [->|]; [discriminate|reflexivity].
Qed.

Lemma pad_whole_digits (fuel : nat) (decimals : Z) (str : list ascii) :
  Forall (fun c => is_digit c = true) str ->
  Forall (fun c => is_digit c = true) (pad_whole fuel decimals str).
Proof.
  revert str. induction fuel as [|fuel IH]; intros str Hs; cbn; [assumption|].
  destruct (Z.of_nat (length str) <=? decimals); [|assumption].
  apply IH. repeat constructor; auto.
Qed.

Lemma pad_whole_length (fuel : nat) (decimals : Z) (str : list ascii) :
  decimals < Z.of_nat (length str) + 4 * Z.of_nat fuel ->
  decimals < Z.of_nat (length (pad_whole fuel decimals str)).
Proof.
  revert str. induction fuel as [|fuel IH]; intros str Hlen; cbn [pad_whole].
  - lia.
  - destruct (Z.leb_spec (Z.of_nat (length str)) decimals); [|lia].
    apply IH. rewrite length_app. cbn [Zeros list_ascii_of_string length]. lia.
Qed.

Lemma trim_whole_shape (whole rest : list ascii) :
  Forall (fun c => is_digit c = true) whole -> whole <> [] ->
  exists whole',
    whole' <> [] /\ Forall (fun c => is_digit c = true) whole'
    /\ trim_whole (whole ++ "."%char :: rest)%list = (whole' ++ "."%char :: rest)%list.
Proof.
  induction 1 as [|c l Hc Hl IH]; intros Hne; [contradiction|].
  cbn [app trim_whole].
  destruct l as [|c2 l2].
  - exists [c]. cbn [app starts_with_dot]. rewrite Ascii.eqb_refl. cbn [negb].
    rewrite andb_false_r. repeat split; auto; discriminate.
  - cbn [app starts_with_dot].
    rewrite (digit_not_dot c2) by (now inversion Hl). cbn [negb].
    rewrite andb_true_r.
    destruct (Ascii.eqb c "0").
    + destruct IH as (whole' & ? & ? & IH); [discriminate|].
      exists whole'. cbn [app] in IH. auto.
    + exists (c :: c2 :: l2). repeat split; auto; discriminate.
Qed.

Lemma fixed_text_shape (whole frac : list ascii) :
  Forall (fun c => is_digit c = true) whole -> whole <> [] ->
  Forall (fun c => is_digit c = true) frac -> frac <> [] ->
  exists whole' frac',
    whole' <> [] /\ Forall (fun c => is_digit c = true) whole'
    /\ frac' <> [] /\ Forall (fun c => is_digit c = true) frac'
    /\ trim_decimal (trim_whole (whole ++ "."%char :: frac)%list)
       = (whole' ++ "."%char :: frac')%list.
Proof.
  intros Hw Hwne Hf Hfne.
  destruct (trim_whole_shape whole frac Hw Hwne) as (whole' & Hne' & Hw' & ->).
  unfold trim_decimal.
  rewrite rev_app_distr. cbn [rev]. rewrite <- app_assoc. cbn [app].
  destruct (trim_whole_shape (rev frac) (rev whole')) as (f & Hfne' & Hf' & ->).
  { now apply Forall_rev. }
  { intros Hr. apply (f_equal (@rev ascii)) in Hr. rewrite rev_involutive in Hr.
    auto. }
  exists whole', (rev f).
  rewrite rev_app_distr. cbn [rev]. rewrite rev_involutive, <- app_assoc.
  cbn [app]. repeat split; auto.
  - intros Hr. apply (f_equal (@rev ascii)) in Hr. rewrite rev_involutive in Hr.
    auto.
  - now apply Forall_rev.
Qed.

Lemma fixed_toString_number (value decimals : Z) :
  0 <= value -> 0 <= decimals ->
  isNumber (fixed_toString value decimals) = true.
Proof.
  intros Hv Hd. unfold fixed_toString.
  destruct (Z.ltb_spec value 0); [lia|].
  assert (Hdig := bigint_digits_digits (Z.abs value)).
  assert (Hne := bigint_digits_nonempty (Z.abs value)).
  destruct (Z.eqb_spec decimals 0).
  - now apply isNumber_digits.
  - set (str := pad_whole _ _ _).
    assert (Hstr : Forall (fun c => is_digit c = true) str)
      by now apply pad_whole_digits.
    assert (Hlen : decimals < Z.of_nat (length str)).
    { apply pad_whole_length. lia. }
    set (index := Z.to_nat _).
    destruct (fixed_text_shape (take index str) (drop index str))
      as (whole' & frac' & ? & ? & ? & ? & ->).
    + now apply Forall_take.
    + intros Ht. apply (f_equal (@length ascii)) in Ht.
      rewrite length_take in Ht. cbn in Ht. subst index. lia.
    + now apply Forall_drop.
    + intros Ht. apply (f_equal (@length ascii)) in Ht.
      rewrite length_drop in Ht. cbn in Ht. subst index. lia.
    + now apply isNumber_decimal.
Qed.

(** X17. The text that [formatSupply] gives for a non-negative amount
    with 0 to 80 decimals is accepted by the number test of the test
    script (digits, optionally a point and more digits), as is the
    ["0"] that the handlers send on an error. A negative amount, which
    a chain reports when the excluded balances exceed its total supply,
    is formatted with a leading minus sign, and the test rejects it. *)
Theorem formatSupply_text_is_number (value decimals : Z) :
  - 2 ^ 511 <= value < 2 ^ 511 -> 0 <= decimals <= 80 ->
  exists text,
    (forall (S : Type) (s : S),
        @Enhanced.formatSupply S value decimals s = (Return text, s))
    /\ isNumber text = (0 <=? value)
    /\ isNumber "0" = true.
Proof.
  intros Hv Hd. exists (fixed_toString value decimals).
  split; [|split; [|reflexivity]].
  - intros S s. unfold Enhanced.formatSupply, formatUnits.
    destruct (Z.ltb_spec 80 decimals); [lia|].
    destruct (Z.ltb_spec value (- 2 ^ 511)); [lia|].
    destruct (Z.leb_spec (2 ^ 511) value); [lia|]. reflexivity.
  - destruct (Z.leb_spec 0 value).
    + apply fixed_toString_number; lia.
    + unfold fixed_toString. destruct (Z.ltb_spec value 0); [|lia].
      destruct (decimals =? 0); apply isNumber_minus.
Qed.

End NumberFacts.

(** ** The serverless functions and the basic server *)

Section PlainHandlers.

Context {W : Type} `{Chain W}.
Variable env : ProcessEnv.

(** X18. A serverless function always answers and never throws. A
    method other than GET is refused with 405 before any chain is read,
    so the world is left as it was. A GET answers 200 with the formatted
    figure of a fetch that succeeded, and 500 with the text ["0"] when
    the fetch or the formatting failed; either way the world is the one
    the fetch left. *)
Theorem serverless_functions_answer (method : string) (w : W) :
  let fetch := Serverless.getAllChainsCirculatingSupply env w in
  let answers (handler : string -> Op W Serverless.Response) (field : Totals -> Z) :=
    exists resp,
      handler method w
      = (Return resp, if String.eqb method "GET" then snd fetch else w)
      /\ if String.eqb method "GET"
         then Serverless.content_type resp = Some "text/plain"
              /\ ((Serverless.status resp = 200
                   /\ exists data,
                       fst fetch = Return data
                       /\ Ethers.formatUnits (field (totals data))
                            (totals_decimals (totals data))
                          = Return (Serverless.body resp))
                  \/ (Serverless.status resp = 500
                      /\ Serverless.body resp = "0"
                      /\ forall data,
                          fst fetch = Return data ->
                          exists e,
                            Ethers.formatUnits (field (totals data))
                              (totals_decimals (totals data))
                            = Throw e))
         else Serverless.status resp = 405
              /\ Serverless.content_type resp = None
              /\ Serverless.body resp = "Method Not Allowed" in
  answers (Serverless.circulating_supply env) totals_circulatingSupply
  /\ answers (Serverless.total_supply env) totals_totalSupply.
Proof.
  intros fetch answers. subst answers. cbv beta.
  unfold Serverless.circulating_supply, Serverless.total_supply.
  destruct (String.eqb method "GET"); cbn [negb].
  - unfold try_catch, bind, ret, Serverless.formatSupply. fold fetch.
    destruct fetch as [[data|e] w1]; cbn [fst snd].
    + split.
      * destruct (Ethers.formatUnits (totals_circulatingSupply (totals data)) _)
          as [text|e] eqn:Hf; eexists; (split; [reflexivity|]); cbn;
          (split; [reflexivity|]).
        -- left. split; [reflexivity|]. exists data. auto.
        -- right. repeat split. intros d [= <-]. eauto.
      * destruct (Ethers.formatUnits (totals_totalSupply (totals data)) _)
          as [text|e] eqn:Hf; eexists; (split; [reflexivity|]); cbn;
          (split; [reflexivity|]).
        -- left. split; [reflexivity|]. exists data. auto.
        -- right. repeat split. intros d [= <-]. eauto.
    + split; eexists; (split; [reflexivity|]); cbn; (split; [reflexivity|]);
        right; repeat split; discriminate.
  - split; eexists; (split; [reflexivity|]); cbn; auto.
Qed.

(** X19. A route of the basic server always answers and never throws:
    200 with the formatted figure of a fetch that succeeded, and 500
    with the text ["0"] when the fetch or the formatting failed. It keeps
    nothing between requests: the answer depends on the world alone, and
    the world after it is the one the fetch left. *)
Theorem basic_routes_answer (w : W) :
  let fetch := Basic.getAllChainsCirculatingSupply env w in
  let answers (route : Op W (Z * string)) (field : Totals -> Z) :=
    exists code text,
      route w = (Return (code, text), snd fetch)
      /\ ((code = 200
           /\ exists data,
               fst fetch = Return data
               /\ Ethers.formatUnits (field (totals data))
                    (totals_decimals (totals data))
                  = Return text)
          \/ (code = 500 /\ text = "0"
              /\ forall data,
                  fst fetch = Return data ->
                  exists e,
                    Ethers.formatUnits (field (totals data))
                      (totals_decimals (totals data))
                    = Throw e)) in
  answers (Basic.api_circulating_supply env) totals_circulatingSupply
  /\ answers (Basic.api_total_supply env) totals_totalSupply.
Proof.
  intros fetch answers. subst answers. cbv beta.
  unfold Basic.api_circulating_supply, Basic.api_total_supply.
  unfold try_catch, bind, ret, Basic.formatSupply. fold fetch.
  destruct fetch as [[data|e] w1]; cbn [fst snd].
  - split.
    + destruct (Ethers.formatUnits (totals_circulatingSupply (totals data)) _)
        as [text|e] eqn:Hf; do 2 eexists; (split; [reflexivity|]).
      * left. split; [reflexivity|]. exists data. auto.
      * right. repeat split. intros d [= <-]. eauto.
    + destruct (Ethers.formatUnits (totals_totalSupply (totals data)) _)
        as [text|e] eqn:Hf; do 2 eexists; (split; [reflexivity|]).
      * left. split; [reflexivity|]. exists data. auto.
      * right. repeat split. intros d [= <-]. eauto.
  - split; do 2 eexists; (split; [reflexivity|]);
      right; repeat split; discriminate.
Qed.

End PlainHandlers.

(** ** The properties above in the simulated world *)

Lemma pair_of_fst {A B : Type} (p : A * B) (a : A) : fst p = a -> p = (a, snd p).
Proof. destruct p. cbn. congruence. Qed.

(** X5 on a run: a text stored under [circulating] is read back, and the
    entry of [total] is as before. *)
Lemma updateCache_roundtrip_witness :
  let st := snd (Enhanced.updateCache "circulating" (Enhanced.VString "1.5")
                   (Sim.fresh_server Sim.wide_world)) in
  Enhanced.getCachedValue "circulating" st = Enhanced.VString "1.5"
  /\ Enhanced.getCachedValue "total" st
     = Enhanced.getCachedValue "total" (Sim.fresh_server Sim.wide_world).
Proof.
  intros st. subst st.
  destruct (updateCache_roundtrip "circulating" "total" (Enhanced.VString "1.5")
              (Sim.fresh_server Sim.wide_world)) as (Hown & _ & Hother).
  split; [exact Hown|]. apply Hother. discriminate.
Defined.

(** X6 on a run: the warm process held the figure; after a clear, with every
    endpoint down, the same request is answered 500 with [0]. *)
Lemma api_cache_clear_forgets_witness :
  let st := Enhanced.api_cache_clear (Sim.at_world Sim.blackout Sim.warm_server) in
  Enhanced.getCachedValue "circulating" Sim.warm_server
  = Enhanced.VString "900000000.0"
  /\ Enhanced.getCachedValue "circulating" st = Enhanced.VNull
  /\ fst (Enhanced.api_circulating_supply Sim.no_env st)
     = Return (Enhanced.text_response 500 None None (Enhanced.VString "0")).
Proof.
  intros st.
  set (run := Enhanced.in_world (Enhanced.getAllChainsCirculatingSupply Sim.no_env) st).
  assert (Hthrow : exists e, fst run = Throw e)
    by (vm_compute; eexists; reflexivity).
  destruct Hthrow as [e Hthrow].
  apply pair_of_fst in Hthrow.
  destruct (api_cache_clear_forgets Sim.no_env "circulating"
              (Sim.at_world Sim.blackout Sim.warm_server))
    as (_ & Hvalue & _ & _ & Hanswer).
  destruct (Hanswer (snd run) e Hthrow) as [Hcirc _].
  split; [vm_compute; reflexivity|]. split; [exact Hvalue|].
  fold st in Hcirc. rewrite Hcirc. reflexivity.
Defined.

(** X7 on a run: the first request of a fresh process is a MISS, and the
    same request 100 ms later is a HIT with the same text. *)
Lemma circulating_miss_then_hit_witness :
  let run := Enhanced.api_circulating_supply Sim.no_env
               (Sim.fresh_server (Sim.example_world (10 ^ 18))) in
  let st2 := Enhanced.at_time (Sim.later 100 (Enhanced.world (snd run))) (snd run) in
  Sim.sent_text (fst run) = Some "900000000.0"
  /\ Enhanced.api_circulating_supply Sim.no_env st2
     = (Return (Enhanced.text_response 200 (Some "HIT") (Some 0)
                  (Enhanced.VString "900000000.0")), st2).
Proof.
  intros run st2.
  set (resp := Enhanced.text_response 200 (Some "MISS") None
                 (Enhanced.VString "900000000.0")).
  assert (Hfst : fst run = Return resp) by (vm_compute; reflexivity).
  assert (Hage : now (Sim.later 100 (Enhanced.world (snd run)))
                 - now (Enhanced.world (snd run)) = 100)
    by (vm_compute; reflexivity).
  split; [rewrite Hfst; reflexivity|].
  destruct (circulating_miss_then_hit Sim.no_env
              (Sim.fresh_server (Sim.example_world (10 ^ 18))) (snd run) resp
              (Sim.later 100 (Enhanced.world (snd run))))
    as (c & Hbody & Hhit).
  - now apply pair_of_fst.
  - reflexivity.
  - rewrite Hage. reflexivity.
  - injection Hbody as <-. rewrite Hage in Hhit. exact Hhit.
Defined.

(** X8 on a run: after a first request on the circulating supply, a
    request on the total supply 100 ms later is a HIT. *)
Lemma plain_text_endpoints_share_fetch_witness :
  let run := Enhanced.api_circulating_supply Sim.no_env
               (Sim.fresh_server (Sim.example_world (10 ^ 18))) in
  let st2 := Enhanced.at_time (Sim.later 100 (Enhanced.world (snd run))) (snd run) in
  exists t : string,
    Enhanced.api_total_supply Sim.no_env st2
    = (Return (Enhanced.text_response 200 (Some "HIT") None (Enhanced.VString t)),
       st2).
Proof.
  intros run st2.
  set (resp := Enhanced.text_response 200 (Some "MISS") None
                 (Enhanced.VString "900000000.0")).
  assert (Hfst : fst run = Return resp) by (vm_compute; reflexivity).
  assert (Hage : now (Sim.later 100 (Enhanced.world (snd run)))
                 - now (Enhanced.world (snd run)) = 100)
    by (vm_compute; reflexivity).
  destruct (plain_text_endpoints_share_fetch Sim.no_env
              (Sim.fresh_server (Sim.example_world (10 ^ 18))) (snd run) resp
              (Sim.later 100 (Enhanced.world (snd run))))
    as [Hcirc _].
  - rewrite Hage. reflexivity.
  - destruct Hcirc as (data & t & _ & _ & Hhit).
    + now apply pair_of_fst.
    + reflexivity.
    + exists t. exact Hhit.
Defined.

(** X10 on a run: one minute after the fetch the answer is STALE and
    carries the header. *)
Lemma x_cache_age_sent_from_cache_witness :
  exists resp : Enhanced.Response,
    fst (Enhanced.api_circulating_supply Sim.no_env Sim.stale_server) = Return resp
    /\ Enhanced.x_cache resp = Some "STALE"
    /\ is_Some (Enhanced.x_cache_age resp).
Proof.
  set (run := Enhanced.api_circulating_supply Sim.no_env Sim.stale_server).
  assert (Hresp : exists resp, fst run = Return resp
                               /\ Enhanced.x_cache resp = Some "STALE")
    by (vm_compute; eexists; split; reflexivity).
  destruct Hresp as (resp & Hfst & Htag).
  destruct (x_cache_age_sent_from_cache Sim.no_env Sim.stale_server (snd run) resp)
    as [Hcirc _].
  exists resp. split; [exact Hfst|]. split; [exact Htag|].
  apply (Hcirc (pair_of_fst _ _ Hfst)). now right.
Defined.

(** X11 on a run: five minutes after the fetch, with every endpoint down,
    the old figure is sent as a fallback. *)
Lemma plain_text_fetch_failure_witness :
  let st := Sim.at_world (fun w => Sim.blackout (Sim.later 300000 w)) Sim.warm_server in
  Enhanced.getCacheStatus "circulating" st = Enhanced.MISS
  /\ fst (Enhanced.api_circulating_supply Sim.no_env st)
     = Return (Enhanced.text_response 200 (Some "ERROR-FALLBACK") None
                 (Enhanced.VString "900000000.0")).
Proof.
  intros st.
  set (run := Enhanced.in_world (Enhanced.getAllChainsCirculatingSupply Sim.no_env) st).
  assert (Hthrow : exists e, fst run = Throw e)
    by (vm_compute; eexists; reflexivity).
  destruct Hthrow as [e Hthrow].
  assert (Hmiss : Enhanced.getCacheStatus "circulating" st = Enhanced.MISS)
    by (vm_compute; reflexivity).
  assert (Hvalue : Enhanced.getCachedValue "circulating" st
                   = Enhanced.VString "900000000.0")
    by (vm_compute; reflexivity).
  apply pair_of_fst in Hthrow.
  destruct (plain_text_fetch_failure Sim.no_env st (snd run) e Hthrow)
    as (_ & Hcirc & _).
  split; [exact Hmiss|].
  rewrite (Hcirc Hmiss), Hvalue. reflexivity.
Defined.

(** X12 on a run: the refresh a stale request started settles, and the
    three keys are fresh. *)
Lemma settle_refresh_success_witness :
  let st := Sim.at_world Sim.supply_doubled
              (snd (Enhanced.api_circulating_supply Sim.no_env Sim.stale_server)) in
  Enhanced.getCacheStatus "circulating" st = Enhanced.STALE
  /\ Enhanced.getCacheStatus "circulating" (Enhanced.settle_refresh Sim.no_env st)
     = Enhanced.HIT
  /\ Enhanced.getCacheStatus "total" (Enhanced.settle_refresh Sim.no_env st)
     = Enhanced.HIT
  /\ Enhanced.getCacheStatus "detailed" (Enhanced.settle_refresh Sim.no_env st)
     = Enhanced.HIT.
Proof.
  intros st.
  set (r := Enhanced.BackgroundRefresh "circulating" 1700000060880).
  set (run := Enhanced.in_world
                (Enhanced.getAllChainsCirculatingSupply_since Sim.no_env
                   (Enhanced.refresh_startTime r))
                {| Enhanced.cache := Enhanced.cache st;
                   Enhanced.world := Enhanced.world st;
                   Enhanced.inflight := [] |}).
  assert (Hdata : exists data, fst run = Return data)
    by (vm_compute; eexists; reflexivity).
  destruct Hdata as [data Hdata].
  assert (Hc : match fst run with
               | Return d =>
                   Ethers.formatUnits (totals_circulatingSupply (totals d))
                     (totals_decimals (totals d))
               | Throw e => Throw e
               end = Return "1800000000.0")
    by (vm_compute; reflexivity).
  assert (Ht : match fst run with
               | Return d =>
                   Ethers.formatUnits (totals_totalSupply (totals d))
                     (totals_decimals (totals d))
               | Throw e => Throw e
               end = Return "2000000000.0")
    by (vm_compute; reflexivity).
  rewrite Hdata in Hc, Ht.
  assert (Hinflight : Enhanced.inflight st = [r]) by (vm_compute; reflexivity).
  destruct (settle_refresh_success Sim.no_env st (snd run) r [] data
              "1800000000.0" "2000000000.0" Hinflight (pair_of_fst _ _ Hdata) Hc Ht)
    as (_ & Hcirc & Htotal & Hdetailed).
  split; [vm_compute; reflexivity|]. auto.
Defined.

(** X13 on a run: a token of 81 decimals is fetched and stored but cannot
    be formatted; the first request is answered 500, the next one throws. *)
Lemma detailed_caches_unformattable_data_witness :
  exists st2 : Enhanced.Server Sim.World,
    Enhanced.api_circulating_supply_detailed Sim.no_env (Sim.fresh_server Sim.wide_world)
    = (Return (Enhanced.json_response 500 None
                 (Enhanced.JsonError (err_message Ethers.invalid_decimals))),
       st2)
    /\ Enhanced.getCacheStatus "detailed" st2 = Enhanced.HIT
    /\ exists e : JsError,
         fst (Enhanced.api_circulating_supply_detailed Sim.no_env
                (Enhanced.at_time (Sim.later 100 (Enhanced.world st2)) st2))
         = Throw e.
Proof.
  set (st := Sim.fresh_server Sim.wide_world).
  set (run := Enhanced.in_world (Enhanced.getAllChainsCirculatingSupply Sim.no_env) st).
  set (e := Ethers.invalid_decimals).
  assert (Hdata : exists data, fst run = Return data)
    by (vm_compute; eexists; reflexivity).
  destruct Hdata as [data Hdata].
  assert (Hdec : match fst run with
                 | Return d => totals_decimals (totals d)
                 | Throw _ => 0
                 end = 81)
    by (vm_compute; reflexivity).
  rewrite Hdata in Hdec.
  assert (Hmiss : Enhanced.getCacheStatus "detailed" st = Enhanced.MISS)
    by (vm_compute; reflexivity).
  assert (Hformat : forall s : Enhanced.Server Sim.World,
             fst (Enhanced.formatDetailedResponse data s) = Throw e).
  { intros s. unfold Enhanced.formatDetailedResponse, Enhanced.formatChain,
      Enhanced.formatSupply, bind. rewrite Hdec. reflexivity. }
  destruct (detailed_caches_unformattable_data Sim.no_env st (snd run) data e
              Hmiss (pair_of_fst _ _ Hdata) Hformat)
    as (st2 & Hanswer & _ & Hhit & Hnext).
  exists st2. split; [exact Hanswer|]. split; [exact Hhit|].
  exists e. apply Hnext.
  change (now (Sim.later 100 (Enhanced.world st2)))
    with (Sim.clock (Enhanced.world st2) + 100).
  change (now (Enhanced.world st2)) with (Sim.clock (Enhanced.world st2)).
  unfold Enhanced.STALE_WHILE_REVALIDATE. lia.
Defined.

(** X14 on a run: the detailed request that follows a first request on the
    circulating supply is a HIT whose totals are the cached texts. *)
Lemma detailed_hit_after_circulating_witness :
  let run := Enhanced.circulating_try Sim.no_env
               (Sim.fresh_server (Sim.example_world (10 ^ 18))) in
  let st2 := Enhanced.at_time (Sim.later 100 (Enhanced.world (snd run))) (snd run) in
  exists (r : Enhanced.Response) (response : Enhanced.DetailedResponse) (x : string),
    Enhanced.api_circulating_supply_detailed Sim.no_env st2 = (Return r, st2)
    /\ r = Enhanced.json_response 200 (Some "HIT") (Enhanced.JsonDetailed response)
    /\ Enhanced.dr_totals response
       = Enhanced.mkFormattedChain "1000000000.0" x "900000000.0".
Proof.
  intros run st2.
  set (resp := Enhanced.text_response 200 (Some "MISS") None
                 (Enhanced.VString "900000000.0")).
  assert (Hfst : fst run = Return resp) by (vm_compute; reflexivity).
  assert (Hage : now (Sim.later 100 (Enhanced.world (snd run)))
                 - now (Enhanced.world (snd run)) = 100)
    by (vm_compute; reflexivity).
  assert (Htotal : Enhanced.getCachedValue "total" st2
                   = Enhanced.VString "1000000000.0")
    by (vm_compute; reflexivity).
  set (next := Enhanced.api_circulating_supply_detailed Sim.no_env st2).
  assert (Hnext : exists r, fst next = Return r)
    by (vm_compute; eexists; reflexivity).
  destruct Hnext as [r Hnext].
  destruct (detailed_hit_after_circulating Sim.no_env
              (Sim.fresh_server (Sim.example_world (10 ^ 18))) (snd run) (snd next)
              resp r (Sim.later 100 (Enhanced.world (snd run))))
    as (Hstate & response & t & x & c & Hr & Htotals & Hbody & _ & Ht).
  - now apply pair_of_fst.
  - rewrite Hage. reflexivity.
  - now apply pair_of_fst.
  - exists r, response, x. split; [|split; [exact Hr|]].
    + fold st2 in Hstate. rewrite <- Hstate. now apply pair_of_fst.
    + fold st2 in Ht. rewrite Htotal in Ht. injection Ht as <-.
      injection Hbody as <-. exact Htotals.
Defined.

(** X15 on a run: the fetch of the example world takes 880 ms, and its
    totals add up. *)
Lemma global_totals_are_sums_witness :
  exists data : SupplyData,
    fst (Enhanced.getAllChainsCirculatingSupply Sim.no_env
           (Sim.example_world (10 ^ 18))) = Return data
    /\ totals_circulatingSupply (totals data)
       = totals_totalSupply (totals data) - totals_excludedBalance (totals data)
    /\ (metadata_fetchDuration <$> metadata data) = Some 880.
Proof.
  set (w := Sim.example_world (10 ^ 18)).
  set (run := Enhanced.getAllChainsCirculatingSupply Sim.no_env w).
  assert (Hdata : exists data, fst run = Return data)
    by (vm_compute; eexists; reflexivity).
  destruct Hdata as [data Hdata].
  assert (Hclock : now (snd run) - now w = 880) by (vm_compute; reflexivity).
  destruct (global_totals_are_sums Sim.no_env w (snd run) data) as [Henhanced _].
  destruct (Henhanced (pair_of_fst _ _ Hdata)) as (Hsummed & Hduration).
  exists data. split; [exact Hdata|]. split.
  - apply Hsummed.
  - rewrite Hduration, Hclock. reflexivity.
Defined.

(** X16 on a run: in the example world the serverless total is Sonic's. *)
Lemma serverless_total_is_sonic_witness :
  exists data : SupplyData,
    fst (Serverless.getAllChainsCirculatingSupply Sim.no_env
           (Sim.example_world (10 ^ 18))) = Return data
    /\ totals_totalSupply (totals data) = totalSupply (sonic (chains data))
    /\ totals_circulatingSupply (totals data) + totals_excludedBalance (totals data)
       = totals_totalSupply (totals data)
         + totalSupply (ethereum (chains data)) + totalSupply (plasma (chains data)).
Proof.
  set (w := Sim.example_world (10 ^ 18)).
  set (run := Serverless.getAllChainsCirculatingSupply Sim.no_env w).
  assert (Hdata : exists data, fst run = Return data)
    by (vm_compute; eexists; reflexivity).
  destruct Hdata as [data Hdata].
  destruct (serverless_total_is_sonic Sim.no_env w (snd run) data
              (pair_of_fst _ _ Hdata))
    as (_ & _ & _ & Htotal & _ & _ & Hgap).
  exists data. auto.
Defined.

(** X17 on a run: the text of 900000000 tokens of 18 decimals is a number. *)
Lemma formatSupply_text_is_number_witness :
  exists text : string,
    @Enhanced.formatSupply unit (900000000 * 10 ^ 18) 18 tt = (Return text, tt)
    /\ TestApi.isNumber text = true.
Proof.
  destruct (formatSupply_text_is_number (900000000 * 10 ^ 18) 18)
    as (text & Hformat & Hnumber & _).
  - split; [discriminate|reflexivity].
  - lia.
  - exists text. split; [apply Hformat|]. rewrite Hnumber. reflexivity.
Defined.

(** X18 on a run: a POST is refused with 405 and the world is untouched,
    even with every endpoint down. *)
Lemma serverless_functions_answer_witness :
  let w := Sim.blackout (Sim.example_world 1) in
  exists resp : Serverless.Response,
    Serverless.circulating_supply Sim.no_env "POST" w = (Return resp, w)
    /\ Serverless.status resp = 405.
Proof.
  intros w.
  destruct (serverless_functions_answer Sim.no_env "POST" w)
    as [(resp & Hrun & Hshape) _].
  exists resp. split; [exact Hrun|exact (proj1 Hshape)].
Defined.

(** X19 on a run: the basic server answers the example world with 200 and
    the circulating supply. *)
Lemma basic_routes_answer_witness :
  fst (Basic.api_circulating_supply Sim.no_env (Sim.example_world (10 ^ 18)))
  = Return (200, "900000000.0").
Proof.
  set (w := Sim.example_world (10 ^ 18)).
  pose proof (basic_routes_answer Sim.no_env w) as Hanswer. cbv zeta in Hanswer.
  set (fetch := Basic.getAllChainsCirculatingSupply Sim.no_env w) in *.
  assert (Hdata : exists data, fst fetch = Return data)
    by (vm_compute; eexists; reflexivity).
  destruct Hdata as [data Hdata].
  assert (Hc : match fst fetch with
               | Return d =>
                   Ethers.formatUnits (totals_circulatingSupply (totals d))
                     (totals_decimals (totals d))
               | Throw e => Throw e
               end = Return "900000000.0")
    by (vm_compute; reflexivity).
  rewrite Hdata in Hc.
  destruct Hanswer
    as [(code & text & Hrun & [(Hcode & d & Hd & Hf)|(_ & _ & Hfail)]) _].
  - rewrite Hrun. cbn [fst]. rewrite Hdata in Hd. injection Hd as <-.
    rewrite Hc in Hf. injection Hf as <-. now subst code.
  - destruct (Hfail data Hdata) as [e He]. rewrite Hc in He. discriminate.
Defined.
